(** * Miniature GPT text generation: a shallow embedding

    Source: examples/generative/ipynb/text_generation_with_miniature_gpt.ipynb

    The notebook is a thin composition over TensorFlow/Keras.  The parts
    written in the notebook itself (the causal mask, the masking arithmetic
    of scaled dot-product attention, the transformer block wiring, the
    token+position embedding, the label shift, top-k sampling and the
    generation loop) are embedded below as Rocq functions.  What the
    Keras layers the notebook instantiates (Dense, LayerNormalization,
    Dropout) are written out as the Keras documentation defines them, with
    their weights as data.  What else the framework supplies (the Embedding
    tables, TextVectorization's tokenizer, the trained model behind the
    callback, the stream of random draws) enters as a parameter: a record
    field or a Section variable, with the contract the framework documents
    stated where a theorem needs it.

    Conventions.
    - Python ints are [Z]; [%] and [//] are floor division, which is what
      [Z.modulo] and [Z.div] compute for a non-zero divisor.
    - Tensors are nested lists.  The arithmetic of a float dtype is a
      [Float] structure with two instances: [float32], the IEEE 754
      binary32 numbers with their infinities and NaN, and the real numbers
      [R], the exact arithmetic that float32 rounds.  The masking
      arithmetic of attention, where infinities matter, is stated over
      [float32]; shapes, the wiring of layers and probabilities are stated
      over [R].
    - Python exceptions are values of [exn], threaded by the [result] monad. *)

From Stdlib Require Import ZArith List String Ascii DecimalString Lia Reals Lra SpecFloat.
From stdpp Require Import base option list sorting gmap strings.

Import ListNotations.
Local Open Scope Z_scope.

(** ** Exceptions and the result monad *)

Inductive exn : Type :=
| ValueError (msg : string)
| ZeroDivisionError
| IndexError
| InvalidArgumentError (msg : string).

Inductive result (A : Type) : Type :=
| Ok (a : A)
| Raise (e : exn).
Arguments Ok {A} a.
Arguments Raise {A} e.

Definition rbind {A B : Type} (r : result A) (k : A -> result B) : result B :=
  match r with
  | Ok a => k a
  | Raise e => Raise e
  end.

Notation "'do' x <- r ; k" := (rbind r (fun x => k))
  (at level 10, x name, r at level 100, k at level 200).
Notation "'do' ' p <- r ; k" := (rbind r (fun x => let 'p := x in k))
  (at level 10, p strict pattern, r at level 100, k at level 200).

(** [[f(x) for x in l]] for an [f] that may raise. *)
Fixpoint rmap {A B : Type} (f : A -> result B) (l : list A) : result (list B) :=
  match l with
  | [] => Ok []
  | a :: l' => do b <- f a; do bs <- rmap f l'; Ok (b :: bs)
  end.

(** Python's [a % b] and [a // b]. *)
Definition py_mod (a b : Z) : result Z :=
  if b =? 0 then Raise ZeroDivisionError else Ok (a mod b).

Definition py_floordiv (a b : Z) : result Z :=
  if b =? 0 then Raise ZeroDivisionError else Ok (a / b).

(** Python's [l[i]] on a list or array: negative indices count from the
    end, anything out of range raises [IndexError]. *)
Definition py_index {A : Type} (l : list A) (i : Z) : result A :=
  let n := Z.of_nat (length l) in
  let j := if i <? 0 then i + n else i in
  if (0 <=? j) && (j <? n) then
    match l !! Z.to_nat j with
    | Some a => Ok a
    | None => Raise IndexError
    end
  else Raise IndexError.

(** [range(n)] as integers: empty when [n <= 0]. *)
Definition range (n : Z) : list Z := map Z.of_nat (seq 0 (Z.to_nat n)).

(** [len(l)] as a Python int. *)
Definition len {A : Type} (l : list A) : Z := Z.of_nat (length l).

(** Decimal rendering of an integer, as an f-string shows it. *)
Definition show_Z (z : Z) : string := NilZero.string_of_int (Z.to_int z).

(** Python's [l[:m]]: a negative bound counts from the end. *)
Definition py_slice_to {A : Type} (l : list A) (m : Z) : list A :=
  take (Z.to_nat (if m <? 0 then Z.max 0 (len l + m) else m)) l.

(** Python's [l[m:]]. *)
Definition py_slice_from {A : Type} (l : list A) (m : Z) : list A :=
  drop (Z.to_nat (if m <? 0 then Z.max 0 (len l + m) else m)) l.

(** ** Numeric dtypes

    [tf.cast(m, dtype)] of a boolean tensor gives the dtype's 1 and 0. *)

Class DType (T : Type) : Type := {
  one : T;
  zero : T;
  one_neq_zero : one <> zero
}.

#[export] Instance DType_Z : DType Z :=
  {| one := 1; zero := 0; one_neq_zero := ltac:(discriminate) |}.

#[export] Instance DType_R : DType R :=
  {| one := 1%R; zero := 0%R; one_neq_zero := R1_neq_R0 |}.

Definition cast {T : Type} `{DType T} (b : bool) : T := if b then one else zero.

(** ** IEEE 754 binary32

    [tf.float32]: 24 bits of precision, exponents below 128, rounding to
    nearest even.  The operations are those of the Standard Library's
    specification of IEEE 754 arithmetic. *)

Definition float32 : Type := spec_float.

Module Float32.

Definition prec : Z := 24.
Definition emax : Z := 128.

Definition add : float32 -> float32 -> float32 := SFadd prec emax.
Definition sub : float32 -> float32 -> float32 := SFsub prec emax.
Definition mul : float32 -> float32 -> float32 := SFmul prec emax.
Definition div : float32 -> float32 -> float32 := SFdiv prec emax.
Definition sqrt : float32 -> float32 := SFsqrt prec emax.
Definition opp : float32 -> float32 := SFopp.

(** The float32 nearest to an integer. *)
Definition of_int (z : Z) : float32 := binary_normalize prec emax z 0 false.

Definition nan : float32 := S754_nan.
Definition inf : float32 := S754_infinity false.

(** Neither an infinity nor NaN. *)
Definition is_finite (x : float32) : bool :=
  match x with
  | S754_zero _ | S754_finite _ _ _ => true
  | S754_infinity _ | S754_nan => false
  end.

(** [spec_float] also holds triples (sign, mantissa, exponent) that are
    not in the normal form of binary32; the float32 values are the valid
    ones. *)
Definition valid (x : float32) : bool := valid_binary prec emax x.

End Float32.

(** ** Float dtypes

    The arithmetic a tensor of a float dtype is computed with. *)

Class Float (T : Type) : Type := {
  Float_DType :: DType T;
  fadd : T -> T -> T;
  fsub : T -> T -> T;
  fmul : T -> T -> T;
  fdiv : T -> T -> T;
  fsqrt : T -> T;
  of_int : Z -> T       (* the conversion of a Python number, or of an int tensor *)
}.

#[export] Instance Float_R : Float R :=
  {| Float_DType := DType_R;
     fadd := Rplus; fsub := Rminus; fmul := Rmult; fdiv := Rdiv;
     fsqrt := sqrt; of_int := IZR |}.

#[export] Instance DType_float32 : DType float32 :=
  {| one := S754_finite false 8388608 (-23);
     zero := S754_zero false;
     one_neq_zero := ltac:(discriminate) |}.

#[export] Instance Float_float32 : Float float32 :=
  {| Float_DType := DType_float32;
     fadd := Float32.add; fsub := Float32.sub; fmul := Float32.mul;
     fdiv := Float32.div; fsqrt := Float32.sqrt; of_int := Float32.of_int |}.

(** ** Tensors as nested lists

    [tensor1] to [tensor4] are the tensors over [R]. *)

Abbreviation tensor1 := (list R).
Abbreviation tensor2 := (list (list R)).
Abbreviation tensor3 := (list (list (list R))).
Abbreviation tensor4 := (list (list (list (list R)))).

(** [tf.shape(t)[-1]], [tf.shape(t)[2]] and [tf.shape(t)[3]] are read off
    the first element along each axis; on an axis of extent 0 the inner
    extents are reported as 0, and no entry depends on them. *)
Definition dim1 {A : Type} (t : list (list A)) : Z := len (hd [] t).
Definition dim2 {A : Type} (t : list (list (list A))) : Z := dim1 (hd [] t).
Definition dim3 {A : Type} (t : list (list (list (list A)))) : Z := dim2 (hd [] t).

Definition has_shape2 {A : Type} (t : list (list A)) (n d : nat) : Prop :=
  length t = n /\ Forall (fun r => length r = d) t.
Definition has_shape3 {A : Type} (t : list (list (list A))) (b n d : nat) : Prop :=
  length t = b /\ Forall (fun m => has_shape2 m n d) t.
Definition has_shape4 {A : Type} (t : list (list (list (list A)))) (b h n d : nat) : Prop :=
  length t = b /\ Forall (fun m => has_shape3 m h n d) t.

(** Shape contracts of a layer on (batch, seq_len, d) tensors: it maps the
    last axis from extent [d] to [d'], or keeps the shape. *)
Definition maps_last_axis (f : tensor3 -> tensor3) (d d' : nat) : Prop :=
  forall x b n, has_shape3 x b n d -> has_shape3 (f x) b n d'.
Definition keeps_shape (f : tensor3 -> tensor3) (d : nat) : Prop :=
  maps_last_axis f d d.

(** Row [t[b][p]] of a 3-tensor. *)
Definition row3 (t : tensor3) (b p : nat) : option tensor1 :=
  match t !! b with Some tb => tb !! p | None => None end.

(** Row [t[b][h][i]] and entry [t[b][h][i][j]] of a 4-tensor. *)
Definition row4 {T : Type} (t : list (list (list (list T)))) (b h i : nat)
  : option (list T) :=
  match t !! b with
  | Some tb => match tb !! h with Some th => th !! i | None => None end
  | None => None
  end.
Definition entry4 {T : Type} (t : list (list (list (list T)))) (b h i j : nat)
  : option T :=
  match row4 t b h i with Some r => r !! j | None => None end.

(** Elementwise addition of same-shape vectors, matrices and 3-tensors. *)
Definition vadd (u v : tensor1) : tensor1 := zip_with Rplus u v.
Definition madd (u v : tensor2) : tensor2 := zip_with vadd u v.
Definition tadd (u v : tensor3) : tensor3 := zip_with madd u v.

Definition rsum (v : list R) : R := foldr Rplus 0%R v.

(** The inner product of two vectors of a float dtype.  (The order in
    which the framework adds up the products is its own; over [R] it does
    not matter.) *)
Definition fsum {T : Type} `{Float T} (v : list T) : T := foldr fadd zero v.
Definition dot {T : Type} `{Float T} (u v : list T) : T := fsum (zip_with fmul u v).

(** [tf.matmul(a, b, transpose_b=True)] on the last two axes. *)
Definition matmul_transpose_b2 {T : Type} `{Float T} (a b : list (list T))
  : list (list T) :=
  map (fun ai => map (fun bj => dot ai bj) b) a.
Definition matmul_transpose_b {T : Type} `{Float T}
           (a b : list (list (list (list T)))) : list (list (list (list T))) :=
  zip_with (zip_with matmul_transpose_b2) a b.

(** Columns of a matrix with [d] columns. *)
Definition columns {T : Type} `{Float T} (d : nat) (m : list (list T))
  : list (list T) :=
  map (fun c => map (fun r => nth c r zero) m) (seq 0 d).

(** [tf.matmul(a, b)] on the last two axes. *)
Definition matmul2 {T : Type} `{Float T} (a b : list (list T)) : list (list T) :=
  matmul_transpose_b2 a (columns (length (hd [] b)) b).
Definition matmul {T : Type} `{Float T} (a b : list (list (list (list T))))
  : list (list (list (list T))) :=
  zip_with (zip_with matmul2) a b.

(** The entries of a tensor in row-major order. *)
Definition flatten3 (t : tensor3) : list R := concat (concat t).
Definition flatten4 (t : tensor4) : list R := concat (concat (concat t)).

(** [tf.reshape] to shape (b, m, h, p), resp. (b, n, e): the row-major
    regrouping of the flattened entries. *)
Definition reshape4 (flat : list R) (b m h p : nat) : tensor4 :=
  map (fun ib =>
    map (fun im =>
      map (fun ih => take p (drop (((ib * m + im) * h + ih) * p) flat)) (seq 0 h))
      (seq 0 m))
    (seq 0 b).
Definition reshape3 (flat : list R) (b n e : nat) : tensor3 :=
  map (fun ib => map (fun i => take e (drop ((ib * n + i) * e) flat)) (seq 0 n))
      (seq 0 b).

(** [tf.transpose(t, perm=[0, 2, 1, 3])] of a 4-tensor whose axis 2 has
    extent [h]: [result[b][i][j] = t[b][j][i]]. *)
Definition transpose_0213 (h : nat) (t : tensor4) : tensor4 :=
  map (fun tb => map (fun i => map (fun item => nth i item []) tb) (seq 0 h)) t.

(** [tf.nn.softmax(t, axis=-1)]. *)
Definition softmax1 (v : tensor1) : tensor1 :=
  let z := rsum (map exp v) in map (fun x => (exp x / z)%R) v.
Definition softmax4 (t : tensor4) : tensor4 := map (map (map softmax1)) t.

(** ** Keras layers

    The layers the notebook takes from [tensorflow.keras.layers].  A layer
    is the configuration its constructor records; its weights, created
    when the layer is first called and changed by training, are separate
    data passed to the forward function.  The forward functions are in
    exact arithmetic. *)

Module layers.

(** The [activation] argument of [Dense]: absent, or ["relu"]. *)
Inductive activation : Type :=
| linear
| relu.

Definition apply_activation (a : activation) (x : R) : R :=
  match a with
  | linear => x
  | relu => Rmax x 0
  end.

Record Dense : Type := mk_Dense {
  units : Z;
  Dense_activation : activation
}.

Definition Dense_units_error (units : Z) : string :=
  ("Received an invalid value for `units`, expected a positive integer. Received: units="
     ++ show_Z units)%string.

(** [layers.Dense(units, activation=a)]: the constructor rejects a
    negative width. *)
Definition Dense_init (units : Z) (a : activation) : result Dense :=
  if units <? 0 then Raise (ValueError (Dense_units_error units))
  else Ok (mk_Dense units a).

(** The weights of a built Dense layer: a kernel of shape
    (input_dim, units) and a bias of shape (units). *)
Record Dense_weights : Type := mk_Dense_weights {
  kernel : tensor2;
  bias : tensor1
}.

Definition Dense_weights_ok (w : Dense_weights) (input_dim units : nat) : Prop :=
  has_shape2 (kernel w) input_dim units /\ length (bias w) = units.

(** One row of the layer's output: [activation(x . kernel + bias)]. *)
Definition Dense_row (l : Dense) (w : Dense_weights) (x : tensor1) : tensor1 :=
  map (apply_activation (Dense_activation l))
      (vadd (map (dot x) (columns (Z.to_nat (units l)) (kernel w))) (bias w)).

(** The layer applied to a (batch, seq_len, input_dim) tensor: to every
    row along the last axis. *)
Definition Dense_call (l : Dense) (w : Dense_weights) (x : tensor3) : tensor3 :=
  map (map (Dense_row l w)) x.

(** [layers.LayerNormalization(epsilon=e)], normalizing the last axis,
    with its scale [gamma] and offset [beta]. *)
Record LayerNormalization : Type := mk_LayerNormalization { epsilon : R }.

Record LayerNormalization_weights : Type := mk_LayerNormalization_weights {
  gamma : tensor1;
  beta : tensor1
}.

Definition LayerNormalization_weights_ok (w : LayerNormalization_weights) (d : nat)
  : Prop :=
  length (gamma w) = d /\ length (beta w) = d.

Definition mean (v : tensor1) : R := (rsum v / INR (length v))%R.

Definition variance (v : tensor1) : R :=
  mean (map (fun x => ((x - mean v) * (x - mean v))%R) v).

Definition LayerNormalization_row (l : LayerNormalization)
           (w : LayerNormalization_weights) (v : tensor1) : tensor1 :=
  let normalized :=
    map (fun x => ((x - mean v) / sqrt (variance v + epsilon l))%R) v in
  zip_with Rplus (zip_with Rmult normalized (gamma w)) (beta w).

Definition LayerNormalization_call (l : LayerNormalization)
           (w : LayerNormalization_weights) (x : tensor3) : tensor3 :=
  map (map (LayerNormalization_row l w)) x.

(** [layers.Dropout(rate)].  At inference the layer is the identity.  In
    training every entry is kept with probability [1 - rate] and scaled by
    [1 / (1 - rate)], or set to 0; which entries are kept is drawn by the
    framework, and enters as a tensor of booleans. *)
Record Dropout : Type := mk_Dropout { rate : R }.

Definition Dropout_row (l : Dropout) (keep : option (list bool)) (v : tensor1)
  : tensor1 :=
  match keep with
  | None => v
  | Some ks => zip_with (fun x (k : bool) => if k then (x / (1 - rate l))%R else 0%R) v ks
  end.

Definition Dropout_call (l : Dropout) (keep : option (list (list (list bool))))
           (x : tensor3) : tensor3 :=
  match keep with
  | None => x
  | Some m => zip_with (zip_with (fun v ks => Dropout_row l (Some ks) v)) x m
  end.

End layers.

(** ** MultiHeadSelfAttention *)

Module MultiHeadSelfAttention.

(** The attributes [__init__] sets. *)
Record t : Type := mk {
  embed_dim : Z;
  num_heads : Z;
  projection_dim : Z;
  query_dense : layers.Dense;
  key_dense : layers.Dense;
  value_dense : layers.Dense;
  combine_heads : layers.Dense
}.

Definition error_message (embed_dim num_heads : Z) : string :=
  ("embedding dimension = " ++ show_Z embed_dim
     ++ " should be divisible by number of heads = " ++ show_Z num_heads)%string.

Definition init (embed_dim num_heads : Z) : result t :=
  do r <- py_mod embed_dim num_heads;
  if negb (r =? 0) then Raise (ValueError (error_message embed_dim num_heads))
  else
    do projection_dim <- py_floordiv embed_dim num_heads;
    do query_dense <- layers.Dense_init embed_dim layers.linear;
    do key_dense <- layers.Dense_init embed_dim layers.linear;
    do value_dense <- layers.Dense_init embed_dim layers.linear;
    do combine_heads <- layers.Dense_init embed_dim layers.linear;
    Ok (mk embed_dim num_heads projection_dim
           query_dense key_dense value_dense combine_heads).

(** [causal_attention_mask(n_dest, n_src, dtype)]:
    [i = tf.range(n_dest)[:, None]], [j = tf.range(n_src)],
    [m = i >= j - n_src + n_dest], [tf.cast(m, dtype)].
    The dtype argument is the carrier [T]. *)
Definition causal_attention_mask (T : Type) `{DType T} (n_dest n_src : Z)
  : list (list T) :=
  map (fun i => map (fun j => cast (i >=? j - n_src + n_dest)) (range n_src))
      (range n_dest).

(** The first three lines of [attention(query, key, value)]:
    [score = tf.matmul(query, key, transpose_b=True)],
    [dim_key = tf.cast(tf.shape(key)[-1], tf.float32)],
    [scaled_score = score / tf.math.sqrt(dim_key)]. *)
Definition scaled_scores {T : Type} `{Float T}
           (query key : list (list (list (list T)))) : list (list (list (list T))) :=
  let score := matmul_transpose_b query key in
  let dim_key := of_int (dim3 key) in
  map (map (map (map (fun s => fdiv s (fsqrt dim_key))))) score.

(** The masking that follows, up to the score that is fed to softmax:
    [scaled_score * attention_mask - 1e4 * (1 - attention_mask)]
    with the mask, of the dtype of [scaled_score], reshaped to
    [1, 1, dim_dest, dim_src] and broadcast. *)
Definition masked_scores {T : Type} `{Float T}
           (query key : list (list (list (list T)))) : list (list (list (list T))) :=
  let scaled_score := scaled_scores query key in
  let dim_dest := dim2 scaled_score in
  let dim_src := dim3 scaled_score in
  let attention_mask := causal_attention_mask T dim_dest dim_src in
  map (map (fun m =>
    zip_with (zip_with (fun s a =>
      fsub (fmul s a) (fmul (of_int 10000) (fsub one a)))) m attention_mask))
    scaled_score.

(** [attention(query, key, value)] returns [(output, weights)]. *)
Definition attention (query key value : tensor4) : tensor4 * tensor4 :=
  let scaled_score := masked_scores query key in
  let weights := softmax4 scaled_score in
  let output := matmul weights value in
  (output, weights).

(** The four Dense sublayers once built: their forward functions, learned
    weights included. *)
Record sublayers : Type := mk_sublayers {
  query_dense_call : tensor3 -> tensor3;
  key_dense_call : tensor3 -> tensor3;
  value_dense_call : tensor3 -> tensor3;
  combine_heads_call : tensor3 -> tensor3
}.

(** [separate_heads(x, batch_size)]:
    [tf.reshape(x, (batch_size, -1, num_heads, projection_dim))] followed by
    [tf.transpose(x, perm=[0, 2, 1, 3])].  The extent written [-1] is the
    number of entries divided by the product of the other extents.
    ([tf.reshape] raises when the entries cannot be regrouped this way; for
    a layer built by [__init__] with positive dimensions, applied to the
    output of a Dense layer of width [embed_dim], they always can, since
    [num_heads * projection_dim = embed_dim].) *)
Definition separate_heads (self : t) (x : tensor3) (batch_size : Z) : tensor4 :=
  let b := Z.to_nat batch_size in
  let h := Z.to_nat (num_heads self) in
  let p := Z.to_nat (projection_dim self) in
  let flat := flatten3 x in
  let x := reshape4 flat b (length flat / (b * h * p)) h p in
  transpose_0213 h x.

(** [call(inputs)]. *)
Definition call (self : t) (w : sublayers) (inputs : tensor3) : tensor3 :=
  let batch_size := len inputs in
  let query := query_dense_call w inputs in
  let key := key_dense_call w inputs in
  let value := value_dense_call w inputs in
  let query := separate_heads self query batch_size in
  let key := separate_heads self key batch_size in
  let value := separate_heads self value batch_size in
  let '(attention, weights) := attention query key value in
  let attention := transpose_0213 (Z.to_nat (dim2 attention)) attention in
  let b := Z.to_nat batch_size in
  let e := Z.to_nat (embed_dim self) in
  let flat := flatten4 attention in
  let concat_attention := reshape3 flat b (length flat / (b * e)) e in
  let output := combine_heads_call w concat_attention in
  output.

(** The weights of the four Dense sublayers, and the forward functions
    they give. *)
Record weights : Type := mk_weights {
  query_dense_w : layers.Dense_weights;
  key_dense_w : layers.Dense_weights;
  value_dense_w : layers.Dense_weights;
  combine_heads_w : layers.Dense_weights
}.

Definition built (self : t) (w : weights) : sublayers :=
  {| query_dense_call := layers.Dense_call (query_dense self) (query_dense_w w);
     key_dense_call := layers.Dense_call (key_dense self) (key_dense_w w);
     value_dense_call := layers.Dense_call (value_dense self) (value_dense_w w);
     combine_heads_call := layers.Dense_call (combine_heads self) (combine_heads_w w) |}.

Record weights_ok (w : weights) (embed_dim : nat) : Prop := {
  query_dense_ok : layers.Dense_weights_ok (query_dense_w w) embed_dim embed_dim;
  key_dense_ok : layers.Dense_weights_ok (key_dense_w w) embed_dim embed_dim;
  value_dense_ok : layers.Dense_weights_ok (value_dense_w w) embed_dim embed_dim;
  combine_heads_ok : layers.Dense_weights_ok (combine_heads_w w) embed_dim embed_dim
}.

End MultiHeadSelfAttention.

(** ** TransformerBlock *)

Module TransformerBlock.

(** The attributes [__init__] sets; [ffn_dense_relu] and [ffn_dense] are
    the two layers of the [keras.Sequential] [self.ffn]. *)
Record t : Type := mk {
  att : MultiHeadSelfAttention.t;
  ffn_dense_relu : layers.Dense;
  ffn_dense : layers.Dense;
  layernorm1 : layers.LayerNormalization;
  layernorm2 : layers.LayerNormalization;
  dropout1 : layers.Dropout;
  dropout2 : layers.Dropout
}.

(** [TransformerBlock(embed_dim, num_heads, ff_dim)], as [create_model]
    calls it: [rate] is left at its default 0.1. *)
Definition init (embed_dim num_heads ff_dim : Z) : result t :=
  let rate := (1 / 10)%R in
  do att <- MultiHeadSelfAttention.init embed_dim num_heads;
  do ffn_dense_relu <- layers.Dense_init ff_dim layers.relu;
  do ffn_dense <- layers.Dense_init embed_dim layers.linear;
  let layernorm1 := layers.mk_LayerNormalization (1 / 1000000)%R in
  let layernorm2 := layers.mk_LayerNormalization (1 / 1000000)%R in
  let dropout1 := layers.mk_Dropout rate in
  let dropout2 := layers.mk_Dropout rate in
  Ok (mk att ffn_dense_relu ffn_dense layernorm1 layernorm2 dropout1 dropout2).

(** The weights of the sublayers that have any. *)
Record weights : Type := mk_weights {
  att_w : MultiHeadSelfAttention.weights;
  ffn_dense_relu_w : layers.Dense_weights;
  ffn_dense_w : layers.Dense_weights;
  layernorm1_w : layers.LayerNormalization_weights;
  layernorm2_w : layers.LayerNormalization_weights
}.

Record weights_ok (w : weights) (embed_dim ff_dim : nat) : Prop := {
  att_ok : MultiHeadSelfAttention.weights_ok (att_w w) embed_dim;
  ffn_dense_relu_ok : layers.Dense_weights_ok (ffn_dense_relu_w w) embed_dim ff_dim;
  ffn_dense_ok : layers.Dense_weights_ok (ffn_dense_w w) ff_dim embed_dim;
  layernorm1_ok : layers.LayerNormalization_weights_ok (layernorm1_w w) embed_dim;
  layernorm2_ok : layers.LayerNormalization_weights_ok (layernorm2_w w) embed_dim
}.

(** How a call is run: at inference, or in training with the entries the
    two Dropout layers keep. *)
Definition mode : Type :=
  option (list (list (list bool)) * list (list (list bool))).

Definition mode_ok (training : mode) (b n d : nat) : Prop :=
  match training with
  | None => True
  | Some (keep1, keep2) => has_shape3 keep1 b n d /\ has_shape3 keep2 b n d
  end.

(** Row [b][p] of what a Dropout layer keeps. *)
Definition keep_row (keep : option (list (list (list bool)))) (b p : nat)
  : option (list bool) :=
  match keep with
  | None => None
  | Some m => match m !! b with Some mb => mb !! p | None => None end
  end.

(** [self.ffn]: the Sequential applies its layers in order. *)
Definition ffn (self : t) (w : weights) (x : tensor3) : tensor3 :=
  layers.Dense_call (ffn_dense self) (ffn_dense_w w)
    (layers.Dense_call (ffn_dense_relu self) (ffn_dense_relu_w w) x).

Definition call (self : t) (w : weights) (training : mode) (inputs : tensor3)
  : tensor3 :=
  let attention_output :=
    MultiHeadSelfAttention.call (att self)
      (MultiHeadSelfAttention.built (att self) (att_w w)) inputs in
  let attention_output :=
    layers.Dropout_call (dropout1 self) (fst <$> training) attention_output in
  let out1 :=
    layers.LayerNormalization_call (layernorm1 self) (layernorm1_w w)
      (tadd inputs attention_output) in
  let ffn_output := ffn self w out1 in
  let ffn_output :=
    layers.Dropout_call (dropout2 self) (snd <$> training) ffn_output in
  layers.LayerNormalization_call (layernorm2 self) (layernorm2_w w)
    (tadd out1 ffn_output).

End TransformerBlock.

(** ** TokenAndPositionEmbedding

    A [layers.Embedding] is a lookup table, applied to every index of the
    tensor it is given. *)

Module TokenAndPositionEmbedding.

Record t : Type := mk {
  token_emb : Z -> tensor1;
  pos_emb : Z -> tensor1
}.

Definition call (self : t) (x : list (list Z)) : tensor3 :=
  let maxlen := dim1 x in
  let positions := range maxlen in
  let positions := map (pos_emb self) positions in
  let x := map (map (token_emb self)) x in
  map (fun xb => madd xb positions) x.

End TokenAndPositionEmbedding.

(** ** Corpus preparation

    [vectorize_layer] is a TextVectorization layer with
    [output_sequence_length = maxlen + 1].  Its standardization, whitespace
    split and vocabulary lookup are the variable [tokenize_text]; what the
    layer does with [output_sequence_length] (truncate, or pad with 0 on the
    right) is written out. *)

Module Corpus.
Section Corpus.
Variable maxlen : Z.
Variable tokenize_text : string -> list Z.

Definition pad_or_truncate (n : Z) (ids : list Z) : list Z :=
  if n <? len ids then py_slice_to ids n
  else ids ++ replicate (Z.to_nat (n - len ids)) 0.

Definition vectorize_layer (text : list string) : list (list Z) :=
  map (fun s => pad_or_truncate (maxlen + 1) (tokenize_text s)) text.

(** [x = tokenized_sentences[:, :-1]], [y = tokenized_sentences[:, 1:]]. *)
Definition prepare_lm_inputs_labels (text : list string)
  : list (list Z) * list (list Z) :=
  let tokenized_sentences := vectorize_layer text in
  let x := map (fun row => py_slice_to row (-1)) tokenized_sentences in
  let y := map (fun row => py_slice_from row 1) tokenized_sentences in
  (x, y).

End Corpus.
End Corpus.

(** ** Vocabulary *)

(** [enumerate(l)]. *)
Definition enumerate {A : Type} (l : list A) : list (Z * A) :=
  zip (range (len l)) l.

(** [word_to_index = {}; for index, word in enumerate(vocab):
    word_to_index[word] = index]. *)
Definition build_word_to_index (vocab : list string) : gmap string Z :=
  foldl (fun (m : gmap string Z) '(index, word) => <[word := index]> m) ∅
        (enumerate vocab).

(** [word_to_index.get(_, 1)]. *)
Definition tokenize (word_to_index : gmap string Z) (word : string) : Z :=
  default 1 (word_to_index !! word).

(** ** Random numbers

    The state of [np.random] is the stream of uniform draws from [0, 1)
    still to come. *)

Definition rng : Type := nat -> R.

Definition random_sample (g : rng) : R * rng := (g 0%nat, fun n => g (S n)).

(** [p.cumsum()]. *)
Fixpoint cumsum_from (acc : R) (p : list R) : list R :=
  match p with
  | [] => []
  | x :: p' => (acc + x)%R :: cumsum_from (acc + x)%R p'
  end.
Definition cumsum (p : list R) : list R := cumsum_from 0%R p.

(** [cdf.searchsorted(u, side=right)] on an ascending [cdf]: the number
    of leading entries that are [<= u]. *)
Fixpoint searchsorted_right (cdf : list R) (u : R) : nat :=
  match cdf with
  | [] => 0
  | c :: cdf' => if Rle_dec c u then S (searchsorted_right cdf' u) else 0
  end.

(** [np.random.choice(a, p=p)]: one uniform draw, inverted through the
    cumulative distribution of [p].  (numpy also rejects a [p] that does
    not sum to 1 and divides the cumulative sums by their last entry; the
    only caller passes a softmax, whose entries sum to 1.) *)
Definition random_choice {A : Type} (a : list A) (p : list R) (g : rng)
  : result (A * rng) :=
  if (length a =? 0)%nat then Raise (ValueError "a must be non-empty")
  else if negb (length p =? length a)%nat then
    Raise (ValueError "a and p must have same size")
  else
    let '(u, g') := random_sample g in
    let cdf := cumsum p in
    let idx := searchsorted_right cdf u in
    do x <- py_index a (Z.of_nat idx);
    Ok (x, g').

(** ** Top-k

    [tf.math.top_k(logits, k, sorted=True)]: the [k] largest entries in
    descending order with their indices; of two equal entries the one with
    the lower index comes first. *)

Fixpoint insert_desc (x : R * Z) (l : list (R * Z)) : list (R * Z) :=
  match l with
  | [] => [x]
  | y :: l' =>
      if Rlt_dec (fst x) (fst y) then y :: insert_desc x l' else x :: l
  end.

(** Descending order on the values of (value, index) pairs. *)
Definition ge_fst (a b : R * Z) : Prop := (b.1 <= a.1)%R.

Definition sort_desc (l : list (R * Z)) : list (R * Z) := foldr insert_desc [] l.

Definition top_k (logits : list R) (k : Z) : result (list R * list Z) :=
  if (k <? 0) || (len logits <? k) then
    Raise (InvalidArgumentError "input must have at least k columns")
  else
    let top := take (Z.to_nat k) (sort_desc (zip logits (range (len logits)))) in
    Ok (map fst top, map snd top).

(** [idxs] is a set of [k] highest-logit indices of [logits]: [k]
    distinct valid indices, none of whose logits is below the logit of an
    index left out. *)
Definition top_k_set (logits : list R) (k : Z) (idxs : list Z) : Prop :=
  NoDup idxs
  /\ len idxs = k
  /\ (forall i, i ∈ idxs -> 0 <= i < len logits)
  /\ (forall i j vi vj,
        i ∈ idxs -> j ∉ idxs -> 0 <= j ->
        logits !! Z.to_nat i = Some vi -> logits !! Z.to_nat j = Some vj ->
        (vj <= vi)%R).

(** ** TextGenerator *)

Module TextGenerator.

(** The attributes set by [__init__], and [self.model], which Keras
    attaches to a callback: [model] is [self.model.predict] and returns the
    pair of outputs (logits, hidden states) for a batch of inputs. *)
Record t : Type := mk {
  max_tokens : Z;
  start_tokens : list Z;
  index_to_word : list string;
  print_every : Z;
  k : Z;
  model : list (list Z) -> tensor3 * tensor3
}.

Definition sample_from (self : t) (logits : tensor1) (g : rng) : result (Z * rng) :=
  do '(logits, indices) <- top_k logits (k self);
  let preds := softmax1 logits in
  random_choice indices preds g.

Definition detokenize (self : t) (number : Z) : result string :=
  py_index (index_to_word self) number.

(** The variables of the [while] loop of [on_epoch_end].  [model_inputs]
    is a ghost field: it records, in order, every [(x, sample_index)] the
    loop has passed to the model. *)
Record loop_state : Type := mk_state {
  st_start_tokens : list Z;
  st_tokens_generated : list Z;
  st_num_tokens_generated : Z;
  st_rng : rng;
  model_inputs : list (list Z * Z)
}.

Section Loop.
Variable maxlen : Z.

(** The padding/truncation at the head of the loop body: the input row
    [x] and [sample_index]. *)
Definition prepare_input (start_tokens : list Z) : list Z * Z :=
  let pad_len := maxlen - len start_tokens in
  let sample_index := len start_tokens - 1 in
  if pad_len <? 0 then (py_slice_to start_tokens maxlen, maxlen - 1)
  else if pad_len >? 0 then
    (start_tokens ++ replicate (Z.to_nat pad_len) 0, sample_index)
  else (start_tokens, sample_index).

Definition loop_body (self : t) (st : loop_state) : result loop_state :=
  let '(x, sample_index) := prepare_input (st_start_tokens st) in
  let '(y, _) := model self [x] in
  do y0 <- py_index y 0;
  do logits <- py_index y0 sample_index;
  do '(sample_token, g) <- sample_from self logits (st_rng st);
  let tokens_generated := st_tokens_generated st ++ [sample_token] in
  let start_tokens := st_start_tokens st ++ [sample_token] in
  Ok {| st_start_tokens := start_tokens;
        st_tokens_generated := tokens_generated;
        st_num_tokens_generated := len tokens_generated;
        st_rng := g;
        model_inputs := model_inputs st ++ [(x, sample_index)] |}.

(** [while num_tokens_generated <= self.max_tokens: ...]; [None] when
    [fuel] iterations do not reach the exit. *)
Fixpoint while_loop (fuel : nat) (self : t) (st : loop_state)
  : option (result loop_state) :=
  if st_num_tokens_generated st <=? max_tokens self then
    match fuel with
    | O => None
    | S fuel' =>
        match loop_body self st with
        | Ok st' => while_loop fuel' self st'
        | Raise e => Some (Raise e)
        end
    end
  else Some (Ok st).

(** What one call of the callback does: nothing, or print a text. *)
Inductive outcome : Type :=
| Skipped
| Printed (txt : string).

Definition initial_state (self : t) (g : rng) : loop_state :=
  {| st_start_tokens := start_tokens self;
     st_tokens_generated := [];
     st_num_tokens_generated := 0;
     st_rng := g;
     model_inputs := [] |}.

(** [on_epoch_end(self, epoch)], with the final loop state returned next
    to the outcome (the rng state is part of it). *)
Definition on_epoch_end (fuel : nat) (self : t) (epoch : Z) (g : rng)
  : option (result (outcome * loop_state)) :=
  match py_mod (epoch + 1) (print_every self) with
  | Raise e => Some (Raise e)
  | Ok r =>
      if negb (r =? 0) then Some (Ok (Skipped, initial_state self g))
      else
        match while_loop fuel self (initial_state self g) with
        | None => None
        | Some (Raise e) => Some (Raise e)
        | Some (Ok st) =>
            Some (do words <- rmap (detokenize self)
                                   (start_tokens self ++ st_tokens_generated st);
                  let txt := String.concat " " words in
                  Ok (Printed txt, st))
        end
  end.

(** What the loop relies on from the trained model: for a batch of one row
    of [maxlen] tokens the logits have shape (1, maxlen, vocab_size). *)
Definition model_ok (self : t) (vocab_size : nat) : Prop :=
  forall x, len x = maxlen ->
    has_shape3 (model self [x]).1 1 (Z.to_nat maxlen) vocab_size.

(** The loop invariant: how the loop variables hang together after any
    number of iterations. *)
Definition loop_inv (self : t) (vocab_size : nat) (st : loop_state) : Prop :=
  st_start_tokens st = start_tokens self ++ st_tokens_generated st
  /\ st_num_tokens_generated st = len (st_tokens_generated st)
  /\ length (model_inputs st) = length (st_tokens_generated st)
  /\ Forall (fun tok => 0 <= tok < Z.of_nat vocab_size) (st_tokens_generated st)
  /\ (forall n, 0 <= st_rng st n < 1)%R
  /\ (forall n e, model_inputs st !! n = Some e ->
        e = prepare_input (take (length (start_tokens self) + n) (st_start_tokens st))).

End Loop.
End TextGenerator.

(** ** The notebook's hyperparameters *)

Module Notebook.

Definition vocab_size : Z := 20000.
Definition maxlen : Z := 100.
Definition embed_dim : Z := 256.
Definition num_heads : Z := 2.
Definition feed_forward_dim : Z := 256.

End Notebook.

(** ** A small worked configuration

    A five-word vocabulary, a model with context length 4 that returns the
    same logits at every position, [top_k = 2], a 3-token prompt and
    [max_tokens = 5]; every uniform draw is 0. *)

Module Worked.

Definition vocab : list string := ["pad"; "unk"; "this"; "movie"; "is"]%string.

Definition logits_row : tensor1 := [0; 1; 2; 3; 0]%R.

Definition constant_model (x : list (list Z)) : tensor3 * tensor3 :=
  ([replicate 4 logits_row], []).

Definition generator : TextGenerator.t :=
  TextGenerator.mk 5 [2; 3; 4] vocab 1 2 constant_model.

Definition zero_rng : rng := fun _ => 0%R.

End Worked.

(** ** Text standardization

    A text is a [string]: a sequence of characters with codes below 256.
    [custom_standardization] is applied by the TextVectorization layer to
    every sample before it is split on whitespace. *)

Module Text.

Definition code (c : ascii) : nat := nat_of_ascii c.

Abbreviation chars := list_ascii_of_string.

Definition space : ascii := ascii_of_nat 32.

(** [tf.strings.lower], default encoding: the letters A-Z are mapped to
    a-z, every other character is left alone. *)
Definition is_upper (c : ascii) : bool := (65 <=? code c)%nat && (code c <=? 90)%nat.
Definition lower_char (c : ascii) : ascii :=
  if is_upper c then ascii_of_nat (code c + 32) else c.
Fixpoint lower (s : string) : string :=
  match s with
  | EmptyString => EmptyString
  | String c s' => String (lower_char c) (lower s')
  end.

(** [tf.strings.regex_replace(s, pat, rep)] for a pattern without regex
    operators: every occurrence of [pat], found left to right without
    overlap, is replaced.  [skip] counts the characters of a match still to
    be dropped. *)
Fixpoint replace_from (pat rep : string) (skip : nat) (s : string) : string :=
  match s with
  | EmptyString => EmptyString
  | String c s' =>
      match skip with
      | S skip' => replace_from pat rep skip' s'
      | O =>
          if String.prefix pat s
          then (rep ++ replace_from pat rep (String.length pat - 1) s')%string
          else String c (replace_from pat rep 0 s')
      end
  end.
Definition replace_all (pat rep s : string) : string := replace_from pat rep 0 s.

(** Python's [string.punctuation]. *)
Definition punctuation : string :=
  ("!" ++ String (ascii_of_nat 34) "#$%&'()*+,-./:;<=>?@[\]^_`{|}~")%string.

(** The members of the character class [[...]] with body [body], as the
    regex engine reads it: a backslash makes the next character literal
    (and is not itself a member), [a-b] is a range, anything else stands
    for itself. *)
Fixpoint class_ranges (fuel : nat) (body : list ascii) : list (ascii * ascii) :=
  match fuel with
  | O => []
  | S fuel' =>
      match body with
      | [] => []
      | c :: rest =>
          if (code c =? 92)%nat then
            match rest with
            | [] => []
            | d :: rest' => (d, d) :: class_ranges fuel' rest'
            end
          else
            match rest with
            | m :: d :: rest' =>
                if (code m =? 45)%nat then (c, d) :: class_ranges fuel' rest'
                else (c, c) :: class_ranges fuel' rest
            | _ => (c, c) :: class_ranges fuel' rest
            end
      end
  end.

Definition in_ranges (rs : list (ascii * ascii)) (c : ascii) : bool :=
  existsb (fun r => (code r.1 <=? code c)%nat && (code c <=? code r.2)%nat) rs.

(** Whether [c] matches [f"([{string.punctuation}])"]. *)
Definition is_punctuation (c : ascii) : bool :=
  let body := list_ascii_of_string punctuation in
  in_ranges (class_ranges (length body) body) c.

(** [tf.strings.regex_replace(s, f"([{string.punctuation}])", r" \1")]:
    every matching character is replaced by a space followed by itself. *)
Fixpoint pad_punctuation (s : string) : string :=
  match s with
  | EmptyString => EmptyString
  | String c s' =>
      if is_punctuation c then String space (String c (pad_punctuation s'))
      else String c (pad_punctuation s')
  end.

Definition custom_standardization (input_string : string) : string :=
  let lowercased := lower input_string in
  let stripped_html := replace_all "<br />" " " lowercased in
  pad_punctuation stripped_html.

(** Python's [str.isspace] on one character with code below 256. *)
Definition is_space (c : ascii) : bool :=
  let n := code c in
  ((9 <=? n) && (n <=? 13) || (28 <=? n) && (n <=? 32)
   || (n =? 133) || (n =? 160))%nat.

(** Python's [s.split()]: the maximal runs of non-whitespace characters.
    [cur] is the run read so far. *)
Fixpoint split_from (cur : string) (s : string) : list string :=
  match s with
  | EmptyString => match cur with EmptyString => [] | _ => [cur] end
  | String c s' =>
      if is_space c then
        match cur with
        | EmptyString => split_from EmptyString s'
        | _ => cur :: split_from EmptyString s'
        end
      else split_from (cur ++ String c EmptyString) s'
  end.
Definition split (s : string) : list string := split_from EmptyString s.

(** A word as [split] returns them: not empty, no whitespace in it. *)
Definition clean_word (w : string) : Prop :=
  w <> EmptyString /\ Forall (fun c => is_space c = false) (chars w).

End Text.

(** [start_tokens = [word_to_index.get(_, 1) for _ in start_prompt.split()]]. *)
Definition tokenize_prompt (word_to_index : gmap string Z) (start_prompt : string)
  : list Z :=
  map (tokenize word_to_index) (Text.split start_prompt).

(** ** Recombining the heads

    The three lines of [MultiHeadSelfAttention.call] between [attention]
    and [combine_heads]: transpose back, reshape to
    (batch_size, -1, embed_dim). *)

Definition recombine_heads (self : MultiHeadSelfAttention.t) (attention : tensor4)
           (batch_size : Z) : tensor3 :=
  let attention := transpose_0213 (Z.to_nat (dim2 attention)) attention in
  let b := Z.to_nat batch_size in
  let e := Z.to_nat (MultiHeadSelfAttention.embed_dim self) in
  let flat := flatten4 attention in
  reshape3 flat b (length flat / (b * e)) e.

(** ** The model

    The graph that [create_model] wires, once its layers are constructed:
    the embedding layer, one transformer block and a Dense layer of width
    [vocab_size], with the weights training has given them.  [predict] is
    the forward pass of the Keras model at inference, from a batch of token
    rows to the pair [outputs, x] of logits and hidden states. *)

Module Model.

Record t : Type := mk {
  embedding_layer : TokenAndPositionEmbedding.t;
  transformer_block : TransformerBlock.t;
  transformer_block_w : TransformerBlock.weights;
  outputs_dense : layers.Dense;                     (* layers.Dense(vocab_size) *)
  outputs_dense_w : layers.Dense_weights
}.

Definition predict (m : t) (inputs : list (list Z)) : tensor3 * tensor3 :=
  let x := TokenAndPositionEmbedding.call (embedding_layer m) inputs in
  let x := TransformerBlock.call (transformer_block m) (transformer_block_w m) None x in
  let outputs := layers.Dense_call (outputs_dense m) (outputs_dense_w m) x in
  (outputs, x).

(** The weights have the shapes the layers give them: embedding rows of
    [embed_dim] entries, the block's weights for [embed_dim] and [ff_dim],
    an output kernel of shape (embed_dim, vocab_size). *)
Record weights_ok (m : t) (embed_dim ff_dim vocab_size : nat) : Prop := {
  token_emb_ok : forall tok,
    length (TokenAndPositionEmbedding.token_emb (embedding_layer m) tok) = embed_dim;
  pos_emb_ok : forall p,
    length (TokenAndPositionEmbedding.pos_emb (embedding_layer m) p) = embed_dim;
  transformer_block_ok :
    TransformerBlock.weights_ok (transformer_block_w m) embed_dim ff_dim;
  outputs_dense_ok :
    layers.Dense_weights_ok (outputs_dense_w m) embed_dim vocab_size
}.

End Model.
(** * Properties *)

Example init_notebook :
  MultiHeadSelfAttention.init Notebook.embed_dim Notebook.num_heads
  = Ok (MultiHeadSelfAttention.mk 256 2 128
          (layers.mk_Dense 256 layers.linear) (layers.mk_Dense 256 layers.linear)
          (layers.mk_Dense 256 layers.linear) (layers.mk_Dense 256 layers.linear)).
Proof. reflexivity. Qed.

Example init_10_3 :
  MultiHeadSelfAttention.init 10 3 =
  Raise (ValueError "embedding dimension = 10 should be divisible by number of heads = 3").
Proof. reflexivity. Qed.

Example init_zero_heads :
  MultiHeadSelfAttention.init 10 0 = Raise ZeroDivisionError.
Proof. reflexivity. Qed.

Example init_negative_embed_dim :
  MultiHeadSelfAttention.init (-4) 2 =
  Raise (ValueError
    "Received an invalid value for `units`, expected a positive integer. Received: units=-4").
Proof. reflexivity. Qed.

Example mask_3_3 :
  MultiHeadSelfAttention.causal_attention_mask Z 3 3 = [[1;0;0];[1;1;0];[1;1;1]].
Proof. reflexivity. Qed.

Example py_index_negative : py_index [10; 20; 30] (-1) = Ok 30.
Proof. reflexivity. Qed.

Example py_index_out_of_range : py_index [10; 20; 30] 3 = Raise IndexError.
Proof. reflexivity. Qed.

Example prepare_input_short :
  TextGenerator.prepare_input 4 [7; 8] = ([7; 8; 0; 0], 1).
Proof. reflexivity. Qed.

Example prepare_input_exact :
  TextGenerator.prepare_input 4 [7; 8; 9; 6] = ([7; 8; 9; 6], 3).
Proof. reflexivity. Qed.

Example prepare_input_long :
  TextGenerator.prepare_input 4 [7; 8; 9; 6; 5; 4] = ([7; 8; 9; 6], 3).
Proof. reflexivity. Qed.

Example pad_or_truncate_examples :
  Corpus.pad_or_truncate 4 [5; 6] = [5; 6; 0; 0]
  /\ Corpus.pad_or_truncate 4 [5; 6; 7; 8; 9] = [5; 6; 7; 8].
Proof. split; reflexivity. Qed.

Example mask_2_4 :
  MultiHeadSelfAttention.causal_attention_mask Z 2 4 = [[1;1;1;0];[1;1;1;1]].
Proof. reflexivity. Qed.

(** ** Basic facts about the Python helpers *)

Lemma length_range (n : Z) : length (range n) = Z.to_nat n.
Proof. unfold range. by rewrite length_map, length_seq. Qed.

Lemma lookup_range (n : Z) (i : nat) :
  (i < Z.to_nat n)%nat -> range n !! i = Some (Z.of_nat i).
Proof.
  intros Hi. unfold range. rewrite list_lookup_fmap, lookup_seq_lt by done. done.
Qed.

Lemma py_index_in_range {A : Type} (l : list A) (i : nat) (a : A) :
  l !! i = Some a -> py_index l (Z.of_nat i) = Ok a.
Proof.
  intros Hl. pose proof (lookup_lt_Some _ _ _ Hl) as Hlt. unfold py_index.
  destruct (Z.ltb_spec (Z.of_nat i) 0) as [?|_]; [lia|].
  destruct (Z.leb_spec 0 (Z.of_nat i)) as [_|?]; [|lia].
  destruct (Z.ltb_spec (Z.of_nat i) (Z.of_nat (length l))) as [_|?]; [|lia].
  simpl. by rewrite Nat2Z.id, Hl.
Qed.

(** ** MultiHeadSelfAttention *)

Section MultiHeadSelfAttention_facts.
Import MultiHeadSelfAttention.

Lemma init_zero_heads_raises (embed_dim : Z) :
  init embed_dim 0 = Raise ZeroDivisionError.
Proof. reflexivity. Qed.

Lemma Dense_init_nonneg (units : Z) (a : layers.activation) :
  0 <= units -> layers.Dense_init units a = Ok (layers.mk_Dense units a).
Proof.
  intros Hu. unfold layers.Dense_init.
  destruct (Z.ltb_spec units 0); [lia|done].
Qed.

Lemma Dense_init_negative (units : Z) (a : layers.activation) :
  units < 0 ->
  layers.Dense_init units a = Raise (ValueError (layers.Dense_units_error units)).
Proof.
  intros Hu. unfold layers.Dense_init.
  destruct (Z.ltb_spec units 0); [done|lia].
Qed.

(** A negative embedding dimension that the head count divides passes
    the divisibility test and is rejected by the first Dense layer. *)
Lemma init_negative_raises (embed_dim num_heads : Z) :
  embed_dim < 0 -> num_heads <> 0 -> (num_heads | embed_dim) ->
  init embed_dim num_heads = Raise (ValueError (layers.Dense_units_error embed_dim)).
Proof.
  intros He Hn Hd. unfold init, py_mod, py_floordiv.
  destruct (Z.eqb_spec num_heads 0) as [?|_]; [done|]. simpl.
  apply Z.mod_divide in Hd; [|done]. rewrite Hd. simpl.
  by rewrite Dense_init_negative.
Qed.

(** C4.  For a positive embedding dimension and a positive head
    count, [__init__] raises the [ValueError] whose message names both
    numbers exactly when the embedding dimension is not divisible by the
    head count, and otherwise returns the layer with
    [projection_dim = embed_dim // num_heads], the per-head width whose
    [num_heads] copies make up [embed_dim]. *)
Theorem init_checks_divisibility (embed_dim num_heads : Z) :
  0 < embed_dim -> 0 < num_heads ->
  (~ (num_heads | embed_dim) ->
     init embed_dim num_heads
     = Raise (ValueError (error_message embed_dim num_heads)))
  /\ ((num_heads | embed_dim) ->
      init embed_dim num_heads
      = Ok (mk embed_dim num_heads (embed_dim / num_heads)
               (layers.mk_Dense embed_dim layers.linear)
               (layers.mk_Dense embed_dim layers.linear)
               (layers.mk_Dense embed_dim layers.linear)
               (layers.mk_Dense embed_dim layers.linear))
      /\ num_heads * (embed_dim / num_heads) = embed_dim).
Proof.
  intros He Hn. unfold init, py_mod, py_floordiv.
  destruct (Z.eqb_spec num_heads 0) as [?|Hn0]; [lia|]. simpl.
  split.
  - intros Hnd. destruct (Z.eqb_spec (embed_dim mod num_heads) 0) as [H0|_]; [|done].
    exfalso. apply Hnd. by apply Z.mod_divide.
  - intros Hd. apply Z.mod_divide in Hd; [|done].
    rewrite Hd. simpl. rewrite !Dense_init_nonneg by lia. simpl.
    split; [done|].
    pose proof (Z.div_mod embed_dim num_heads Hn0). lia.
Qed.

Lemma init_checks_divisibility_witness :
  (0 < 256 /\ 0 < 2 /\ 0 < 10 /\ 0 < 3)
  /\ init 256 2 = Ok (mk 256 2 (256 / 2)
                        (layers.mk_Dense 256 layers.linear)
                        (layers.mk_Dense 256 layers.linear)
                        (layers.mk_Dense 256 layers.linear)
                        (layers.mk_Dense 256 layers.linear))
  /\ init 10 3 = Raise (ValueError (error_message 10 3)).
Proof.
  split; [lia|]. split.
  - apply (init_checks_divisibility 256 2); [lia|lia|]. exists 128. reflexivity.
  - apply (init_checks_divisibility 10 3); [lia|lia|].
    intros [q Hq]. lia.
Defined.

(** C4 does not extend beyond the positive numbers.  With 0 heads the
    embedding dimension 5 is not divisible, and the failure is the
    [ZeroDivisionError] of [5 % 0], not the error that describes the
    configuration.  The embedding dimension -4 is divisible by 2
    ([-4 % 2 == 0]), and construction does not succeed: the first Dense
    layer rejects the negative width. *)
Lemma init_checks_divisibility_counterexample :
  (~ (0 | 5)
   /\ init 5 0 = Raise ZeroDivisionError
   /\ init 5 0 <> Raise (ValueError (error_message 5 0)))
  /\ ((2 | -4)
      /\ (exists msg, init (-4) 2 = Raise (ValueError msg))
      /\ ~ (exists a, init (-4) 2 = Ok a)).
Proof.
  split.
  - split; [intros [q Hq]; lia|]. split; [reflexivity|discriminate].
  - split; [exists (-2); reflexivity|]. split; [eexists; reflexivity|].
    intros [a Ha]. discriminate Ha.
Qed.

Lemma causal_attention_mask_shape (T : Type) `{DType T} (n_dest n_src : Z) :
  has_shape2 (causal_attention_mask T n_dest n_src) (Z.to_nat n_dest) (Z.to_nat n_src).
Proof.
  unfold causal_attention_mask. split; [by rewrite length_map, length_range|].
  apply Forall_forall. intros row Hrow.
  apply list_elem_of_In, in_map_iff in Hrow as (i & <- & _).
  by rewrite length_map, length_range.
Qed.

Lemma causal_attention_mask_lookup (T : Type) `{DType T} (n_dest n_src i j : Z) :
  0 <= i < n_dest -> 0 <= j < n_src ->
  exists row,
    causal_attention_mask T n_dest n_src !! Z.to_nat i = Some row
    /\ row !! Z.to_nat j = Some (cast (i >=? j - n_src + n_dest)).
Proof.
  intros Hi Hj. unfold causal_attention_mask. eexists. split.
  - rewrite list_lookup_fmap, lookup_range by lia. reflexivity.
  - rewrite list_lookup_fmap, lookup_range by lia. simpl.
    by rewrite !Z2Nat.id by lia.
Qed.

Lemma cast_one_zero (T : Type) `{DType T} (b : bool) :
  (cast b = one <-> b = true) /\ (cast b = zero <-> b = false).
Proof.
  pose proof one_neq_zero as Hne.
  destruct b; simpl; split; split; try done; intros Heq; exfalso;
    apply Hne; congruence.
Qed.

(** C2.  For non-negative [n_dest] and [n_src] the mask has [n_dest] rows
    of [n_src] entries, entry (i, j) is the dtype's 1 exactly when
    [j - n_src + n_dest <= i] and its 0 otherwise; and the mask is a
    function of its arguments alone. *)
Theorem causal_attention_mask_spec (T : Type) `{DType T} (n_dest n_src : Z) :
  0 <= n_dest -> 0 <= n_src ->
  has_shape2 (causal_attention_mask T n_dest n_src) (Z.to_nat n_dest) (Z.to_nat n_src)
  /\ (forall i j, 0 <= i < n_dest -> 0 <= j < n_src ->
        exists row m,
          causal_attention_mask T n_dest n_src !! Z.to_nat i = Some row
          /\ row !! Z.to_nat j = Some m
          /\ (m = one <-> j - n_src + n_dest <= i)
          /\ (m = zero <-> ~ j - n_src + n_dest <= i))
  /\ (forall n_dest' n_src', n_dest' = n_dest -> n_src' = n_src ->
        causal_attention_mask T n_dest' n_src' = causal_attention_mask T n_dest n_src).
Proof.
  intros Hd Hs. split; [apply causal_attention_mask_shape|]. split.
  - intros i j Hi Hj.
    destruct (causal_attention_mask_lookup T n_dest n_src i j Hi Hj) as (row & Hrow & Hm).
    exists row, (cast (i >=? j - n_src + n_dest)).
    split; [done|]. split; [done|].
    destruct (cast_one_zero T (i >=? j - n_src + n_dest)) as [H1 H0].
    rewrite H1, H0. destruct (Z.geb_spec i (j - n_src + n_dest)); split; split;
      try done; lia.
  - by intros ? ? -> ->.
Qed.

Lemma causal_attention_mask_spec_witness :
  (0 <= 2 /\ 0 <= 4 /\ 0 <= 0 < 2 /\ 0 <= 3 < 4)
  /\ exists row m,
       causal_attention_mask Z 2 4 !! Z.to_nat 0 = Some row
       /\ row !! Z.to_nat 3 = Some m
       /\ (m = one <-> 3 - 4 + 2 <= 0)
       /\ (m = zero <-> ~ 3 - 4 + 2 <= 0).
Proof.
  split; [lia|].
  destruct (causal_attention_mask_spec Z 2 4) as (_ & Hentry & _); [lia|lia|].
  apply (Hentry 0 3); lia.
Defined.

Lemma has_shape2_lookup {A : Type} (t : list (list A)) n d i r :
  has_shape2 t n d -> t !! i = Some r -> length r = d.
Proof.
  intros [_ Hall] Hi. rewrite Forall_lookup in Hall. by apply (Hall i).
Qed.

Lemma has_shape3_lookup {A : Type} (t : list (list (list A))) b n d i m :
  has_shape3 t b n d -> t !! i = Some m -> has_shape2 m n d.
Proof.
  intros [_ Hall] Hi. rewrite Forall_lookup in Hall. by apply (Hall i).
Qed.

Lemma has_shape4_lookup {A : Type} (t : list (list (list (list A)))) b h n d i m :
  has_shape4 t b h n d -> t !! i = Some m -> has_shape3 m h n d.
Proof.
  intros [_ Hall] Hi. rewrite Forall_lookup in Hall. by apply (Hall i).
Qed.

Lemma hd_lookup_0 {A : Type} (t : list (list A)) :
  (0 < length t)%nat -> t !! 0%nat = Some (hd [] t).
Proof. destruct t; simpl; [lia|done]. Qed.

(** Extents of a non-empty 4-tensor, as [tf.shape] reports them. *)
Lemma has_shape4_dims {A : Type} (t : list (list (list (list A)))) b h n d :
  has_shape4 t b h n d -> (0 < b)%nat -> (0 < h)%nat ->
  dim2 t = Z.of_nat n /\ ((0 < n)%nat -> dim3 t = Z.of_nat d).
Proof.
  intros Ht Hb Hh.
  pose proof (hd_lookup_0 t) as H0. destruct Ht as [Hlen Hall].
  specialize (H0 ltac:(lia)).
  pose proof (has_shape4_lookup t b h n d _ _ (conj Hlen Hall) H0) as H3.
  pose proof (hd_lookup_0 (hd [] t)) as H1. destruct H3 as [Hlen3 Hall3].
  specialize (H1 ltac:(lia)).
  pose proof (has_shape3_lookup _ h n d _ _ (conj Hlen3 Hall3) H1) as H2.
  unfold dim3, dim2, dim1, len. destruct H2 as [Hlen2 Hall2].
  split; [by rewrite Hlen2|].
  intros Hn. pose proof (hd_lookup_0 (hd [] (hd [] t))) as H4.
  specialize (H4 ltac:(lia)).
  by rewrite (has_shape2_lookup _ n d _ _ (conj Hlen2 Hall2) H4).
Qed.

Lemma matmul_transpose_b2_shape {T : Type} `{Float T} (a b : list (list T)) n m d d' :
  has_shape2 a n d -> has_shape2 b m d' ->
  has_shape2 (matmul_transpose_b2 a b) n m.
Proof.
  intros [Ha _] [Hb _]. unfold matmul_transpose_b2. split.
  - by rewrite length_map.
  - apply Forall_forall. intros r Hr.
    apply list_elem_of_In, in_map_iff in Hr as (x & <- & _).
    by rewrite length_map.
Qed.

Lemma zip_with_shape3 {A : Type} (f : list (list A) -> list (list A) -> list (list A))
      (a b : list (list (list A))) h n1 d1 n2 d2 n3 d3 :
  (forall x y, has_shape2 x n1 d1 -> has_shape2 y n2 d2 -> has_shape2 (f x y) n3 d3) ->
  has_shape3 a h n1 d1 -> has_shape3 b h n2 d2 ->
  has_shape3 (zip_with f a b) h n3 d3.
Proof.
  intros Hf [Ha Halla] [Hb Hallb]. split.
  - rewrite length_zip_with. lia.
  - apply Forall_lookup. intros i x Hx.
    apply lookup_zip_with_Some in Hx as (u & v & -> & Hu & Hv).
    rewrite Forall_lookup in Halla, Hallb. eauto.
Qed.

Lemma zip_with_shape4 {A : Type} (f : list (list A) -> list (list A) -> list (list A))
      (a b : list (list (list (list A)))) bs h n1 d1 n2 d2 n3 d3 :
  (forall x y, has_shape2 x n1 d1 -> has_shape2 y n2 d2 -> has_shape2 (f x y) n3 d3) ->
  has_shape4 a bs h n1 d1 -> has_shape4 b bs h n2 d2 ->
  has_shape4 (zip_with (zip_with f) a b) bs h n3 d3.
Proof.
  intros Hf [Ha Halla] [Hb Hallb]. split.
  - rewrite length_zip_with. lia.
  - apply Forall_lookup. intros i x Hx.
    apply lookup_zip_with_Some in Hx as (u & v & -> & Hu & Hv).
    rewrite Forall_lookup in Halla, Hallb.
    eapply zip_with_shape3; eauto.
Qed.

Lemma matmul_transpose_b_shape {T : Type} `{Float T}
      (a b : list (list (list (list T)))) bs h n m d d' :
  has_shape4 a bs h n d -> has_shape4 b bs h m d' ->
  has_shape4 (matmul_transpose_b a b) bs h n m.
Proof.
  intros Ha Hb. unfold matmul_transpose_b.
  eapply zip_with_shape4; eauto using matmul_transpose_b2_shape.
Qed.

(** A function on rows that keeps their length keeps the shape. *)
Lemma map_rows_shape {A : Type} (f : list A -> list A)
      (t : list (list (list (list A)))) bs h n m :
  (forall r, length (f r) = length r) ->
  has_shape4 t bs h n m -> has_shape4 (map (map (map f)) t) bs h n m.
Proof.
  intros Hf [H4 Hall4]. split; [by rewrite length_map|].
  apply Forall_fmap. eapply Forall_impl; [exact Hall4|].
  intros t3 [H3 Hall3]. split; [by rewrite length_map|].
  apply Forall_fmap. eapply Forall_impl; [exact Hall3|].
  intros t2 [H2 Hall2]. split; [by rewrite length_map|].
  apply Forall_fmap. eapply Forall_impl; [exact Hall2|].
  intros t1 H1. simpl. by rewrite Hf.
Qed.

Lemma map4_shape {A : Type} (f : A -> A) (t : list (list (list (list A)))) bs h n m :
  has_shape4 t bs h n m -> has_shape4 (map (map (map (map f))) t) bs h n m.
Proof. apply (map_rows_shape (map f)). intros r. by rewrite length_map. Qed.

(** *** The scores before softmax *)

Section scores.
Context {T : Type} `{Float T}.

Lemma scaled_scores_shape (query key : list (list (list (list T))))
      (B Hh n_dest n_src d : nat) :
  has_shape4 query B Hh n_dest d -> has_shape4 key B Hh n_src d ->
  has_shape4 (scaled_scores query key) B Hh n_dest n_src.
Proof.
  intros Hq Hk. unfold scaled_scores.
  apply map4_shape. eapply matmul_transpose_b_shape; eauto.
Qed.

(** Entry [b, h, i, j] of the scaled score is [q_i . k_j / sqrt d]. *)
Lemma scaled_scores_entry (query key : list (list (list (list T))))
      (B Hh n_dest n_src d : nat) (b h i j : nat) (qi kj : list T) :
  has_shape4 query B Hh n_dest d ->
  has_shape4 key B Hh n_src d ->
  row4 query b h i = Some qi ->
  row4 key b h j = Some kj ->
  entry4 (scaled_scores query key) b h i j
  = Some (fdiv (dot qi kj) (fsqrt (of_int (Z.of_nat d)))).
Proof.
  intros Hq Hk Hqi Hkj. unfold row4 in *.
  destruct (query !! b) as [qb|] eqn:Eqb; [|done]. simpl in Hqi.
  destruct (qb !! h) as [qh|] eqn:Eqh; [|done]. simpl in Hqi.
  destruct (key !! b) as [kb|] eqn:Ekb; [|done]. simpl in Hkj.
  destruct (kb !! h) as [kh|] eqn:Ekh; [|done]. simpl in Hkj.
  pose proof (has_shape4_lookup _ _ _ _ _ _ _ Hk Ekb) as Hkb.
  pose proof (has_shape3_lookup _ _ _ _ _ _ Hkb Ekh) as Hkh.
  assert (0 < B)%nat as HB.
  { destruct Hq as [<- _]. apply lookup_lt_Some in Eqb. lia. }
  assert (0 < Hh)%nat as HH.
  { destruct Hkb as [<- _]. apply lookup_lt_Some in Ekh. lia. }
  assert (0 < n_src)%nat as Hj.
  { destruct Hkh as [<- _]. apply lookup_lt_Some in Hkj. lia. }
  destruct (has_shape4_dims _ _ _ _ _ Hk HB HH) as [_ Hdk].
  unfold entry4, row4, scaled_scores, matmul_transpose_b.
  rewrite !list_lookup_fmap, lookup_zip_with, Eqb, Ekb. simpl.
  rewrite !list_lookup_fmap, lookup_zip_with, Eqh, Ekh. simpl.
  unfold matmul_transpose_b2.
  rewrite !list_lookup_fmap, Hqi. simpl.
  rewrite !list_lookup_fmap, Hkj. simpl.
  by rewrite Hdk by lia.
Qed.

(** Entry [b, h, i, j] of the masked score is computed from the same
    entry [s] of the scaled score and the mask bit [a] of (i, j) as
    [s * a - 1e4 * (1 - a)]. *)
Lemma masked_scores_entry (query key : list (list (list (list T))))
      (B Hh n_dest n_src d : nat) (b h i j : nat) (s : T) :
  has_shape4 query B Hh n_dest d ->
  has_shape4 key B Hh n_src d ->
  entry4 (scaled_scores query key) b h i j = Some s ->
  entry4 (masked_scores query key) b h i j
  = Some (let a := cast (Z.of_nat i >=? Z.of_nat j - Z.of_nat n_src + Z.of_nat n_dest) in
          fsub (fmul s a) (fmul (of_int 10000) (fsub one a))).
Proof.
  intros Hq Hk Hs.
  pose proof (scaled_scores_shape query key B Hh n_dest n_src d Hq Hk) as Hsc.
  unfold masked_scores.
  set (scaled := scaled_scores query key) in *.
  unfold entry4, row4 in *.
  destruct (scaled !! b) as [sb|] eqn:Esb; [|done].
  destruct (sb !! h) as [sh|] eqn:Esh; [|done].
  destruct (sh !! i) as [si|] eqn:Esi; [|done].
  pose proof (has_shape4_lookup _ _ _ _ _ _ _ Hsc Esb) as Hsb.
  pose proof (has_shape3_lookup _ _ _ _ _ _ Hsb Esh) as Hsh.
  pose proof (has_shape2_lookup _ _ _ _ _ Hsh Esi) as Hsi.
  assert (0 < B)%nat as HB.
  { destruct Hsc as [<- _]. apply lookup_lt_Some in Esb. lia. }
  assert (0 < Hh)%nat as HH.
  { destruct Hsb as [<- _]. apply lookup_lt_Some in Esh. lia. }
  assert (i < n_dest)%nat as Hi.
  { destruct Hsh as [<- _]. by apply lookup_lt_Some in Esi. }
  assert (j < n_src)%nat as Hj.
  { rewrite <- Hsi. by apply lookup_lt_Some in Hs. }
  destruct (has_shape4_dims _ _ _ _ _ Hsc HB HH) as [-> Hd3].
  rewrite Hd3 by lia.
  destruct (causal_attention_mask_lookup T (Z.of_nat n_dest) (Z.of_nat n_src)
              (Z.of_nat i) (Z.of_nat j)) as (mrow & Hrow & Hm); [lia|lia|].
  rewrite Nat2Z.id in Hrow, Hm.
  rewrite list_lookup_fmap, Esb. simpl.
  rewrite list_lookup_fmap, Esh. simpl.
  rewrite lookup_zip_with, Esi. simpl.
  rewrite Hrow. simpl. by rewrite lookup_zip_with, Hs, Hm.
Qed.

Lemma masked_scores_shape (query key : list (list (list (list T))))
      (b h n_dest n_src d : nat) :
  (0 < h)%nat ->
  has_shape4 query b h n_dest d -> has_shape4 key b h n_src d ->
  has_shape4 (masked_scores query key) b h n_dest n_src.
Proof.
  intros Hh Hq Hk. unfold masked_scores.
  pose proof (scaled_scores_shape query key b h n_dest n_src d Hq Hk) as Hsc.
  set (scaled := scaled_scores query key) in *.
  destruct b as [|b'].
  { destruct Hsc as [Hlen _]. destruct scaled; [|done].
    split; [done|constructor]. }
  destruct (has_shape4_dims _ _ _ _ _ Hsc ltac:(lia) Hh) as [-> Hd3].
  destruct (causal_attention_mask_shape T (Z.of_nat n_dest) (dim3 scaled))
    as [Hmlen Hmall].
  set (mask := causal_attention_mask T (Z.of_nat n_dest) (dim3 scaled)) in *.
  destruct Hsc as [H4 Hall4]. split; [by rewrite length_map|].
  apply Forall_fmap. eapply Forall_impl; [exact Hall4|].
  intros t3 [H3 Hall3]. split; [by rewrite length_map|].
  apply Forall_fmap. eapply Forall_impl; [exact Hall3|].
  intros t2 [H2 Hall2]. simpl. split.
  - rewrite length_zip_with. lia.
  - apply Forall_lookup. intros i r Hr.
    apply lookup_zip_with_Some in Hr as (x & y & -> & Hx & Hy).
    rewrite Forall_lookup in Hall2, Hmall.
    rewrite length_zip_with, (Hall2 _ _ Hx), (Hmall _ _ Hy).
    rewrite Hd3; [lia|]. apply lookup_lt_Some in Hx. lia.
Qed.

End scores.

(** *** The masking arithmetic in float32 *)

Section float32_facts.

(** The number of binary digits of a mantissa, through [Z.log2]. *)
Lemma digits2_pos_log2 (p : positive) :
  Zpos (digits2_pos p) = Z.log2 (Zpos p) + 1.
Proof.
  assert (H : forall q, digits2_pos q = Pos.size q).
  { induction q; simpl; congruence. }
  rewrite H. destruct p; simpl; lia.
Qed.

Lemma Zdigits2_log2 (m : Z) : 0 < m -> Zdigits2 m = Z.log2 m + 1.
Proof. destruct m; try lia. intros _. apply digits2_pos_log2. Qed.

Lemma iter_pos_nat {A : Type} (f : A -> A) (p : positive) (x : A) :
  SpecFloat.iter_pos f p x = Nat.iter (Pos.to_nat p) f x.
Proof.
  revert x. induction p as [p IH|p IH|]; intros x; cbn [SpecFloat.iter_pos].
  - rewrite !IH. change (f x) with (Nat.iter 1 f x).
    rewrite <- !Nat.iter_add. f_equal. lia.
  - rewrite !IH. rewrite <- Nat.iter_add. f_equal. lia.
  - reflexivity.
Qed.

Lemma shr_1_m (mrs : shr_record) :
  0 <= shr_m mrs -> shr_m (shr_1 mrs) = shr_m mrs / 2.
Proof.
  destruct mrs as [m r s]. simpl. intros Hm.
  destruct m as [|p|p]; try lia; [reflexivity|].
  destruct p as [p|p|]; simpl.
  - rewrite Pos2Z.inj_xI. apply Z.div_unique with 1; lia.
  - rewrite Pos2Z.inj_xO. apply Z.div_unique with 0; lia.
  - reflexivity.
Qed.

Lemma iter_shr_1_m (k : nat) (mrs : shr_record) :
  0 <= shr_m mrs ->
  shr_m (Nat.iter k shr_1 mrs) = shr_m mrs / 2 ^ Z.of_nat k.
Proof.
  intros Hm. induction k as [|k IH].
  - simpl. now rewrite Z.div_1_r.
  - assert (0 < 2 ^ Z.of_nat k) as Hpow by (apply Z.pow_pos_nonneg; lia).
    rewrite Nat2Z.inj_succ, Z.pow_succ_r by lia. rewrite Nat.iter_succ.
    rewrite shr_1_m.
    + rewrite IH. rewrite Z.div_div by lia. f_equal. lia.
    + rewrite IH. apply Z.div_pos; lia.
Qed.

(** The mantissa and exponent after [shr]. *)
Lemma shr_spec (mrs : shr_record) (e n : Z) :
  0 <= shr_m mrs -> 0 <= n ->
  shr_m (fst (shr mrs e n)) = shr_m mrs / 2 ^ n /\ snd (shr mrs e n) = e + n.
Proof.
  intros Hm Hn. destruct n as [|p|p]; try lia; simpl.
  - rewrite Z.div_1_r. lia.
  - rewrite iter_pos_nat, iter_shr_1_m by lia.
    now rewrite positive_nat_Z.
Qed.

Lemma shr_record_of_loc_m (m : Z) (l : location) : shr_m (shr_record_of_loc m l) = m.
Proof. destruct l as [|[]]; reflexivity. Qed.

Lemma round_nearest_even_cases (m : Z) (l : location) :
  round_nearest_even m l = m \/ round_nearest_even m l = m + 1.
Proof.
  destruct l as [|[]]; simpl; auto. destruct (Z.even m); auto.
Qed.

Lemma fexp_mono (a b : Z) : a <= b -> fexp Float32.prec Float32.emax a <= fexp Float32.prec Float32.emax b.
Proof. unfold fexp, emin, Float32.prec, Float32.emax. lia. Qed.

Lemma fexp_succ (a : Z) :
  fexp Float32.prec Float32.emax (a + 1) = fexp Float32.prec Float32.emax a \/ fexp Float32.prec Float32.emax (a + 1) = fexp Float32.prec Float32.emax a + 1.
Proof. unfold fexp, emin, Float32.prec, Float32.emax. lia. Qed.

Lemma fexp_ge_emin (a : Z) : -149 <= fexp Float32.prec Float32.emax a.
Proof. unfold fexp, emin, Float32.prec, Float32.emax. lia. Qed.

Lemma fexp_small (a : Z) : a <= fexp Float32.prec Float32.emax a -> fexp Float32.prec Float32.emax a = -149.
Proof. unfold fexp, emin, Float32.prec, Float32.emax. lia. Qed.

(** A mantissa in normal form gives a valid float. *)
Lemma finish_valid (sx : bool) (m e : Z) :
  (0 < m -> fexp Float32.prec Float32.emax (Zdigits2 m + e) = e) ->
  valid_binary Float32.prec Float32.emax
    match m with
    | Z0 => S754_zero sx
    | Zpos p =>
        if e <=? Float32.emax - Float32.prec then S754_finite sx p e
        else S754_infinity sx
    | Zneg _ => S754_nan
    end = true.
Proof.
  intros Hc. destruct m as [|p|p]; try reflexivity.
  change (Float32.emax - Float32.prec) with 104.
  destruct (Z.leb_spec e 104) as [He|He]; [|reflexivity].
  unfold valid_binary, bounded, canonical_mantissa. specialize (Hc ltac:(lia)).
  cbn [Zdigits2] in Hc.
  rewrite Hc, Z.eqb_refl. apply andb_true_intro. split; [reflexivity|].
  apply Z.leb_le. exact He.
Qed.

Lemma log2_half_pow2 (m : Z) :
  0 < m -> Z.log2 (m + 1) = Z.log2 m + 1 -> Z.log2 ((m + 1) / 2) = Z.log2 m.
Proof.
  intros Hm Hl.
  destruct (Z.log2_eq_succ_is_pow2 m) as [b Hb]; [unfold Z.succ; lia|].
  unfold Z.succ in Hb.
  assert (0 <= b).
  { destruct (Z.le_gt_cases 0 b); [lia|]. rewrite Z.pow_neg_r in Hb; lia. }
  rewrite Hb. rewrite Hb in Hl. rewrite Z.log2_pow2 in Hl by lia.
  assert (0 < b) by (pose proof (Z.log2_nonneg m); lia).
  replace b with (Z.succ (b - 1)) by lia. rewrite Z.pow_succ_r by lia.
  rewrite Z.mul_comm, Z.div_mul by lia. rewrite Z.log2_pow2; lia.
Qed.

(** Rounding gives a value in normal form, when the mantissa it is given
    has at least the digits its exponent asks for. *)
Lemma binary_round_aux_valid (sx : bool) (mx ex : Z) (lx : location) :
  0 <= mx -> ex <= fexp Float32.prec Float32.emax (Zdigits2 mx + ex) ->
  valid_binary Float32.prec Float32.emax (binary_round_aux Float32.prec Float32.emax sx mx ex lx) = true.
Proof.
  intros Hmx Hpre. unfold binary_round_aux.
  set (E0 := fexp Float32.prec Float32.emax (Zdigits2 mx + ex)) in *.
  unfold shr_fexp at 1. fold E0.
  destruct (shr_spec (shr_record_of_loc mx lx) ex (E0 - ex)) as [Hm1 He1].
  { rewrite shr_record_of_loc_m. lia. } { lia. }
  destruct (shr (shr_record_of_loc mx lx) ex (E0 - ex)) as [mrs' e'].
  simpl in Hm1, He1. rewrite shr_record_of_loc_m in Hm1.
  replace (ex + (E0 - ex)) with E0 in He1 by lia. subst e'.
  set (m' := shr_m mrs') in *.
  set (m1 := round_nearest_even m' (loc_of_shr_record mrs')).
  assert (0 <= m') as Hm'pos.
  { rewrite Hm1. apply Z.div_pos; [lia|]. apply Z.pow_pos_nonneg; lia. }
  assert (m1 = m' \/ m1 = m' + 1) as Hround by apply round_nearest_even_cases.
  assert (0 <= m1) as Hm1pos by lia.
  (* the mantissa after the first shift is in normal form *)
  assert (0 < m' -> Zdigits2 m' + E0 = Zdigits2 mx + ex) as Hdig.
  { intros Hpos.
    assert (0 < mx) as Hmxpos.
    { destruct (Z.eq_dec mx 0) as [->|]; [|lia]. rewrite Z.div_0_l in Hm1; [lia|].
      apply Z.pow_nonzero; lia. }
    rewrite !Zdigits2_log2 by lia.
    rewrite Hm1, <- Z.shiftr_div_pow2 by lia.
    rewrite Z.log2_shiftr by lia.
    assert (E0 - ex <= Z.log2 mx); [|lia].
    destruct (Z.le_gt_cases (E0 - ex) (Z.log2 mx)) as [|Hgt]; [lia|].
    exfalso. rewrite Hm1 in Hpos.
    rewrite Z.div_small in Hpos; [lia|]. split; [lia|].
    apply Z.log2_lt_pow2; lia. }
  assert (m' = 0 -> E0 = -149) as Hzero.
  { intros H0. destruct (Z.eq_dec mx 0) as [->|Hne].
    - simpl in E0. apply fexp_small. unfold E0 in *. simpl in Hpre. lia.
    - assert (0 < mx) by lia. apply fexp_small. fold E0.
      rewrite Zdigits2_log2 by lia.
      destruct (Z.le_gt_cases (Z.log2 mx + 1 + ex) E0) as [|Hgt]; [lia|].
      exfalso. rewrite Hm1 in H0.
      assert (2 ^ (E0 - ex) <= mx).
      { apply Z.log2_le_pow2; lia. }
      assert (1 <= mx / 2 ^ (E0 - ex)); [|lia].
      apply Z.div_le_lower_bound; [apply Z.pow_pos_nonneg; lia|lia]. }
  unfold shr_fexp. fold m1.
  set (n2 := fexp Float32.prec Float32.emax (Zdigits2 m1 + E0) - E0).
  assert (shr_record_of_loc m1 loc_Exact = {| shr_m := m1; shr_r := false; shr_s := false |})
    as -> by reflexivity.
  (* the second shift is by 0 or by 1 *)
  destruct (Z.eq_dec m1 0) as [Hm10|Hm1ne].
  { (* rounded to zero *)
    assert (m' = 0) by lia.
    unfold n2. rewrite Hm10, (Hzero H). reflexivity. }
  assert (0 < m1) as Hm1pos' by lia.
  assert (n2 = 0 \/ (n2 = 1 /\ m1 = m' + 1 /\ 0 < m' /\ Z.log2 m1 = Z.log2 m' + 1)) as Hn2.
  { unfold n2. destruct (Z.eq_dec m' 0) as [Hm'0|Hm'ne].
    - left. assert (m1 = 1) as -> by lia. rewrite (Hzero Hm'0). reflexivity.
    - assert (0 < m') as Hp by lia. specialize (Hdig Hp).
      destruct Hround as [->| ->].
      + left. rewrite Hdig. fold E0. lia.
      + rewrite !Zdigits2_log2 in * by lia.
        destruct (Z.log2_succ_or m') as [Hs|Hs]; unfold Z.succ in Hs.
        * destruct (fexp_succ (Z.log2 m' + 1 + E0)) as [Hf|Hf].
          -- left. rewrite Hs.
             replace (Z.log2 m' + 1 + 1 + E0) with (Z.log2 m' + 1 + E0 + 1) by lia.
             rewrite Hf, Hdig. fold E0. lia.
          -- right. split; [|repeat split; lia]. rewrite Hs.
             replace (Z.log2 m' + 1 + 1 + E0) with (Z.log2 m' + 1 + E0 + 1) by lia.
             rewrite Hf, Hdig. fold E0. lia.
        * left. rewrite Hs, Hdig. fold E0. lia. }
  destruct Hn2 as [Hn2|(Hn2 & Hm1eq & Hm'p & Hlog)].
  - rewrite Hn2. simpl shr. cbn [shr_m].
    apply (finish_valid sx m1 E0). intros _. unfold n2 in Hn2. lia.
  - rewrite Hn2. simpl shr. unfold SpecFloat.iter_pos.
    assert (shr_m (shr_1 {| shr_m := m1; shr_r := false; shr_s := false |}) = m1 / 2) as Hhalf.
    { apply shr_1_m. simpl. lia. }
    set (mrs'' := shr_1 _) in *.
    apply (finish_valid sx (shr_m mrs'') (E0 + 1)). rewrite Hhalf. intros Hpos.
    rewrite Zdigits2_log2 by lia.
    assert (Z.log2 (m1 / 2) = Z.log2 m') as ->.
    { rewrite Hm1eq. apply log2_half_pow2; [lia|]. rewrite <- Hm1eq. exact Hlog. }
    unfold n2 in Hn2. rewrite Zdigits2_log2 in Hn2 by lia.
    rewrite Hlog in Hn2.
    specialize (Hdig Hm'p). rewrite Zdigits2_log2 in Hdig by lia.
    replace (Z.log2 m' + 1 + (E0 + 1)) with (Z.log2 m' + 1 + 1 + E0) by lia. lia.
Qed.

(** The quotient of two mantissas is computed with the digits its
    exponent asks for. *)
Lemma SFdiv_core_binary_pre (m1 m2 : positive) (e1 e2 : Z) :
  let '(q, e', l) := SFdiv_core_binary Float32.prec Float32.emax (Zpos m1) e1 (Zpos m2) e2 in
  0 <= q /\ e' <= fexp Float32.prec Float32.emax (Zdigits2 q + e').
Proof.
  unfold SFdiv_core_binary.
  rewrite !Zdigits2_log2 by lia.
  set (l1 := Z.log2 (Zpos m1)). set (l2 := Z.log2 (Zpos m2)).
  set (D := l1 + 1 + e1 - (l2 + 1 + e2)).
  set (e' := Z.min (fexp Float32.prec Float32.emax D) (e1 - e2)).
  set (s := e1 - e2 - e').
  assert (0 <= s) as Hs by (unfold s, e'; lia).
  set (m' := match s with Z.pos _ => Z.shiftl (Z.pos m1) s | 0 => Z.pos m1 | Z.neg _ => 0 end).
  assert (m' = Zpos m1 * 2 ^ s) as Hm'.
  { unfold m'. destruct s as [|p|p]; try lia.
    apply Z.shiftl_mul_pow2. lia. }
  pose proof (Z.div_eucl_eq m' (Zpos m2) ltac:(lia)) as Heq.
  pose proof (Z.mod_pos_bound m' (Zpos m2) ltac:(lia)) as Hmod.
  unfold Z.modulo in Hmod.
  destruct (Z.div_eucl m' (Z.pos m2)) as [q r].
  assert (0 < 2 ^ s) as Hpow by (apply Z.pow_pos_nonneg; lia).
  assert (0 <= l1) as Hl1 by apply Z.log2_nonneg.
  assert (0 <= l2) as Hl2 by apply Z.log2_nonneg.
  destruct (Z.log2_spec (Zpos m1) ltac:(lia)) as [Hlo1 Hhi1].
  destruct (Z.log2_spec (Zpos m2) ltac:(lia)) as [Hlo2 Hhi2].
  fold l1 in Hlo1, Hhi1. fold l2 in Hlo2, Hhi2.
  assert (0 <= q) as Hq by nia.
  split; [exact Hq|].
  assert (e' <= fexp Float32.prec Float32.emax D) as HeD by (unfold e'; lia).
  destruct (Z.eq_dec q 0) as [->|Hqne].
  - (* the quotient is 0: the exponent is at most emin *)
    simpl Zdigits2.
    assert (Zpos m1 * 2 ^ s < Zpos m2) as Hlt by lia.
    assert (2 ^ (l1 + s) < 2 ^ (l2 + 1)) as Hpw.
    { rewrite Z.pow_add_r by lia. unfold Z.succ in Hhi2. nia. }
    apply Z.pow_lt_mono_r_iff in Hpw; [|lia|lia].
    assert (D <= e') as HD by (unfold D, s in *; lia).
    unfold fexp, emin, Float32.prec, Float32.emax in *. lia.
  - assert (0 < q) as Hqpos by lia.
    rewrite Zdigits2_log2 by lia.
    eapply Z.le_trans; [exact HeD|]. apply fexp_mono.
    assert (l1 + s - l2 - 1 <= Z.log2 q); [|unfold D, s in *; lia].
    destruct (Z.le_gt_cases 0 (l1 + s - l2 - 1)) as [Hk|Hk];
      [|pose proof (Z.log2_nonneg q); lia].
    apply Z.log2_le_pow2; [lia|].
    (* 2^k <= q, from 2^k * m2 < 2^(l1 + s) <= m' *)
    assert (2 ^ (l1 + s - l2 - 1) * 2 ^ (l2 + 1) = 2 ^ (l1 + s)) as Hsplit.
    { rewrite <- Z.pow_add_r by lia. f_equal. lia. }
    assert (2 ^ (l1 + s) <= Zpos m1 * 2 ^ s) as Hm1s.
    { rewrite Z.pow_add_r by lia. nia. }
    assert (0 < 2 ^ (l1 + s - l2 - 1)) as Hk2 by (apply Z.pow_pos_nonneg; lia).
    unfold Z.succ in Hhi2.
    destruct (Z.le_gt_cases (2 ^ (l1 + s - l2 - 1)) q) as [|Hgt]; [lia|].
    exfalso.
    assert (q + 1 <= 2 ^ (l1 + s - l2 - 1)) as Hq1 by lia.
    assert (Zpos m2 * (q + 1) <= Zpos m2 * 2 ^ (l1 + s - l2 - 1)) by nia.
    assert (Zpos m2 * 2 ^ (l1 + s - l2 - 1) < 2 ^ (l2 + 1) * 2 ^ (l1 + s - l2 - 1)) by nia.
    nia.
Qed.

(** Every quotient is a float32 value. *)
Lemma float32_div_valid (x y : float32) : Float32.valid (Float32.div x y) = true.
Proof.
  unfold Float32.valid, Float32.div.
  destruct x as [sx|sx| |sx mx ex], y as [sy|sy| |sy my ey]; try reflexivity.
  unfold SFdiv.
  pose proof (SFdiv_core_binary_pre mx my ex ey) as Hpre.
  destruct (SFdiv_core_binary Float32.prec Float32.emax (Z.pos mx) ex (Z.pos my) ey) as [[q e'] l].
  destruct Hpre as [Hq He]. now apply binary_round_aux_valid.
Qed.

(** Multiplying a float32 value by 1 gives it back. *)
Lemma float32_mul_one (x : float32) :
  Float32.valid x = true -> Float32.mul x one = x.
Proof.
  destruct x as [s|s| |s m e]; try (destruct s; reflexivity); try reflexivity.
  unfold Float32.valid, valid_binary, bounded, canonical_mantissa. intros Hb.
  apply andb_prop in Hb as [Hc He]. apply Z.eqb_eq in Hc.
  change (@one float32 _) with (S754_finite false 8388608 (-23)).
  unfold Float32.mul, SFmul. rewrite Bool.xorb_false_r.
  unfold binary_round_aux.
  assert (Hm : (m * 8388608)%positive = Pos.iter xO m 23).
  { rewrite Pos.mul_comm. reflexivity. }
  rewrite Hm.
  unfold shr_fexp at 1.
  assert (Hd : Zdigits2 (Zpos (Pos.iter xO m 23)) = Zpos (digits2_pos m) + 23).
  { cbn. lia. }
  rewrite Hd.
  replace (Z.pos (digits2_pos m) + 23 + (e + -23)) with (Z.pos (digits2_pos m) + e) by lia.
  rewrite Hc.
  replace (e - (e + -23)) with 23 by lia.
  cbn [shr shr_record_of_loc].
  change (SpecFloat.iter_pos shr_1 23
            {| shr_m := Z.pos (Pos.iter xO m 23); shr_r := false; shr_s := false |})
    with {| shr_m := Z.pos m; shr_r := false; shr_s := false |}.
  cbn [shr_m loc_of_shr_record round_nearest_even].
  unfold shr_fexp. cbn [Zdigits2].
  replace (e + -23 + 23) with e by lia.
  rewrite Hc, Z.sub_diag. cbn [shr shr_record_of_loc shr_m].
  rewrite He. reflexivity.
Qed.

(** Where the mask is 1: [s * 1 - 1e4 * (1 - 1)] is [s]. *)
Lemma float32_unmasked (s : float32) :
  Float32.valid s = true ->
  fsub (fmul s one) (fmul (of_int 10000) (fsub one one)) = s.
Proof.
  intros Hs. cbn [fsub fmul of_int Float_float32].
  rewrite (float32_mul_one s Hs).
  change (Float32.mul (Float32.of_int 10000) (Float32.sub one one))
    with (S754_zero false).
  by destruct s as [[]|[]| |].
Qed.

(** Where the mask is 0: [s * 0 - 1e4 * (1 - 0)] is [-1e4] for a finite
    [s], and NaN for an infinite one, since [inf * 0] is NaN. *)
Lemma float32_masked_finite (s : float32) :
  Float32.is_finite s = true ->
  fsub (fmul s zero) (fmul (of_int 10000) (fsub one zero))
  = Float32.opp (of_int 10000).
Proof. by destruct s as [[]|[]| |[]]. Qed.

Lemma float32_masked_not_finite (s : float32) :
  Float32.is_finite s = false ->
  fsub (fmul s zero) (fmul (of_int 10000) (fsub one zero)) = Float32.nan.
Proof. by destruct s as [[]|[]| |[]]. Qed.

End float32_facts.

(** C3.  In float32, on query and key of shapes
    (B, H, n_dest, d) and (B, H, n_src, d), with [s = q_i . k_j / sqrt d]
    the scaled score at [b, h, i, j]: where the causal mask is 1
    ([j - n_src + n_dest <= i]) the score fed to softmax is [s] unchanged;
    where the mask is 0 it is the constant [-1e4] when [s] is finite (the
    score is replaced by the penalty, not left at zero), and NaN when [s]
    is an infinity or NaN, as it is once the inner product overflows. *)
Theorem masked_scores_spec (query key : list (list (list (list float32))))
        (B H n_dest n_src d : nat) (b h i j : nat) (qi kj : list float32) :
  has_shape4 query B H n_dest d ->
  has_shape4 key B H n_src d ->
  row4 query b h i = Some qi ->
  row4 key b h j = Some kj ->
  let s := fdiv (dot qi kj) (fsqrt (of_int (Z.of_nat d))) in
  entry4 (scaled_scores query key) b h i j = Some s
  /\ exists r,
       entry4 (masked_scores query key) b h i j = Some r
       /\ (Z.of_nat j - Z.of_nat n_src + Z.of_nat n_dest <= Z.of_nat i -> r = s)
       /\ (~ Z.of_nat j - Z.of_nat n_src + Z.of_nat n_dest <= Z.of_nat i ->
           Float32.is_finite s = true -> r = Float32.opp (of_int 10000))
       /\ (~ Z.of_nat j - Z.of_nat n_src + Z.of_nat n_dest <= Z.of_nat i ->
           Float32.is_finite s = false -> r = Float32.nan).
Proof.
  intros Hq Hk Hqi Hkj s.
  pose proof (scaled_scores_entry query key B H n_dest n_src d b h i j qi kj
                Hq Hk Hqi Hkj) as Hs.
  fold s in Hs. split; [exact Hs|].
  rewrite (masked_scores_entry query key B H n_dest n_src d b h i j s Hq Hk Hs).
  eexists. split; [reflexivity|]. cbv zeta.
  destruct (Z.geb_spec (Z.of_nat i) (Z.of_nat j - Z.of_nat n_src + Z.of_nat n_dest));
    simpl cast; (split; [|split]); intros Hm; try lia.
  - apply float32_unmasked. apply float32_div_valid.
  - by apply float32_masked_finite.
  - by apply float32_masked_not_finite.
Qed.

Lemma masked_scores_spec_witness :
  let f : Z -> float32 := of_int in
  let query : list (list (list (list float32))) := [[[[f 1; f 2]; [f 3; f 4]]]] in
  let key : list (list (list (list float32))) := [[[[f 1; f 0]; [f 0; f 1]]]] in
  (has_shape4 query 1 1 2 2 /\ has_shape4 key 1 1 2 2
   /\ row4 query 0 0 0 = Some [f 1; f 2] /\ row4 key 0 0 1 = Some [f 0; f 1]
   /\ row4 query 0 0 1 = Some [f 3; f 4] /\ row4 key 0 0 0 = Some [f 1; f 0])
  /\ entry4 (masked_scores query key) 0 0 0 1 = Some (Float32.opp (f 10000))
  /\ entry4 (masked_scores query key) 0 0 1 0
     = Some (fdiv (dot [f 3; f 4] [f 1; f 0]) (fsqrt (f 2))).
Proof.
  intros f query key.
  assert (has_shape4 query 1 1 2 2) as Hq by (repeat (split || constructor)).
  assert (has_shape4 key 1 1 2 2) as Hk by (repeat (split || constructor)).
  split; [split; [exact Hq|]; split; [exact Hk|]; repeat split; reflexivity|].
  split.
  - destruct (masked_scores_spec query key 1 1 2 2 2 0 0 0 1 [f 1; f 2] [f 0; f 1]
                Hq Hk eq_refl eq_refl) as (_ & r & -> & _ & Hmasked & _).
    f_equal. apply Hmasked; [simpl; lia|reflexivity].
  - destruct (masked_scores_spec query key 1 1 2 2 2 0 0 1 0 [f 3; f 4] [f 1; f 0]
                Hq Hk eq_refl eq_refl) as (_ & r & -> & Hunmasked & _).
    f_equal. apply Hunmasked. simpl. lia.
Defined.

(** C3 does not extend to scores that overflow.  The query and key rows
    [1e20, 0] are finite float32 values; their inner product is [inf],
    and the score fed to softmax at the masked position (0, 1) is
    [inf * 0 - 1e4 * 1 = NaN], not [-1e4]. *)
Lemma masked_scores_spec_counterexample :
  let x : float32 := of_int (10 ^ 20) in
  let query : list (list (list (list float32))) := [[[[x; zero]; [x; zero]]]] in
  (Float32.valid x = true /\ Float32.is_finite x = true
   /\ has_shape4 query 1 1 2 2)
  /\ masked_scores query query
     = [[[[Float32.inf; Float32.nan]; [Float32.inf; Float32.inf]]]]
  /\ ~ (1 - 2 + 2 <= 0)
  /\ entry4 (masked_scores query query) 0 0 0 1 = Some Float32.nan
  /\ Float32.nan <> Float32.opp (of_int 10000).
Proof.
  intros x query. split; [|split; [|split; [|split]]].
  - split; [reflexivity|]. split; [reflexivity|]. repeat (split || constructor).
  - vm_compute. reflexivity.
  - lia.
  - vm_compute. reflexivity.
  - discriminate.
Qed.

Example separate_heads_example :
  separate_heads (mk 4 2 2 (layers.mk_Dense 4 layers.linear) (layers.mk_Dense 4 layers.linear)
       (layers.mk_Dense 4 layers.linear) (layers.mk_Dense 4 layers.linear))
                 [[[1; 2; 3; 4]; [5; 6; 7; 8]]]%R 1
  = [[[[1; 2]; [5; 6]]; [[3; 4]; [7; 8]]]]%R.
Proof. reflexivity. Qed.

(** Recombining the separated heads gives the tensor back. *)
Example recombine_heads_example :
  let self := mk 4 2 2 (layers.mk_Dense 4 layers.linear) (layers.mk_Dense 4 layers.linear)
       (layers.mk_Dense 4 layers.linear) (layers.mk_Dense 4 layers.linear) in
  let x : tensor3 := [[[1; 2; 3; 4]; [5; 6; 7; 8]]; [[9; 10; 11; 12]; [13; 14; 15; 16]]]%R in
  separate_heads self x 2
  = [[[[1; 2]; [5; 6]]; [[3; 4]; [7; 8]]];
     [[[9; 10]; [13; 14]]; [[11; 12]; [15; 16]]]]%R
  /\ reshape3 (flatten4 (transpose_0213 2 (separate_heads self x 2))) 2 2 4 = x.
Proof. split; reflexivity. Qed.

(** *** Shapes through reshape, transpose and attention *)

Lemma concat_shape2 {A : Type} (t : list (list A)) n d :
  has_shape2 t n d -> length (concat t) = (n * d)%nat.
Proof.
  intros [<- Hall]. induction Hall as [|r t Hr _ IH]; simpl; [done|].
  rewrite length_app, IH, Hr. done.
Qed.

Lemma concat_shape3 {A : Type} (t : list (list (list A))) b n d :
  has_shape3 t b n d -> has_shape2 (concat t) (b * n) d.
Proof.
  intros [<- Hall]. induction Hall as [|m t [Hm Hmall] _ [IHlen IHall]]; simpl.
  - split; [done|constructor].
  - split; [rewrite length_app, IHlen, Hm; done|].
    apply Forall_app. by split.
Qed.

Lemma flatten3_length (t : tensor3) b n d :
  has_shape3 t b n d -> length (flatten3 t) = (b * n * d)%nat.
Proof. intros Ht. unfold flatten3. by eapply concat_shape2, concat_shape3. Qed.

Lemma concat_shape4 {A : Type} (t : list (list (list (list A)))) b h n d :
  has_shape4 t b h n d -> has_shape3 (concat t) (b * h) n d.
Proof.
  intros [<- Hall]. induction Hall as [|m t [Hm Hmall] _ [IHlen IHall]]; simpl.
  - split; [done|constructor].
  - split; [rewrite length_app, IHlen, Hm; done|].
    apply Forall_app. by split.
Qed.

Lemma flatten4_length (t : tensor4) b h n d :
  has_shape4 t b h n d -> length (flatten4 t) = (b * h * n * d)%nat.
Proof.
  intros Ht. unfold flatten4.
  by eapply (flatten3_length (concat t)), concat_shape4.
Qed.

Lemma map_seq_shape {A : Type} (f : nat -> A) (P : A -> Prop) (n : nat) :
  (forall i, (i < n)%nat -> P (f i)) ->
  length (map f (seq 0 n)) = n /\ Forall P (map f (seq 0 n)).
Proof.
  intros Hf. split; [by rewrite length_map, length_seq|].
  apply Forall_fmap, Forall_forall. intros i Hi.
  apply elem_of_seq in Hi. apply Hf. lia.
Qed.

Lemma reshape4_shape (flat : list R) (b m h p : nat) :
  (b * m * h * p <= length flat)%nat ->
  has_shape4 (reshape4 flat b m h p) b m h p.
Proof.
  intros Hlen. unfold reshape4, has_shape4, has_shape3, has_shape2.
  apply map_seq_shape. intros ib Hib.
  apply map_seq_shape. intros im Him.
  apply map_seq_shape. intros ih Hih.
  rewrite length_take, length_drop.
  assert (ib * m + im + 1 <= b * m)%nat as H1.
  { pose proof (Nat.mul_le_mono_r (ib + 1) b m ltac:(lia)). lia. }
  assert ((ib * m + im) * h + ih + 1 <= b * m * h)%nat as H2.
  { pose proof (Nat.mul_le_mono_r _ _ h H1). lia. }
  pose proof (Nat.mul_le_mono_r _ _ p H2). lia.
Qed.

Lemma reshape3_shape (flat : list R) (b n e : nat) :
  (b * n * e <= length flat)%nat ->
  has_shape3 (reshape3 flat b n e) b n e.
Proof.
  intros Hlen. unfold reshape3, has_shape3, has_shape2.
  apply map_seq_shape. intros ib Hib.
  apply map_seq_shape. intros i Hi.
  rewrite length_take, length_drop.
  assert (ib * n + i + 1 <= b * n)%nat as H1.
  { pose proof (Nat.mul_le_mono_r (ib + 1) b n ltac:(lia)). lia. }
  pose proof (Nat.mul_le_mono_r _ _ e H1). lia.
Qed.

Lemma transpose_0213_shape (t : tensor4) (b m h p : nat) :
  has_shape4 t b m h p -> has_shape4 (transpose_0213 h t) b h m p.
Proof.
  intros [Hb Hall]. unfold transpose_0213. split; [by rewrite length_map|].
  apply Forall_fmap. eapply Forall_impl; [exact Hall|].
  intros tb [Hm Hmall]. simpl.
  apply map_seq_shape. intros i Hi. split; [by rewrite length_map|].
  apply Forall_fmap. eapply Forall_impl; [exact Hmall|].
  intros item [Hh Hitem]. simpl.
  rewrite Forall_forall in Hitem. apply Hitem.
  apply list_elem_of_In, nth_In. lia.
Qed.

Lemma matmul2_shape {T : Type} `{Float T} (a v : list (list T)) (n m p : nat) :
  has_shape2 a n m -> has_shape2 v n p -> has_shape2 (matmul2 a v) n p.
Proof.
  intros [Ha _] Hv. unfold matmul2, matmul_transpose_b2, columns.
  split; [by rewrite length_map|].
  apply Forall_fmap, Forall_forall. intros r Hr. simpl.
  rewrite !length_map, length_seq.
  destruct v as [|v0 v'].
  - destruct Hv as [Hv _]. simpl in Hv. apply list_elem_of_lookup in Hr as [i Hi].
    apply lookup_lt_Some in Hi. lia.
  - simpl. by apply (has_shape2_lookup (v0 :: v') n p 0%nat v0 Hv).
Qed.

Lemma attention_shape (query key value : tensor4) (b h n p : nat) :
  (0 < h)%nat ->
  has_shape4 query b h n p -> has_shape4 key b h n p -> has_shape4 value b h n p ->
  has_shape4 (attention query key value).1 b h n p.
Proof.
  intros Hh Hq Hk Hv. unfold attention, matmul, softmax4. simpl.
  eapply (zip_with_shape4 matmul2 _ _ b h n n n p n p);
    [intros x y; apply matmul2_shape| |exact Hv].
  apply map_rows_shape; [|by eapply masked_scores_shape].
  intros r. unfold softmax1. by rewrite length_map.
Qed.

Lemma init_ok_inv (e h : Z) (a : t) :
  init e h = Ok a ->
  h <> 0 /\ e mod h = 0 /\ 0 <= e
  /\ a = mk e h (e / h)
           (layers.mk_Dense e layers.linear) (layers.mk_Dense e layers.linear)
           (layers.mk_Dense e layers.linear) (layers.mk_Dense e layers.linear).
Proof.
  unfold init, py_mod, py_floordiv.
  destruct (Z.eqb_spec h 0) as [?|Hh]; [done|]. simpl.
  destruct (Z.eqb_spec (e mod h) 0) as [Hmod|?]; [|done]. simpl.
  unfold layers.Dense_init.
  destruct (Z.ltb_spec e 0) as [?|He]; [done|]. simpl.
  intros Heq. inversion Heq. done.
Qed.

Section call_shape.
Variable self : t.
Variable w : sublayers.
Variables E H P : nat.
Hypothesis embed_dim_E : embed_dim self = Z.of_nat E.
Hypothesis num_heads_H : num_heads self = Z.of_nat H.
Hypothesis projection_dim_P : projection_dim self = Z.of_nat P.
Hypothesis heads_split : E = (H * P)%nat.
Hypothesis H_pos : (0 < H)%nat.
Hypothesis P_pos : (0 < P)%nat.

Lemma separate_heads_shape (x : tensor3) (b n : nat) :
  has_shape3 x b n E ->
  has_shape4 (separate_heads self x (Z.of_nat b)) b H n P.
Proof.
  intros Hx. unfold separate_heads.
  rewrite num_heads_H, projection_dim_P, !Nat2Z.id.
  apply transpose_0213_shape.
  rewrite (flatten3_length x b n E Hx).
  destruct b as [|b'].
  { unfold reshape4. simpl. split; [done|constructor]. }
  replace (S b' * n * E / (S b' * H * P))%nat with n.
  - apply reshape4_shape. rewrite (flatten3_length x (S b') n E Hx). subst E. lia.
  - subst E. replace (S b' * n * (H * P))%nat with (n * (S b' * H * P))%nat by lia.
    rewrite Nat.div_mul; [done|]. lia.
Qed.

(** The attention layer returns a tensor of the shape of its input, given
    Dense sublayers of width [embed_dim]. *)
Lemma call_keeps_shape :
  keeps_shape (query_dense_call w) E -> keeps_shape (key_dense_call w) E ->
  keeps_shape (value_dense_call w) E -> keeps_shape (combine_heads_call w) E ->
  keeps_shape (call self w) E.
Proof.
  intros Hq Hk Hv Hc x b n Hx. unfold call.
  assert (len x = Z.of_nat b) as -> by (destruct Hx as [<- _]; done).
  pose proof (separate_heads_shape _ b n (Hq _ _ _ Hx)) as Hq'.
  pose proof (separate_heads_shape _ b n (Hk _ _ _ Hx)) as Hk'.
  pose proof (separate_heads_shape _ b n (Hv _ _ _ Hx)) as Hv'.
  pose proof (attention_shape _ _ _ b H n P H_pos Hq' Hk' Hv') as Hatt.
  destruct (attention _ _ _) as [att weights]. simpl in Hatt.
  apply Hc. rewrite embed_dim_E, !Nat2Z.id.
  destruct b as [|b'].
  { unfold reshape3. simpl. split; [done|constructor]. }
  destruct (has_shape4_dims _ _ _ _ _ Hatt ltac:(lia) H_pos) as [-> _].
  rewrite Nat2Z.id.
  pose proof (transpose_0213_shape att (S b') H n P Hatt) as Ht.
  rewrite (flatten4_length _ _ _ _ _ Ht).
  replace (S b' * n * H * P / (S b' * E))%nat with n.
  - apply reshape3_shape. rewrite (flatten4_length _ _ _ _ _ Ht). subst E. lia.
  - subst E. replace (S b' * n * H * P)%nat with (n * (S b' * (H * P)))%nat by lia.
    rewrite Nat.div_mul; [done|]. lia.
Qed.

End call_shape.

(** A layer built by [__init__] for positive dimensions, over Dense
    sublayers of width [embed_dim], keeps the shape of its input. *)
Lemma init_call_keeps_shape (E H : nat) (a : t) (w : sublayers) :
  (0 < E)%nat -> (0 < H)%nat ->
  init (Z.of_nat E) (Z.of_nat H) = Ok a ->
  keeps_shape (query_dense_call w) E -> keeps_shape (key_dense_call w) E ->
  keeps_shape (value_dense_call w) E -> keeps_shape (combine_heads_call w) E ->
  keeps_shape (call a w) E.
Proof.
  intros HE HH Hinit Hq Hk Hv Hc.
  apply init_ok_inv in Hinit as (_ & Hmod & _ & ->).
  assert (Z.of_nat E = Z.of_nat H * (Z.of_nat E / Z.of_nat H)) as Hsplit.
  { pose proof (Z.div_mod (Z.of_nat E) (Z.of_nat H) ltac:(lia)). lia. }
  assert (0 < Z.of_nat E / Z.of_nat H) as Hpos by nia.
  apply (call_keeps_shape _ w E H (Z.to_nat (Z.of_nat E / Z.of_nat H)));
    simpl; try done; try lia.
Qed.

End MultiHeadSelfAttention_facts.

(** ** Keras layers *)

Section layers_facts.
Import layers.

Lemma vadd_length (u v : tensor1) d :
  length u = d -> length v = d -> length (vadd u v) = d.
Proof. intros Hu Hv. unfold vadd. rewrite length_zip_with. lia. Qed.

Lemma madd_shape (u v : tensor2) n d :
  has_shape2 u n d -> has_shape2 v n d -> has_shape2 (madd u v) n d.
Proof.
  intros [Hu Hallu] [Hv Hallv]. split.
  - unfold madd. rewrite length_zip_with. lia.
  - apply Forall_lookup. intros i r Hr.
    apply lookup_zip_with_Some in Hr as (a & c & -> & Ha & Hc).
    rewrite Forall_lookup in Hallu, Hallv. apply vadd_length; eauto.
Qed.

Lemma tadd_shape (u v : tensor3) b n d :
  has_shape3 u b n d -> has_shape3 v b n d -> has_shape3 (tadd u v) b n d.
Proof.
  intros [Hu Hallu] [Hv Hallv]. split.
  - unfold tadd. rewrite length_zip_with. lia.
  - apply Forall_lookup. intros i r Hr.
    apply lookup_zip_with_Some in Hr as (a & c & -> & Ha & Hc).
    rewrite Forall_lookup in Hallu, Hallv. apply madd_shape; eauto.
Qed.

(** A function applied to every row maps the last axis as it maps the
    length of a row. *)
Lemma map_rows_shape3 (f : tensor1 -> tensor1) (d d' : nat) :
  (forall r, length r = d -> length (f r) = d') ->
  maps_last_axis (map (map f)) d d'.
Proof.
  intros Hf x b n [H3 Hall3]. split; [by rewrite length_map|].
  apply Forall_fmap. eapply Forall_impl; [exact Hall3|].
  intros t2 [H2 Hall2]. split; [by rewrite length_map|].
  apply Forall_fmap. eapply Forall_impl; [exact Hall2|].
  intros t1 H1. simpl. by apply Hf.
Qed.

Lemma row3_lookup (x : tensor3) (B N D b p : nat) :
  has_shape3 x B N D -> (b < B)%nat -> (p < N)%nat ->
  exists r, row3 x b p = Some r /\ length r = D.
Proof.
  intros Hx Hb Hp. unfold row3.
  destruct (lookup_lt_is_Some_2 x b) as [xb Hxb]; [destruct Hx as [-> _]; lia|].
  rewrite Hxb.
  pose proof (has_shape3_lookup _ _ _ _ _ _ Hx Hxb) as Hxb2.
  destruct (lookup_lt_is_Some_2 xb p) as [r Hr]; [destruct Hxb2 as [-> _]; lia|].
  exists r. split; [done|]. by eapply has_shape2_lookup.
Qed.

Lemma row3_bounds (x : tensor3) (B N D b p : nat) (r : tensor1) :
  has_shape3 x B N D -> row3 x b p = Some r ->
  (b < B)%nat /\ (p < N)%nat /\ length r = D.
Proof.
  intros Hx. unfold row3.
  destruct (x !! b) as [xb|] eqn:Hxb; [|done]. intros Hr.
  pose proof (has_shape3_lookup _ _ _ _ _ _ Hx Hxb) as Hxb2.
  split; [destruct Hx as [<- _]; by eapply lookup_lt_Some|].
  split; [destruct Hxb2 as [<- _]; by eapply lookup_lt_Some|].
  by eapply has_shape2_lookup.
Qed.

Lemma row3_map (f : tensor1 -> tensor1) (x : tensor3) (b p : nat) :
  row3 (map (map f) x) b p = f <$> row3 x b p.
Proof.
  unfold row3. rewrite list_lookup_fmap.
  destruct (x !! b) as [xb|]; simpl; [|done].
  by rewrite list_lookup_fmap.
Qed.

(** A row of a sum of two tensors is the entrywise sum of their rows. *)
Lemma row3_tadd (x y : tensor3) (b p : nat) (xr yr : tensor1) :
  row3 x b p = Some xr -> row3 y b p = Some yr ->
  row3 (tadd x y) b p = Some (zip_with Rplus xr yr).
Proof.
  unfold row3, tadd, madd, vadd. intros Hx Hy.
  rewrite lookup_zip_with.
  destruct (x !! b) as [xb|]; [|done]. destruct (y !! b) as [yb|]; [|done].
  simpl. by rewrite lookup_zip_with, Hx, Hy.
Qed.

Lemma columns_length (d : nat) (m : tensor2) : length (columns d m) = d.
Proof. unfold columns. by rewrite length_map, length_seq. Qed.

Lemma Dense_row_length (l : Dense) (w : Dense_weights) (x : tensor1) (u : nat) :
  units l = Z.of_nat u -> length (bias w) = u -> length (Dense_row l w x) = u.
Proof.
  intros Hu Hb. unfold Dense_row, vadd.
  rewrite length_map, length_zip_with, length_map, columns_length, Hu, Nat2Z.id. lia.
Qed.

(** A Dense layer of width [u] maps the last axis to extent [u]. *)
Lemma Dense_call_shape (l : Dense) (w : Dense_weights) (d u : nat) :
  units l = Z.of_nat u -> length (bias w) = u ->
  maps_last_axis (Dense_call l w) d u.
Proof.
  intros Hu Hb. apply map_rows_shape3. intros r _. by apply Dense_row_length.
Qed.

Lemma LayerNormalization_row_length (l : LayerNormalization)
      (w : LayerNormalization_weights) (v : tensor1) (d : nat) :
  LayerNormalization_weights_ok w d -> length v = d ->
  length (LayerNormalization_row l w v) = d.
Proof.
  intros [Hg Hb] Hv. unfold LayerNormalization_row.
  rewrite !length_zip_with, length_map. lia.
Qed.

Lemma LayerNormalization_call_shape (l : LayerNormalization)
      (w : LayerNormalization_weights) (d : nat) :
  LayerNormalization_weights_ok w d ->
  keeps_shape (LayerNormalization_call l w) d.
Proof.
  intros Hw. apply map_rows_shape3. intros r Hr.
  by apply LayerNormalization_row_length.
Qed.

Lemma Dropout_call_shape (l : Dropout) (keep : option (list (list (list bool))))
      (x : tensor3) (b n d : nat) :
  match keep with Some m => has_shape3 m b n d | None => True end ->
  has_shape3 x b n d -> has_shape3 (Dropout_call l keep x) b n d.
Proof.
  destruct keep as [m|]; [|done]. intros [Hm Hallm] [Hx Hallx]. simpl. split.
  - rewrite length_zip_with. lia.
  - apply Forall_lookup. intros i r Hr.
    apply lookup_zip_with_Some in Hr as (xb & mb & -> & Hxb & Hmb).
    rewrite Forall_lookup in Hallx. rewrite Forall_lookup in Hallm.
    destruct (Hallx _ _ Hxb) as [Hxb1 Hxb2]. destruct (Hallm _ _ Hmb) as [Hmb1 Hmb2].
    split; [rewrite length_zip_with; lia|].
    apply Forall_lookup. intros p v Hv.
    apply lookup_zip_with_Some in Hv as (xr & ks & -> & Hxr & Hks).
    rewrite Forall_lookup in Hxb2. rewrite Forall_lookup in Hmb2. simpl.
    rewrite length_zip_with, (Hxb2 _ _ Hxr), (Hmb2 _ _ Hks). lia.
Qed.

(** A row of the output of a Dropout layer is the row of its input,
    dropped by the row of kept entries. *)
Lemma row3_Dropout_call (l : Dropout) (keep : option (list (list (list bool))))
      (x : tensor3) (B N D b p : nat) (xr : tensor1) :
  match keep with Some m => has_shape3 m B N D | None => True end ->
  has_shape3 x B N D ->
  row3 x b p = Some xr ->
  row3 (Dropout_call l keep x) b p
  = Some (Dropout_row l (TransformerBlock.keep_row keep b p) xr).
Proof.
  intros Hm Hx Hxr. destruct keep as [m|]; [|done]. simpl.
  destruct (row3_bounds x B N D b p xr Hx Hxr) as (Hb & Hp & _).
  unfold row3 in *. rewrite lookup_zip_with.
  destruct (x !! b) as [xb|]; [|done].
  destruct (lookup_lt_is_Some_2 m b) as [mb Hmb]; [destruct Hm as [-> _]; lia|].
  rewrite Hmb. simpl. rewrite lookup_zip_with, Hxr. simpl.
  pose proof (has_shape3_lookup _ _ _ _ _ _ Hm Hmb) as Hmb2.
  destruct (lookup_lt_is_Some_2 mb p) as [ks Hks]; [destruct Hmb2 as [-> _]; lia|].
  by rewrite Hks.
Qed.

Lemma Dropout_row_length (l : Dropout) (keep : option (list bool)) (v : tensor1) (d : nat) :
  match keep with Some ks => length ks = d | None => True end ->
  length v = d -> length (Dropout_row l keep v) = d.
Proof.
  destruct keep as [ks|]; [|done]. intros Hks Hv. simpl.
  rewrite length_zip_with. lia.
Qed.

End layers_facts.

(** ** TransformerBlock *)

Section TransformerBlock_facts.
Import TransformerBlock.

Example init_notebook_block :
  init Notebook.embed_dim Notebook.num_heads Notebook.feed_forward_dim
  = Ok (mk (MultiHeadSelfAttention.mk 256 2 128
              (layers.mk_Dense 256 layers.linear) (layers.mk_Dense 256 layers.linear)
              (layers.mk_Dense 256 layers.linear) (layers.mk_Dense 256 layers.linear))
           (layers.mk_Dense 256 layers.relu) (layers.mk_Dense 256 layers.linear)
           (layers.mk_LayerNormalization (1 / 1000000))
           (layers.mk_LayerNormalization (1 / 1000000))
           (layers.mk_Dropout (1 / 10)) (layers.mk_Dropout (1 / 10))).
Proof. reflexivity. Qed.

(** What [__init__] returns when it returns. *)
Lemma init_ok_block (e h f : Z) (self : t) :
  init e h f = Ok self ->
  exists a,
    MultiHeadSelfAttention.init e h = Ok a /\ 0 <= f
    /\ self = mk a (layers.mk_Dense f layers.relu) (layers.mk_Dense e layers.linear)
                (layers.mk_LayerNormalization (1 / 1000000))
                (layers.mk_LayerNormalization (1 / 1000000))
                (layers.mk_Dropout (1 / 10)) (layers.mk_Dropout (1 / 10)).
Proof.
  unfold init. destruct (MultiHeadSelfAttention.init e h) as [a|] eqn:Ha; [|done].
  simpl. destruct (init_ok_inv e h a Ha) as (_ & _ & He & _).
  unfold layers.Dense_init.
  destruct (Z.ltb_spec f 0) as [?|Hf]; [done|]. simpl.
  destruct (Z.ltb_spec e 0) as [?|_]; [lia|]. simpl.
  intros Heq. inversion Heq. eauto.
Qed.

(** The attention sublayer of a block keeps the shape of its input. *)
Lemma built_call_keeps_shape (E H : nat) (a : MultiHeadSelfAttention.t)
      (w : MultiHeadSelfAttention.weights) :
  (0 < E)%nat -> (0 < H)%nat ->
  MultiHeadSelfAttention.init (Z.of_nat E) (Z.of_nat H) = Ok a ->
  MultiHeadSelfAttention.weights_ok w E ->
  keeps_shape (MultiHeadSelfAttention.call a (MultiHeadSelfAttention.built a w)) E.
Proof.
  intros HE HH Hinit [[_ Hq] [_ Hk] [_ Hv] [_ Hc]].
  pose proof (init_ok_inv _ _ _ Hinit) as (_ & _ & _ & Ha).
  apply (init_call_keeps_shape E H); try done; subst a; simpl;
    by apply Dense_call_shape.
Qed.

(** The output of a block has the shape of its input. *)
Lemma block_call_shape (self : t) (w : weights) (training : mode)
      (E H F B N : nat) (inputs : tensor3) :
  (0 < E)%nat -> (0 < H)%nat ->
  init (Z.of_nat E) (Z.of_nat H) (Z.of_nat F) = Ok self ->
  weights_ok w E F ->
  mode_ok training B N E ->
  has_shape3 inputs B N E ->
  has_shape3 (call self w training inputs) B N E.
Proof.
  intros HE HH Hinit Hw Hmode Hin.
  destruct (init_ok_block _ _ _ _ Hinit) as (a0 & Ha0 & HF & ->).
  destruct Hw as [Hatt [Hk1 Hb1] [Hk2 Hb2] Hln1 Hln2].
  assert (match fst <$> training with Some m => has_shape3 m B N E | None => True end
          /\ match snd <$> training with Some m => has_shape3 m B N E | None => True end)
    as [Hm1 Hm2].
  { destruct training as [[m1 m2]|]; [|done]. by destruct Hmode. }
  unfold call, ffn. simpl.
  assert (has_shape3
            (layers.LayerNormalization_call (layers.mk_LayerNormalization (1 / 1000000))
               (layernorm1_w w)
               (tadd inputs
                  (layers.Dropout_call (layers.mk_Dropout (1 / 10)) (fst <$> training)
                     (MultiHeadSelfAttention.call a0
                        (MultiHeadSelfAttention.built a0 (att_w w)) inputs))))
            B N E) as Ho1.
  { apply LayerNormalization_call_shape; [done|]. apply tadd_shape; [done|].
    apply Dropout_call_shape; [done|]. by apply (built_call_keeps_shape E H). }
  apply LayerNormalization_call_shape; [done|]. apply tadd_shape; [done|].
  apply Dropout_call_shape; [done|].
  apply (Dense_call_shape _ _ F E); [done|done|].
  by apply (Dense_call_shape _ _ E F).
Qed.

(** C5.  A block built by [__init__] for positive dimensions, with
    weights of the shapes its layers give them, called at inference or in
    training on an input of shape (B, N, embed_dim), returns a tensor of
    the same shape, and so does its attention sublayer.  Row by row the
    result is computed in this order: the row [a] of the attention output
    goes through dropout, is added to the row [x] of the input and
    normalized by the first LayerNormalization; the result [out1] is
    expanded by the first Dense layer to [ff_dim] entries, each passed
    through relu (so none is negative), projected back to [embed_dim]
    entries by the second Dense layer, goes through dropout, is added to
    [out1], and the sum is normalized by the second LayerNormalization,
    which has weights of its own.  (The layers are computed in exact
    arithmetic, which float32 rounds at every operation.) *)
Theorem call_sequence_and_shape (self : t) (w : weights) (training : mode)
        (E H F B N : nat) (inputs : tensor3) :
  (0 < E)%nat -> (0 < H)%nat ->
  init (Z.of_nat E) (Z.of_nat H) (Z.of_nat F) = Ok self ->
  weights_ok w E F ->
  mode_ok training B N E ->
  has_shape3 inputs B N E ->
  let attention_output :=
    MultiHeadSelfAttention.call (att self)
      (MultiHeadSelfAttention.built (att self) (att_w w)) inputs in
  let dropout := layers.mk_Dropout (1 / 10) in
  let layernorm := layers.mk_LayerNormalization (1 / 1000000) in
  has_shape3 attention_output B N E
  /\ has_shape3 (call self w training inputs) B N E
  /\ forall (b p : nat) (x a : tensor1),
       row3 inputs b p = Some x ->
       row3 attention_output b p = Some a ->
       let a' := layers.Dropout_row dropout (keep_row (fst <$> training) b p) a in
       let out1 :=
         layers.LayerNormalization_row layernorm (layernorm1_w w) (zip_with Rplus x a') in
       let hidden :=
         map (fun v => Rmax v 0)
             (zip_with Rplus
                (map (dot out1) (columns F (layers.kernel (ffn_dense_relu_w w))))
                (layers.bias (ffn_dense_relu_w w))) in
       let f :=
         zip_with Rplus
           (map (dot hidden) (columns E (layers.kernel (ffn_dense_w w))))
           (layers.bias (ffn_dense_w w)) in
       let f' := layers.Dropout_row dropout (keep_row (snd <$> training) b p) f in
       length out1 = E
       /\ length hidden = F
       /\ Forall (fun v => (0 <= v)%R) hidden
       /\ length f' = E
       /\ row3 (call self w training inputs) b p
          = Some (layers.LayerNormalization_row layernorm (layernorm2_w w)
                    (zip_with Rplus out1 f')).
Proof.
  intros HE HH Hinit Hw Hmode Hin.
  destruct (init_ok_block _ _ _ _ Hinit) as (a0 & Ha0 & HF & ->).
  destruct Hw as [Hatt [Hk1 Hb1] [Hk2 Hb2] Hln1 Hln2]. simpl att.
  intros attention_output dropout layernorm.
  assert (has_shape3 attention_output B N E) as Hao.
  { by apply (built_call_keeps_shape E H). }
  assert (match fst <$> training with Some m => has_shape3 m B N E | None => True end
          /\ match snd <$> training with Some m => has_shape3 m B N E | None => True end)
    as [Hm1 Hm2].
  { destruct training as [[m1 m2]|]; [|done]. by destruct Hmode. }
  set (ao' := layers.Dropout_call dropout (fst <$> training) attention_output).
  assert (has_shape3 ao' B N E) as Hao' by (by apply Dropout_call_shape).
  set (o1 := layers.LayerNormalization_call layernorm (layernorm1_w w) (tadd inputs ao')).
  assert (has_shape3 o1 B N E) as Ho1.
  { apply LayerNormalization_call_shape; [done|]. by apply tadd_shape. }
  set (hid := layers.Dense_call (layers.mk_Dense (Z.of_nat F) layers.relu)
                (ffn_dense_relu_w w) o1).
  assert (has_shape3 hid B N F) as Hhid.
  { by apply (Dense_call_shape _ _ E F). }
  set (fo := layers.Dense_call (layers.mk_Dense (Z.of_nat E) layers.linear)
               (ffn_dense_w w) hid).
  assert (has_shape3 fo B N E) as Hfo.
  { by apply (Dense_call_shape _ _ F E). }
  set (fo' := layers.Dropout_call dropout (snd <$> training) fo).
  assert (has_shape3 fo' B N E) as Hfo' by (by apply Dropout_call_shape).
  split; [exact Hao|]. split.
  { change (call _ w training inputs)
      with (layers.LayerNormalization_call layernorm (layernorm2_w w) (tadd o1 fo')).
    apply LayerNormalization_call_shape; [done|]. by apply tadd_shape. }
  intros b p x a Hx Ha a' out1 hidden f f'.
  destruct (row3_bounds _ _ _ _ _ _ _ Hin Hx) as (Hb & Hp & Hxlen).
  destruct (row3_bounds _ _ _ _ _ _ _ Hao Ha) as (_ & _ & Halen).
  assert (row3 ao' b p = Some a') as Hrow_ao'.
  { by apply (row3_Dropout_call _ _ _ B N E). }
  assert (row3 o1 b p = Some out1) as Hrow_o1.
  { unfold o1, layers.LayerNormalization_call.
    by rewrite row3_map, (row3_tadd _ _ _ _ x a' Hx Hrow_ao'). }
  assert (row3 hid b p = Some hidden) as Hrow_hid.
  { unfold hid, layers.Dense_call. rewrite row3_map, Hrow_o1. simpl.
    unfold layers.Dense_row, vadd. simpl. by rewrite Nat2Z.id. }
  assert (row3 fo b p = Some f) as Hrow_fo.
  { unfold fo, layers.Dense_call. rewrite row3_map, Hrow_hid. simpl.
    unfold layers.Dense_row, vadd. simpl. rewrite Nat2Z.id. f_equal.
    by rewrite map_id. }
  assert (row3 fo' b p = Some f') as Hrow_fo'.
  { by apply (row3_Dropout_call _ _ _ B N E). }
  destruct (row3_bounds _ _ _ _ _ _ _ Ho1 Hrow_o1) as (_ & _ & Hlen1).
  destruct (row3_bounds _ _ _ _ _ _ _ Hhid Hrow_hid) as (_ & _ & Hlenh).
  destruct (row3_bounds _ _ _ _ _ _ _ Hfo' Hrow_fo') as (_ & _ & Hlenf).
  split; [exact Hlen1|]. split; [exact Hlenh|]. split.
  { unfold hidden. apply Forall_fmap, Forall_forall. intros v _. simpl.
    apply Rmax_r. }
  split; [exact Hlenf|].
  change (call _ w training inputs)
    with (layers.LayerNormalization_call layernorm (layernorm2_w w) (tadd o1 fo')).
  unfold layers.LayerNormalization_call.
  by rewrite row3_map, (row3_tadd _ _ _ _ out1 f' Hrow_o1 Hrow_fo').
Qed.

Lemma call_sequence_and_shape_witness :
  let square := layers.mk_Dense_weights [[1; 0]; [0; 1]]%R [0; 0]%R in
  let w :=
    mk_weights
      (MultiHeadSelfAttention.mk_weights square square square square)
      (layers.mk_Dense_weights [[1; -1; 2]; [0; 1; 1]]%R [0; 0; -4]%R)
      (layers.mk_Dense_weights [[1; 0]; [0; 1]; [1; 1]]%R [3; 0]%R)
      (layers.mk_LayerNormalization_weights [1; 1]%R [0; 0]%R)
      (layers.mk_LayerNormalization_weights [2; 2]%R [1; 1]%R) in
  let training : mode :=
    Some ([[[true; false]; [true; true]]], [[[false; true]; [true; true]]]) in
  let inputs : tensor3 := [[[1; -2]; [3; 4]]]%R in
  let attention_layer :=
    MultiHeadSelfAttention.mk 2 2 1
      (layers.mk_Dense 2 layers.linear) (layers.mk_Dense 2 layers.linear)
      (layers.mk_Dense 2 layers.linear) (layers.mk_Dense 2 layers.linear) in
  let self :=
    mk attention_layer (layers.mk_Dense 3 layers.relu) (layers.mk_Dense 2 layers.linear)
       (layers.mk_LayerNormalization (1 / 1000000))
       (layers.mk_LayerNormalization (1 / 1000000))
       (layers.mk_Dropout (1 / 10)) (layers.mk_Dropout (1 / 10)) in
  let attention_output :=
    MultiHeadSelfAttention.call attention_layer
      (MultiHeadSelfAttention.built attention_layer (att_w w)) inputs in
  let dropout := layers.mk_Dropout (1 / 10) in
  let layernorm := layers.mk_LayerNormalization (1 / 1000000) in
  ((0 < 2)%nat /\ (0 < 2)%nat
   /\ init (Z.of_nat 2) (Z.of_nat 2) (Z.of_nat 3) = Ok self
   /\ weights_ok w 2 3 /\ mode_ok training 1 2 2 /\ has_shape3 inputs 1 2 2)
  /\ has_shape3 (call self w training inputs) 1 2 2
  /\ exists a,
       row3 inputs 0 0 = Some [1; -2]%R
       /\ row3 attention_output 0 0 = Some a
       /\ let a' := layers.Dropout_row dropout (Some [true; false]) a in
          let out1 :=
            layers.LayerNormalization_row layernorm (layernorm1_w w)
              (zip_with Rplus [1; -2]%R a') in
          let hidden :=
            map (fun v => Rmax v 0)
                (zip_with Rplus
                   (map (dot out1) (columns 3 (layers.kernel (ffn_dense_relu_w w))))
                   (layers.bias (ffn_dense_relu_w w))) in
          let f :=
            zip_with Rplus
              (map (dot hidden) (columns 2 (layers.kernel (ffn_dense_w w))))
              (layers.bias (ffn_dense_w w)) in
          let f' := layers.Dropout_row dropout (Some [false; true]) f in
          row3 (call self w training inputs) 0 0
          = Some (layers.LayerNormalization_row layernorm (layernorm2_w w)
                    (zip_with Rplus out1 f')).
Proof.
  intros square w training inputs attention_layer self attention_output dropout layernorm.
  assert (layers.Dense_weights_ok square 2 2) as Hsq.
  { split; [repeat (split || constructor)|reflexivity]. }
  assert (weights_ok w 2 3) as Hw.
  { constructor.
    - by constructor.
    - split; [repeat (split || constructor)|reflexivity].
    - split; [repeat (split || constructor)|reflexivity].
    - by split.
    - by split. }
  assert (mode_ok training 1 2 2) as Hmode.
  { split; repeat (split || constructor). }
  assert (has_shape3 inputs 1 2 2) as Hin by (repeat (split || constructor)).
  assert (init (Z.of_nat 2) (Z.of_nat 2) (Z.of_nat 3) = Ok self) as Hinit
    by reflexivity.
  split.
  { split; [lia|]. split; [lia|]. split; [exact Hinit|]. split; [exact Hw|].
    split; [exact Hmode|exact Hin]. }
  destruct (call_sequence_and_shape self w training 2 2 3 1 2 inputs
              ltac:(lia) ltac:(lia) Hinit Hw Hmode Hin) as (Hao & Hshape & Hrow).
  split; [exact Hshape|].
  destruct (row3_lookup _ 1 2 2 0 0 Hao ltac:(lia) ltac:(lia)) as (a & Ha & _).
  exists a. split; [reflexivity|]. split; [exact Ha|].
  apply (Hrow 0%nat 0%nat [1; -2]%R a eq_refl Ha).
Defined.


End TransformerBlock_facts.

(** ** TokenAndPositionEmbedding *)

Section TokenAndPositionEmbedding_facts.
Import TokenAndPositionEmbedding.

Lemma hd_length_shape2 {A : Type} (x : list (list A)) B N b row :
  has_shape2 x B N -> x !! b = Some row -> dim1 x = Z.of_nat N.
Proof.
  intros Hx Hb. unfold dim1, len. f_equal.
  destruct x as [|r0 x']; [done|]. simpl.
  by apply (has_shape2_lookup (r0 :: x') B N 0%nat r0 Hx).
Qed.




End TokenAndPositionEmbedding_facts.

(** ** Corpus preparation *)

Section Corpus_facts.
Import Corpus.
Variable maxlen : Z.
Variable tokenize_text : string -> list Z.

Lemma pad_or_truncate_spec (n : Z) (ids : list Z) :
  0 <= n ->
  pad_or_truncate n ids = take (Z.to_nat n) (ids ++ replicate (Z.to_nat n) 0)
  /\ length (pad_or_truncate n ids) = Z.to_nat n.
Proof.
  intros Hn. unfold pad_or_truncate, py_slice_to, len.
  destruct (Z.ltb_spec n (Z.of_nat (length ids))) as [Hlt|Hge].
  - destruct (Z.ltb_spec n 0) as [?|_]; [lia|].
    rewrite take_app_le by lia. split; [done|].
    rewrite length_take. lia.
  - rewrite take_app, take_ge, take_replicate by lia.
    rewrite length_app, length_replicate.
    split; [f_equal; f_equal; lia | lia].
Qed.

(** C7.  Every sample is tokenized to exactly [maxlen + 1] integers: its
    token ids truncated, or padded with 0 on the right.  The training pair
    is (tokens[0:maxlen], tokens[1:maxlen+1]): both of length [maxlen],
    with [y[i] = tokens[i+1]] for every [i < maxlen] and so
    [y[i] = x[i+1]] wherever [i + 1 < maxlen]. *)
Theorem prepare_lm_inputs_labels_shift (text : list string) (b : nat) (s : string) :
  0 <= maxlen ->
  text !! b = Some s ->
  exists tokens x y,
    vectorize_layer maxlen tokenize_text text !! b = Some tokens
    /\ (prepare_lm_inputs_labels maxlen tokenize_text text).1 !! b = Some x
    /\ (prepare_lm_inputs_labels maxlen tokenize_text text).2 !! b = Some y
    /\ tokens = take (Z.to_nat (maxlen + 1))
                     (tokenize_text s ++ replicate (Z.to_nat (maxlen + 1)) 0)
    /\ len tokens = maxlen + 1
    /\ x = take (Z.to_nat maxlen) tokens
    /\ y = drop 1 tokens
    /\ len x = maxlen /\ len y = maxlen
    /\ (forall i, (i < Z.to_nat maxlen)%nat ->
          is_Some (y !! i) /\ y !! i = tokens !! S i)
    /\ (forall i, (S i < Z.to_nat maxlen)%nat -> y !! i = x !! S i).
Proof.
  intros Hm Hs.
  destruct (pad_or_truncate_spec (maxlen + 1) (tokenize_text s)) as [Hpad Hlen]; [lia|].
  set (tokens := pad_or_truncate (maxlen + 1) (tokenize_text s)) in *.
  assert (py_slice_to tokens (-1) = take (Z.to_nat maxlen) tokens) as Hx.
  { unfold py_slice_to, len. simpl. rewrite Hlen. f_equal. lia. }
  assert (py_slice_from tokens 1 = drop 1 tokens) as Hy by done.
  exists tokens, (take (Z.to_nat maxlen) tokens), (drop 1 tokens).
  unfold prepare_lm_inputs_labels, vectorize_layer. simpl.
  rewrite !list_lookup_fmap, Hs. simpl. fold tokens. rewrite Hx, Hy.
  repeat split; try done.
  - unfold len. lia.
  - unfold len. rewrite length_take. lia.
  - unfold len. rewrite length_drop. lia.
  - apply lookup_lt_is_Some. rewrite length_drop. lia.
  - by rewrite lookup_drop.
  - intros i Hi. rewrite lookup_drop, lookup_take_lt by lia. done.
Qed.

End Corpus_facts.

Lemma prepare_lm_inputs_labels_shift_witness :
  let tokenize_text (s : string) : list Z :=
    map (fun c => Z.of_nat (nat_of_ascii c)) (list_ascii_of_string s) in
  (0 <= 3 /\ ["abcde"; "xy"] !! 1%nat = Some "xy"%string)
  /\ exists tokens x y,
       Corpus.vectorize_layer 3 tokenize_text ["abcde"; "xy"] !! 1%nat = Some tokens
       /\ (Corpus.prepare_lm_inputs_labels 3 tokenize_text ["abcde"; "xy"]).1 !! 1%nat
          = Some x
       /\ (Corpus.prepare_lm_inputs_labels 3 tokenize_text ["abcde"; "xy"]).2 !! 1%nat
          = Some y
       /\ tokens = take (Z.to_nat (3 + 1))
                        (tokenize_text "xy" ++ replicate (Z.to_nat (3 + 1)) 0)
       /\ len tokens = 3 + 1
       /\ x = take (Z.to_nat 3) tokens
       /\ y = drop 1 tokens
       /\ len x = 3 /\ len y = 3
       /\ (forall i, (i < Z.to_nat 3)%nat ->
             is_Some (y !! i) /\ y !! i = tokens !! S i)
       /\ (forall i, (S i < Z.to_nat 3)%nat -> y !! i = x !! S i).
Proof.
  intros tokenize_text. split; [split; [lia|reflexivity]|].
  apply (prepare_lm_inputs_labels_shift 3 tokenize_text ["abcde"; "xy"] 1 "xy");
    [lia|reflexivity].
Defined.

Example prepare_lm_inputs_labels_example :
  Corpus.prepare_lm_inputs_labels 3 (fun s => [Z.of_nat (String.length s); 7; 8; 9; 10; 11])
                                  ["ab"]
  = ([[2; 7; 8]], [[7; 8; 9]]).
Proof. reflexivity. Qed.

(** ** Vocabulary round trip *)

Lemma range_snoc (n : nat) : range (Z.of_nat (S n)) = range (Z.of_nat n) ++ [Z.of_nat n].
Proof.
  unfold range. rewrite !Nat2Z.id, seq_S, map_app. done.
Qed.

Lemma enumerate_snoc {A : Type} (l : list A) (x : A) :
  enumerate (l ++ [x]) = enumerate l ++ [(len l, x)].
Proof.
  unfold enumerate, len. rewrite length_app. simpl.
  replace (length l + 1)%nat with (S (length l)) by lia.
  rewrite range_snoc, zip_with_app; [done|].
  by rewrite length_range, Nat2Z.id.
Qed.

Lemma build_word_to_index_snoc (vocab : list string) (w : string) :
  build_word_to_index (vocab ++ [w]) = <[w := len vocab]> (build_word_to_index vocab).
Proof.
  unfold build_word_to_index. by rewrite enumerate_snoc, foldl_app.
Qed.

(** The dictionary maps each word of the vocabulary to an index holding
    that word, and nothing else. *)
Lemma build_word_to_index_lookup (vocab : list string) (w : string) :
  match build_word_to_index vocab !! w with
  | Some i => exists n : nat, i = Z.of_nat n /\ vocab !! n = Some w
  | None => w ∉ vocab
  end.
Proof.
  induction vocab as [|x vocab IH] using rev_ind.
  - unfold build_word_to_index. simpl. rewrite lookup_empty. apply not_elem_of_nil.
  - rewrite build_word_to_index_snoc.
    destruct (decide (x = w)) as [->|Hne].
    + rewrite lookup_insert_eq. exists (length vocab). split; [done|].
      rewrite lookup_app_r by lia. by rewrite Nat.sub_diag.
    + rewrite lookup_insert_ne by done.
      destruct (build_word_to_index vocab !! w) as [i|].
      * destruct IH as (n & -> & Hn). exists n. split; [done|].
        by apply lookup_app_l_Some.
      * rewrite elem_of_app, list_elem_of_singleton. intros [Hin|Heq]; [by apply IH|].
        by apply Hne.
Qed.

(** C9.  With the callback's [index_to_word] being the vocabulary the
    dictionary was built from: a word of the vocabulary is tokenized to an
    index that [detokenize] maps back to it; a word outside the vocabulary
    is tokenized to 1. *)
Theorem detokenize_tokenize_roundtrip (self : TextGenerator.t) (vocab : list string)
        (word : string) :
  TextGenerator.index_to_word self = vocab ->
  (word ∈ vocab ->
     TextGenerator.detokenize self (tokenize (build_word_to_index vocab) word) = Ok word)
  /\ (word ∉ vocab -> tokenize (build_word_to_index vocab) word = 1).
Proof.
  intros Hvocab. unfold TextGenerator.detokenize, tokenize. rewrite Hvocab.
  pose proof (build_word_to_index_lookup vocab word) as H.
  destruct (build_word_to_index vocab !! word) as [i|]; simpl.
  - destruct H as (n & -> & Hn). split.
    + intros _. by apply py_index_in_range.
    + intros Hnot. exfalso. apply Hnot. apply list_elem_of_lookup. eauto.
  - split; [done|done].
Qed.

Lemma detokenize_tokenize_roundtrip_witness :
  let vocab := [EmptyString; "[UNK]"; "the"; "movie"; "the"]%string in
  let self := TextGenerator.mk 40 [2; 3] vocab 1 10 (fun _ => ([], [])) in
  TextGenerator.index_to_word self = vocab
  /\ TextGenerator.detokenize self (tokenize (build_word_to_index vocab) "the") = Ok "the"%string
  /\ tokenize (build_word_to_index vocab) "film" = 1.
Proof.
  intros vocab self. split; [reflexivity|].
  destruct (detokenize_tokenize_roundtrip self vocab "the" eq_refl) as [Hin _].
  destruct (detokenize_tokenize_roundtrip self vocab "film" eq_refl) as [_ Hout].
  split.
  - apply Hin. apply list_elem_of_lookup. exists 2%nat. reflexivity.
  - apply Hout. intros Hmem. unfold vocab in Hmem.
    repeat (apply elem_of_cons in Hmem as [Hmem|Hmem]; [discriminate Hmem|]).
    by apply not_elem_of_nil in Hmem.
Defined.

Example tokenize_duplicate_word :
  tokenize (build_word_to_index ["a"; "b"; "a"]%string) "a" = 2.
Proof. vm_compute. reflexivity. Qed.

(** ** Top-k selection *)

Section top_k_facts.

Lemma insert_desc_perm (x : R * Z) (l : list (R * Z)) :
  insert_desc x l ≡ₚ x :: l.
Proof.
  induction l as [|y l IH]; simpl; [done|].
  destruct (Rlt_dec x.1 y.1); [|done].
  rewrite IH. apply Permutation_swap.
Qed.

Lemma sort_desc_perm (l : list (R * Z)) : sort_desc l ≡ₚ l.
Proof.
  induction l as [|x l IH]; simpl; [done|].
  unfold sort_desc in *. simpl. by rewrite insert_desc_perm, IH.
Qed.

Lemma insert_desc_sorted (x : R * Z) (l : list (R * Z)) :
  StronglySorted ge_fst l -> StronglySorted ge_fst (insert_desc x l).
Proof.
  induction 1 as [|y l Hsorted IH Hall]; simpl.
  - repeat constructor.
  - destruct (Rlt_dec x.1 y.1) as [Hlt|Hnlt].
    + constructor; [done|].
      rewrite insert_desc_perm. constructor; [|done].
      unfold ge_fst. lra.
    + constructor; [by constructor|].
      constructor; [unfold ge_fst; lra|].
      eapply Forall_impl; [exact Hall|].
      intros z Hz. unfold ge_fst in *. lra.
Qed.

Lemma sort_desc_sorted (l : list (R * Z)) : StronglySorted ge_fst (sort_desc l).
Proof.
  induction l as [|x l IH]; simpl; [constructor|].
  by apply insert_desc_sorted.
Qed.

(** In a descending list nothing after position [k] exceeds anything
    before it. *)
Lemma sorted_take_drop (l : list (R * Z)) (k : nat) (a b : R * Z) :
  StronglySorted ge_fst l -> a ∈ take k l -> b ∈ drop k l -> (b.1 <= a.1)%R.
Proof.
  intros Hsorted. revert k. induction Hsorted as [|y l Hsorted IH Hall]; intros k Ha Hb.
  - rewrite take_nil in Ha. by apply elem_of_nil in Ha.
  - destruct k as [|k]; simpl in *; [by apply elem_of_nil in Ha|].
    apply elem_of_cons in Ha as [->|Ha]; [|by eapply IH].
    rewrite Forall_forall in Hall. apply Hall.
    by apply (subseteq_drop k l).
Qed.

Lemma zip_range_lookup (logits : list R) (v : R) (i : Z) :
  (v, i) ∈ zip logits (range (len logits)) ->
  0 <= i < len logits /\ logits !! Z.to_nat i = Some v.
Proof.
  intros Hin. apply list_elem_of_lookup in Hin as [n Hn].
  apply lookup_zip_with_Some in Hn as (v' & i' & Heq & Hv & Hi).
  inversion Heq; subst v' i'.
  pose proof (lookup_lt_Some _ _ _ Hv) as Hlt.
  unfold len in *. rewrite lookup_range in Hi by lia.
  inversion Hi; subst i. rewrite Nat2Z.id. split; [lia|done].
Qed.

Lemma zip_range_elem (logits : list R) (v : R) (n : nat) :
  logits !! n = Some v -> (v, Z.of_nat n) ∈ zip logits (range (len logits)).
Proof.
  intros Hv. apply list_elem_of_lookup. exists n.
  apply lookup_zip_with_Some. exists v, (Z.of_nat n).
  split; [done|]. split; [done|].
  apply lookup_range. apply lookup_lt_Some in Hv. unfold len. lia.
Qed.

Lemma zip_range_snd (logits : list R) :
  (zip logits (range (len logits))).*2 = range (len logits).
Proof. apply snd_zip. unfold len. rewrite length_range. lia. Qed.

Lemma NoDup_range (n : Z) : NoDup (range n).
Proof.
  unfold range. apply NoDup_fmap_2; [apply _|apply NoDup_seq].
Qed.

(** [top_k] succeeds for [0 <= k <= len logits] and returns the logits of
    a set of [k] highest-logit indices, in descending order. *)
Lemma top_k_spec (logits : list R) (k : Z) :
  0 <= k <= len logits ->
  exists vals idxs,
    top_k logits k = Ok (vals, idxs)
    /\ top_k_set logits k idxs
    /\ length vals = Z.to_nat k
    /\ (forall n i, idxs !! n = Some i -> vals !! n = logits !! Z.to_nat i).
Proof.
  intros Hk. unfold top_k.
  destruct (Z.ltb_spec k 0) as [?|_]; [lia|].
  destruct (Z.ltb_spec (len logits) k) as [?|_]; [lia|]. simpl.
  set (pairs := zip logits (range (len logits))).
  set (sorted := sort_desc pairs).
  pose proof (sort_desc_perm pairs) as Hperm. fold sorted in Hperm.
  pose proof (sort_desc_sorted pairs) as Hsorted. fold sorted in Hsorted.
  assert (length sorted = length logits) as Hlen.
  { rewrite Hperm. unfold pairs. rewrite length_zip_with, length_range.
    unfold len. lia. }
  assert (NoDup (sorted.*2)) as Hnodup.
  { rewrite Hperm. unfold pairs. rewrite zip_range_snd. apply NoDup_range. }
  eexists _, _. split; [reflexivity|]. split; [|split].
  - split; [|split; [|split]].
    + rewrite <- (take_drop (Z.to_nat k) sorted), fmap_app in Hnodup.
      by apply NoDup_app in Hnodup as (? & _ & _).
    + unfold len in *. rewrite length_map, length_take. lia.
    + intros i Hi. apply list_elem_of_fmap in Hi as ([v i'] & -> & Hi).
      apply elem_of_take in Hi as (n & Hn & _).
      apply list_elem_of_lookup_2 in Hn. rewrite Hperm in Hn.
      by apply zip_range_lookup in Hn as [? _].
    + intros i j vi vj Hi Hj Hj0 Hvi Hvj.
      apply list_elem_of_fmap in Hi as ([v i'] & -> & Hi). simpl in Hvi.
      assert ((v, i') ∈ sorted) as Hi'.
      { apply elem_of_take in Hi as (n & Hn & _). by eapply list_elem_of_lookup_2. }
      rewrite Hperm in Hi'. apply zip_range_lookup in Hi' as [_ Hv].
      assert (v = vi) as -> by congruence.
      assert ((vj, j) ∈ sorted) as Hjs.
      { rewrite Hperm. replace j with (Z.of_nat (Z.to_nat j)) by lia.
        by apply zip_range_elem. }
      rewrite <- (take_drop (Z.to_nat k) sorted) in Hjs.
      apply elem_of_app in Hjs as [Hjs|Hjs].
      * exfalso. apply Hj. apply list_elem_of_fmap. by exists (vj, j).
      * by apply (sorted_take_drop sorted (Z.to_nat k) (vi, i') (vj, j)).
  - rewrite length_map, length_take. unfold len in *. lia.
  - intros n i Hn. rewrite list_lookup_fmap in Hn. rewrite list_lookup_fmap.
    destruct (take (Z.to_nat k) sorted !! n) as [[v i']|] eqn:E; [|done].
    simpl in *. inversion Hn; subst i'.
    assert ((v, i) ∈ sorted) as Hi'.
    { apply (subseteq_take (Z.to_nat k)). by eapply list_elem_of_lookup_2. }
    rewrite Hperm in Hi'. by apply zip_range_lookup in Hi' as [_ ->].
Qed.

End top_k_facts.

(** ** Softmax and inverse-CDF sampling *)

Section sampling_facts.
Local Open Scope R_scope.

Lemma rsum_app (u v : list R) : rsum (u ++ v) = rsum u + rsum v.
Proof. unfold rsum. induction u as [|x u IH]; simpl; [lra|]. rewrite IH. lra. Qed.

Lemma rsum_pos (p : list R) : Forall (fun x => 0 < x) p -> 0 <= rsum p.
Proof.
  induction 1 as [|x p Hx _ IH]; unfold rsum in *; simpl; lra.
Qed.

Lemma rsum_take_S (p : list R) (n : nat) (x : R) :
  p !! n = Some x -> rsum (take (S n) p) = rsum (take n p) + x.
Proof.
  intros Hn. rewrite (take_S_r _ _ _ Hn), rsum_app. unfold rsum. simpl. lra.
Qed.

Lemma rsum_take_mono (p : list R) (a b : nat) :
  Forall (fun x => 0 < x) p -> (a <= b)%nat -> rsum (take a p) <= rsum (take b p).
Proof.
  intros Hp Hab.
  replace b with (a + (b - a))%nat by lia.
  rewrite <- take_take_drop, rsum_app.
  assert (0 <= rsum (take (b - a) (drop a p))); [|lra].
  apply rsum_pos, Forall_take, Forall_drop, Hp.
Qed.

(** The intervals cut out by the prefix sums of positive weights are
    disjoint. *)
Lemma prefix_interval_unique (p : list R) (m n : nat) (u : R) :
  Forall (fun x => 0 < x) p ->
  rsum (take m p) <= u < rsum (take (S m) p) ->
  rsum (take n p) <= u < rsum (take (S n) p) ->
  m = n.
Proof.
  intros Hp Hm Hn.
  destruct (Nat.lt_trichotomy m n) as [Hlt|[Heq|Hgt]]; [|done|].
  - pose proof (rsum_take_mono p (S m) n Hp ltac:(lia)). lra.
  - pose proof (rsum_take_mono p (S n) m Hp ltac:(lia)). lra.
Qed.

(** Searching the cumulative sums of positive weights for [u] finds the
    one interval between consecutive prefix sums that holds [u]. *)
Lemma searchsorted_right_cumsum (p : list R) (acc u : R) :
  Forall (fun x => 0 < x) p ->
  acc <= u < acc + rsum p ->
  (searchsorted_right (cumsum_from acc p) u < length p)%nat
  /\ acc + rsum (take (searchsorted_right (cumsum_from acc p) u) p) <= u
     < acc + rsum (take (S (searchsorted_right (cumsum_from acc p) u)) p).
Proof.
  intros Hp. revert acc. induction Hp as [|x p Hx Hp IH]; intros acc Hu.
  - unfold rsum in Hu. simpl in Hu. lra.
  - simpl. unfold rsum in Hu. simpl in Hu. fold (rsum p) in Hu.
    destruct (Rle_dec (acc + x) u) as [Hle|Hnle].
    + destruct (IH (acc + x)) as [Hlt Hint]; [lra|].
      split; [simpl; lia|].
      change (take (S ?n) (x :: p)) with (x :: take n p).
      unfold rsum in *. simpl in *. lra.
    + split; [simpl; lia|].
      unfold rsum. simpl. lra.
Qed.

Lemma rsum_exp_pos (vals : list R) : vals <> [] -> 0 < rsum (map exp vals).
Proof.
  destruct vals as [|v vals]; [done|]. intros _.
  unfold rsum. simpl. fold (rsum (map exp vals)).
  assert (0 <= rsum (map exp vals)).
  { apply rsum_pos, Forall_fmap, Forall_forall. intros x _. apply exp_pos. }
  pose proof (exp_pos v). lra.
Qed.

Lemma softmax1_length (vals : list R) : length (softmax1 vals) = length vals.
Proof. unfold softmax1. by rewrite length_map. Qed.

Lemma softmax1_lookup (vals : list R) (n : nat) (v : R) :
  vals !! n = Some v ->
  softmax1 vals !! n = Some (exp v / rsum (map exp vals)).
Proof. intros Hn. unfold softmax1. by rewrite list_lookup_fmap, Hn. Qed.

Lemma softmax1_pos (vals : list R) : Forall (fun x => 0 < x) (softmax1 vals).
Proof.
  destruct vals as [|v0 vals]; [constructor|].
  pose proof (rsum_exp_pos (v0 :: vals) ltac:(done)) as Hz.
  unfold softmax1. apply Forall_fmap, Forall_forall. intros v _. simpl.
  apply Rdiv_lt_0_compat; [apply exp_pos|done].
Qed.

Lemma rsum_map_div (l : list R) (z : R) :
  rsum (map (fun x => exp x / z) l) = rsum (map exp l) / z.
Proof.
  unfold rsum. induction l as [|x l IH]; simpl; [lra|]. rewrite IH. lra.
Qed.

(** The renormalized probabilities sum to 1. *)
Lemma rsum_softmax1 (vals : list R) : vals <> [] -> rsum (softmax1 vals) = 1.
Proof.
  intros Hne. unfold softmax1. rewrite rsum_map_div.
  pose proof (rsum_exp_pos vals Hne). field. lra.
Qed.

End sampling_facts.

(** ** TextGenerator.sample_from *)

Section sample_from_facts.
Import TextGenerator.

(** [np.random.choice] on as many positive weights as items, summing to
    1, returns the item whose prefix-sum interval holds the draw. *)
Lemma random_choice_spec (a : list Z) (p : list R) (g : rng) :
  a <> [] -> length p = length a ->
  Forall (fun x => (0 < x)%R) p -> rsum p = 1%R ->
  (0 <= g 0%nat < 1)%R ->
  exists n x,
    (rsum (take n p) <= g 0%nat < rsum (take (S n) p))%R
    /\ a !! n = Some x
    /\ random_choice a p g = Ok (x, (random_sample g).2).
Proof.
  intros Ha Hlen Hp Hsum Hu. unfold random_choice.
  destruct (Nat.eqb_spec (length a) 0) as [H0|_].
  { destruct a; [done|simpl in H0; lia]. }
  destruct (Nat.eqb_spec (length p) (length a)) as [_|?]; [|done]. simpl.
  destruct (searchsorted_right_cumsum p 0 (g 0%nat) Hp) as [Hlt Hint]; [lra|].
  fold (cumsum p) in Hlt, Hint.
  set (n := searchsorted_right (cumsum p) (g 0%nat)) in *.
  destruct (lookup_lt_is_Some_2 a n) as [x Hx]; [lia|].
  exists n, x. split; [lra|]. split; [done|].
  by rewrite (py_index_in_range a n x Hx).
Qed.

(** C8.  For [1 <= k <= len(logits)] and a uniform draw [u] in [0, 1):
    [top_k] returns a set of [k] highest-logit indices with their logits;
    [sample_from] returns one of those indices; and it returns the [n]-th
    of them exactly when [u] falls in an interval of length
    [exp(v_n) / (exp(v_0) + ... + exp(v_(k-1)))], the softmax over just the
    [k] selected logits.  These probabilities sum to 1, so the intervals
    tile [0, 1): under a uniform draw each top-k token has exactly its
    renormalized softmax probability. *)
Theorem sample_from_top_k_distribution (self : t) (logits : list R) (g : rng) :
  1 <= k self <= len logits ->
  (0 <= g 0%nat < 1)%R ->
  exists vals idxs,
    top_k logits (k self) = Ok (vals, idxs)
    /\ top_k_set logits (k self) idxs
    /\ (forall n i, idxs !! n = Some i -> vals !! n = logits !! Z.to_nat i)
    /\ rsum (softmax1 vals) = 1%R
    /\ (exists tok,
          sample_from self logits g = Ok (tok, (random_sample g).2) /\ tok ∈ idxs)
    /\ (forall n tok v,
          idxs !! n = Some tok -> vals !! n = Some v ->
          let p := (exp v / rsum (map exp vals))%R in
          let lo := rsum (take n (softmax1 vals)) in
          (0 < p)%R
          /\ (sample_from self logits g = Ok (tok, (random_sample g).2)
              <-> (lo <= g 0%nat < lo + p)%R)).
Proof.
  intros Hk Hu.
  destruct (top_k_spec logits (k self)) as (vals & idxs & Htop & Hset & Hlen & Hvals);
    [lia|].
  exists vals, idxs.
  pose proof Hset as (Hnodup & Hlenk & _ & _).
  assert (length idxs = length vals) as Hlen' by (unfold len in *; lia).
  assert (vals <> []) as Hne by (destruct vals; [simpl in Hlen; lia|done]).
  assert (idxs <> []) as Hne' by (destruct idxs; [simpl in Hlen'; lia|done]).
  pose proof (softmax1_pos vals) as Hpos.
  pose proof (rsum_softmax1 vals Hne) as Hsum.
  destruct (random_choice_spec idxs (softmax1 vals) g) as (n0 & tok0 & Hint0 & Hn0 & Hchoice);
    [done|by rewrite softmax1_length|done|done|done|].
  assert (sample_from self logits g = Ok (tok0, (random_sample g).2)) as Hsample.
  { unfold sample_from. rewrite Htop. simpl. exact Hchoice. }
  split; [done|]. split; [done|]. split; [done|]. split; [done|]. split.
  { exists tok0. split; [done|]. by eapply list_elem_of_lookup_2. }
  intros n tok v Hn Hv p lo. subst p lo.
  pose proof (rsum_take_S _ _ _ (softmax1_lookup vals n v Hv)) as HS.
  split; [apply Rdiv_lt_0_compat; [apply exp_pos|by apply rsum_exp_pos]|].
  split.
  - intros Hs. rewrite Hsample in Hs. inversion Hs; subst tok.
    assert (n = n0) as -> by (by eapply NoDup_lookup).
    lra.
  - intros Hint.
    assert (n = n0) as ->.
    { eapply prefix_interval_unique; [exact Hpos| |exact Hint0]. lra. }
    rewrite Hsample. congruence.
Qed.

Lemma sample_from_top_k_distribution_witness :
  let self := mk 5 [2; 3; 4] [] 1 2 (fun _ => ([], [])) in
  let logits := [0; 3; 1]%R in
  let g : rng := fun _ => 0%R in
  (1 <= k self <= len logits /\ (0 <= g 0%nat < 1)%R)
  /\ exists tok,
       sample_from self logits g = Ok (tok, (random_sample g).2)
       /\ exists idxs, top_k_set logits (k self) idxs /\ tok ∈ idxs.
Proof.
  intros self logits g.
  assert (1 <= k self <= len logits) as Hk by (unfold len; simpl; lia).
  assert (0 <= g 0%nat < 1)%R as Hu by (unfold g; lra).
  split; [by split|].
  destruct (sample_from_top_k_distribution self logits g Hk Hu)
    as (vals & idxs & _ & Hset & _ & _ & (tok & Hs & Hin) & _).
  exists tok. split; [exact Hs|]. exists idxs. by split.
Defined.

End sample_from_facts.

(** ** The generation loop *)

Section generation_facts.
Import TextGenerator.
Variable maxlen : Z.
Variable self : t.
Variable vocab_size : nat.

Lemma py_index_ok {A : Type} (l : list A) (i : Z) :
  - len l <= i < len l ->
  exists a, py_index l i = Ok a /\ a ∈ l.
Proof.
  intros Hi. unfold py_index, len in *.
  set (j := if i <? 0 then i + Z.of_nat (length l) else i).
  assert (0 <= j < Z.of_nat (length l)) as Hj.
  { unfold j. destruct (Z.ltb_spec i 0); lia. }
  destruct (Z.leb_spec 0 j) as [_|?]; [|lia].
  destruct (Z.ltb_spec j (Z.of_nat (length l))) as [_|?]; [|lia]. simpl.
  destruct (lookup_lt_is_Some_2 l (Z.to_nat j)) as [a Ha]; [lia|].
  rewrite Ha. exists a. split; [done|]. by eapply list_elem_of_lookup_2.
Qed.

Lemma rmap_ok {A B : Type} (f : A -> result B) (l : list A) :
  Forall (fun a => exists b, f a = Ok b) l ->
  exists bs, rmap f l = Ok bs /\ length bs = length l.
Proof.
  induction 1 as [|a l [b Hb] _ (bs & Hbs & Hlen)]; simpl.
  - by exists [].
  - rewrite Hb. simpl. rewrite Hbs. simpl. exists (b :: bs). simpl. by rewrite Hlen.
Qed.

(** What the head of the loop body builds from the tokens so far. *)
Lemma prepare_input_spec (toks : list Z) :
  0 <= maxlen ->
  len (prepare_input maxlen toks).1 = maxlen
  /\ (prepare_input maxlen toks).1
     = take (Z.to_nat maxlen) (toks ++ replicate (Z.to_nat maxlen) 0)
  /\ (maxlen < len toks ->
      prepare_input maxlen toks = (take (Z.to_nat maxlen) toks, maxlen - 1))
  /\ (len toks <= maxlen ->
      prepare_input maxlen toks
      = (toks ++ replicate (Z.to_nat (maxlen - len toks)) 0, len toks - 1)).
Proof.
  intros Hm. unfold prepare_input, py_slice_to, len.
  destruct (Z.ltb_spec (maxlen - Z.of_nat (length toks)) 0) as [Hlt|Hge].
  - destruct (Z.ltb_spec maxlen 0) as [?|_]; [lia|]. simpl.
    rewrite length_take, take_app_le by lia.
    repeat split; try done; lia.
  - destruct (Z.gtb_spec (maxlen - Z.of_nat (length toks)) 0) as [Hgt|Hle]; simpl.
    + rewrite length_app, length_replicate, take_app, take_ge, take_replicate by lia.
      repeat split; try done; try lia.
      f_equal. f_equal. lia.
    + assert (Z.to_nat (maxlen - Z.of_nat (length toks)) = 0%nat) as Hz by lia.
      rewrite Hz. simpl. rewrite app_nil_r.
      rewrite take_app, take_ge, take_replicate by lia.
      replace ((Z.to_nat maxlen - length toks) `min` Z.to_nat maxlen)%nat
        with 0%nat by lia.
      simpl. rewrite app_nil_r.
      repeat split; try done; lia.
Qed.

(** The sampled position is a valid (possibly negative) index into the
    [maxlen] rows of logits. *)
Lemma prepare_input_sample_index (toks : list Z) :
  1 <= maxlen -> - maxlen <= (prepare_input maxlen toks).2 < maxlen.
Proof.
  intros Hm. unfold prepare_input, len.
  destruct (Z.ltb_spec (maxlen - Z.of_nat (length toks)) 0);
    [|destruct (Z.gtb_spec (maxlen - Z.of_nat (length toks)) 0)]; simpl; lia.
Qed.

(** Sampling succeeds and returns a valid vocabulary index. *)
Lemma sample_from_ok (logits : list R) (g : rng) :
  1 <= k self <= len logits ->
  (0 <= g 0%nat < 1)%R ->
  exists tok,
    sample_from self logits g = Ok (tok, (random_sample g).2)
    /\ 0 <= tok < len logits.
Proof.
  intros Hk Hu.
  destruct (top_k_spec logits (k self)) as (vals & idxs & Htop & Hset & Hlen & _);
    [lia|].
  destruct Hset as (_ & Hlenk & Hrange & _).
  assert (vals <> []) as Hne by (destruct vals; [simpl in Hlen; lia|done]).
  assert (idxs <> []) as Hne'.
  { destruct idxs; [unfold len in Hlenk; simpl in Hlenk; lia|done]. }
  destruct (random_choice_spec idxs (softmax1 vals) g) as (n & tok & _ & Hn & Hchoice).
  - done.
  - rewrite softmax1_length. unfold len in *. lia.
  - apply softmax1_pos.
  - by apply rsum_softmax1.
  - done.
  - exists tok. split.
    + unfold sample_from. rewrite Htop. simpl. exact Hchoice.
    + apply Hrange. by eapply list_elem_of_lookup_2.
Qed.

(** The two ways through the loop test. *)
Lemma while_loop_step (fuel : nat) (st : loop_state) :
  st_num_tokens_generated st <= max_tokens self ->
  while_loop maxlen (S fuel) self st
  = match loop_body maxlen self st with
    | Ok st' => while_loop maxlen fuel self st'
    | Raise e => Some (Raise e)
    end.
Proof.
  intros Hle. simpl.
  by destruct (Z.leb_spec (st_num_tokens_generated st) (max_tokens self)); [|lia].
Qed.

Lemma while_loop_exit (fuel : nat) (st : loop_state) :
  max_tokens self < st_num_tokens_generated st ->
  while_loop maxlen fuel self st = Some (Ok st).
Proof.
  intros Hgt. destruct fuel; simpl;
    by destruct (Z.leb_spec (st_num_tokens_generated st) (max_tokens self)); [lia|].
Qed.

Hypothesis maxlen_pos : 1 <= maxlen.
Hypothesis model_shape : model_ok maxlen self vocab_size.
Hypothesis k_range : 1 <= k self <= Z.of_nat vocab_size.

(** One iteration keeps the invariant and appends one sampled token. *)
Lemma loop_body_inv (st : loop_state) :
  loop_inv maxlen self vocab_size st ->
  exists st' tok,
    loop_body maxlen self st = Ok st'
    /\ loop_inv maxlen self vocab_size st'
    /\ st_tokens_generated st' = st_tokens_generated st ++ [tok].
Proof.
  intros (Hstart & Hnum & Hlog & Htoks & Hrng & Hinputs).
  unfold loop_body.
  destruct (prepare_input_spec (st_start_tokens st)) as (Hxlen & _); [lia|].
  pose proof (prepare_input_sample_index (st_start_tokens st) maxlen_pos) as Hsi.
  destruct (prepare_input maxlen (st_start_tokens st)) as [x si] eqn:Eprep.
  simpl in Hxlen, Hsi.
  pose proof (model_shape x Hxlen) as Hy.
  destruct (model self [x]) as [y hidden]. simpl in Hy.
  destruct Hy as [Hylen Hyall].
  destruct y as [|y0 [|? ?]]; simpl in Hylen; try lia.
  apply Forall_inv in Hyall. destruct Hyall as [Hy0len Hy0all].
  change (py_index [y0] 0) with (Ok y0). simpl.
  destruct (py_index_ok y0 si) as (logits & -> & Hlogits); [unfold len; lia|]. simpl.
  rewrite Forall_forall in Hy0all. apply Hy0all in Hlogits.
  destruct (sample_from_ok logits (st_rng st)) as (tok & -> & Htok);
    [unfold len; lia|apply Hrng|]. simpl.
  eexists _, tok. split; [reflexivity|]. split; [|done].
  unfold loop_inv. simpl. split; [|split; [|split; [|split; [|split]]]].
  - by rewrite Hstart, app_assoc.
  - done.
  - rewrite !length_app, Hlog. done.
  - apply Forall_app. split; [done|]. constructor; [|done]. unfold len in Htok. lia.
  - intros n. apply Hrng.
  - intros n e Hn.
    assert (length (st_start_tokens st)
            = (length (start_tokens self) + length (model_inputs st))%nat) as Hlen.
    { by rewrite Hstart, length_app, Hlog. }
    destruct (decide (n < length (model_inputs st))%nat) as [Hlt|Hge].
    + rewrite lookup_app_l in Hn by done.
      rewrite take_app_le by lia. by apply Hinputs.
    + rewrite lookup_app_r in Hn by lia.
      destruct (n - length (model_inputs st))%nat as [|?] eqn:En; [|done].
      simpl in Hn. inversion Hn; subst e.
      assert (n = length (model_inputs st)) as -> by lia.
      rewrite <- Hlen, take_app_length. done.
Qed.

(** With enough fuel the loop runs to its exit, keeping the invariant, and
    leaves with [max_tokens + 1] generated tokens if it ran at all. *)
Lemma while_loop_inv (fuel : nat) (st : loop_state) :
  loop_inv maxlen self vocab_size st ->
  (Z.to_nat (max_tokens self + 1 - st_num_tokens_generated st) <= fuel)%nat ->
  exists st',
    while_loop maxlen fuel self st = Some (Ok st')
    /\ loop_inv maxlen self vocab_size st'
    /\ st_num_tokens_generated st'
       = Z.max (st_num_tokens_generated st) (max_tokens self + 1).
Proof.
  revert st. induction fuel as [|fuel IH]; intros st Hinv Hfuel.
  - simpl. destruct (Z.leb_spec (st_num_tokens_generated st) (max_tokens self)); [lia|].
    exists st. split; [done|]. split; [done|]. lia.
  - simpl. destruct (Z.leb_spec (st_num_tokens_generated st) (max_tokens self)) as [Hle|Hgt].
    + destruct (loop_body_inv st Hinv) as (st1 & tok & -> & Hinv1 & Hgen).
      assert (st_num_tokens_generated st1 = st_num_tokens_generated st + 1) as Hnum1.
      { destruct Hinv as (_ & -> & _). destruct Hinv1 as (_ & -> & _).
        rewrite Hgen. unfold len. rewrite length_app. simpl. lia. }
      destruct (IH st1 Hinv1) as (st' & Hrun & Hinv' & Hnum'); [lia|].
      exists st'. split; [done|]. split; [done|]. lia.
    + exists st. split; [done|]. split; [done|]. lia.
Qed.

Lemma initial_state_inv (g : rng) :
  (forall n, 0 <= g n < 1)%R ->
  loop_inv maxlen self vocab_size (initial_state self g).
Proof.
  intros Hg. unfold loop_inv, initial_state. simpl.
  rewrite app_nil_r. repeat split; try done; try apply Hg.
Qed.

End generation_facts.

Section on_epoch_end_facts.
Import TextGenerator.

(** C1.  What the loop does generate.  On an epoch that prints, with a
    model of the right shape, a valid [top_k], draws in [0, 1), prompt
    tokens inside the vocabulary and [max_tokens >= 0], the callback
    prints the join of [len(start_tokens) + max_tokens + 1] words: the
    loop test [num_tokens_generated <= max_tokens] lets the body run
    [max_tokens + 1] times, one more than the documented
    "number of tokens to be generated after prompt". *)
Theorem on_epoch_end_token_count (maxlen : Z) (self : t) (vocab_size : nat)
        (epoch : Z) (g : rng) (fuel : nat) :
  1 <= maxlen ->
  model_ok maxlen self vocab_size ->
  1 <= k self <= Z.of_nat vocab_size ->
  (forall n, 0 <= g n < 1)%R ->
  length (index_to_word self) = vocab_size ->
  Forall (fun tok => 0 <= tok < Z.of_nat vocab_size) (start_tokens self) ->
  print_every self <> 0 ->
  (epoch + 1) mod print_every self = 0 ->
  0 <= max_tokens self ->
  (Z.to_nat (max_tokens self) < fuel)%nat ->
  exists words st,
    on_epoch_end maxlen fuel self epoch g
    = Some (Ok (Printed (String.concat " " words), st))
    /\ rmap (detokenize self) (start_tokens self ++ st_tokens_generated st) = Ok words
    /\ len (st_tokens_generated st) = max_tokens self + 1
    /\ len words = len (start_tokens self) + max_tokens self + 1.
Proof.
  intros Hmaxlen Hmodel Hk Hg Hvocab Hprompt Hpe Hepoch Hmax Hfuel.
  destruct (while_loop_inv maxlen self vocab_size Hmaxlen Hmodel Hk fuel
              (initial_state self g) (initial_state_inv maxlen self vocab_size g Hg))
    as (st & Hrun & Hinv & Hnum); [simpl; lia|].
  simpl in Hnum. destruct Hinv as (_ & Hnum' & _ & Htoks & _).
  assert (Forall (fun a => exists b, detokenize self a = Ok b)
                 (start_tokens self ++ st_tokens_generated st)) as Hdetok.
  { eapply Forall_impl; [apply Forall_app; split; [exact Hprompt|exact Htoks]|].
    intros tok Htok. simpl in Htok. unfold detokenize.
    destruct (py_index_ok (index_to_word self) tok) as (w & Hw & _); [unfold len; lia|].
    by exists w. }
  destruct (rmap_ok _ _ Hdetok) as (words & Hwords & Hlen).
  exists words, st. unfold on_epoch_end, py_mod.
  destruct (Z.eqb_spec (print_every self) 0) as [?|_]; [done|].
  rewrite Hepoch. simpl. rewrite Hrun, Hwords. simpl.
  split; [done|]. split; [done|].
  unfold len in *. rewrite length_app in Hlen. lia.
Qed.

(** The notebook-sized instance scaled down: a 3-token prompt and
    [max_tokens = 5] print 9 words, not 8. *)
Lemma on_epoch_end_token_count_witness :
  let self := Worked.generator in
  let g := Worked.zero_rng in
  (1 <= 4 /\ model_ok 4 self 5 /\ 1 <= k self <= Z.of_nat 5
   /\ (forall n, 0 <= g n < 1)%R
   /\ length (index_to_word self) = 5%nat
   /\ Forall (fun tok => 0 <= tok < Z.of_nat 5) (start_tokens self)
   /\ print_every self <> 0 /\ (0 + 1) mod print_every self = 0
   /\ 0 <= max_tokens self /\ (Z.to_nat (max_tokens self) < 10)%nat)
  /\ exists words st,
       on_epoch_end 4 10 self 0 g = Some (Ok (Printed (String.concat " " words), st))
       /\ rmap (detokenize self) (start_tokens self ++ st_tokens_generated st) = Ok words
       /\ len (st_tokens_generated st) = 5 + 1
       /\ len words = 3 + 5 + 1.
Proof.
  intros self g.
  assert (model_ok 4 self 5) as Hmodel.
  { intros x _. simpl. repeat (split || constructor). }
  assert (forall n, 0 <= g n < 1)%R as Hg.
  { intros n. unfold g, Worked.zero_rng. lra. }
  assert (Forall (fun tok => 0 <= tok < Z.of_nat 5) (start_tokens self)) as Hprompt.
  { simpl. repeat constructor; lia. }
  split.
  { split; [lia|]. split; [exact Hmodel|]. split; [simpl; lia|]. split; [exact Hg|].
    split; [reflexivity|]. split; [exact Hprompt|]. split; [simpl; lia|].
    split; [reflexivity|]. simpl. lia. }
  apply (on_epoch_end_token_count 4 self 5 0 g 10); simpl; try done; try lia.
Defined.

(** C10.  Every input row the loop builds has length [maxlen]; it is the
    accumulated token list cut to its first [maxlen] tokens once that list
    is longer (the sampled position then being [maxlen - 1]), and the list
    followed by zeros while it is not.  In a run of the loop the [n]-th
    model input is built from the first [len(start_tokens) + n] tokens of
    the final list, and each of its entries is either the token at the
    same position (below [maxlen]) of that list or a padding zero: a token
    at position [maxlen] or later never enters a model input. *)
Theorem generation_inputs_invariant (maxlen : Z) (self : t) (vocab_size : nat)
        (g : rng) (fuel : nat) :
  1 <= maxlen ->
  model_ok maxlen self vocab_size ->
  1 <= k self <= Z.of_nat vocab_size ->
  (forall n, 0 <= g n < 1)%R ->
  (Z.to_nat (max_tokens self + 1) <= fuel)%nat ->
  (forall toks,
     len (prepare_input maxlen toks).1 = maxlen
     /\ (maxlen < len toks ->
         prepare_input maxlen toks = (take (Z.to_nat maxlen) toks, maxlen - 1))
     /\ (len toks <= maxlen ->
         prepare_input maxlen toks
         = (toks ++ replicate (Z.to_nat (maxlen - len toks)) 0, len toks - 1)))
  /\ exists st,
       while_loop maxlen fuel self (initial_state self g) = Some (Ok st)
       /\ length (model_inputs st) = Z.to_nat (max_tokens self + 1)
       /\ forall n x sample_index,
            model_inputs st !! n = Some (x, sample_index) ->
            let seen := take (length (start_tokens self) + n) (st_start_tokens st) in
            (x, sample_index) = prepare_input maxlen seen
            /\ len x = maxlen
            /\ (maxlen < len seen ->
                x = take (Z.to_nat maxlen) (st_start_tokens st)
                /\ sample_index = maxlen - 1)
            /\ (forall p tok, x !! p = Some tok ->
                  (p < Z.to_nat maxlen)%nat
                  /\ (st_start_tokens st !! p = Some tok \/ tok = 0)).
Proof.
  intros Hmaxlen Hmodel Hk Hg Hfuel. split.
  { intros toks.
    destruct (prepare_input_spec maxlen toks) as (H1 & _ & H2 & H3); [lia|]. done. }
  destruct (while_loop_inv maxlen self vocab_size Hmaxlen Hmodel Hk fuel
              (initial_state self g) (initial_state_inv maxlen self vocab_size g Hg))
    as (st & Hrun & Hinv & Hnum); [simpl; lia|].
  simpl in Hnum.
  destruct Hinv as (Hstart & Hnum' & Hlog & _ & _ & Hinputs).
  exists st. split; [done|]. split.
  { rewrite Hlog. unfold len in Hnum'. lia. }
  intros n x sample_index Hn seen.
  pose proof (Hinputs n _ Hn) as Hprep. fold seen in Hprep.
  destruct (prepare_input_spec maxlen seen) as (Hlen & Hx & Htrunc & _); [lia|].
  rewrite <- Hprep in Hlen, Hx, Htrunc. simpl in Hlen, Hx.
  split; [done|]. split; [done|]. split.
  - intros Hlong. specialize (Htrunc Hlong). inversion Htrunc as [[Hx' Hsi]].
    split; [|done].
    unfold seen, len in *. rewrite length_take in Hlong.
    rewrite take_take. f_equal. lia.
  - intros p tok Hp.
    assert (p < Z.to_nat maxlen)%nat as Hlt.
    { apply lookup_lt_Some in Hp. unfold len in Hlen. lia. }
    split; [done|].
    rewrite Hx, lookup_take_lt in Hp by done.
    destruct (decide (p < length seen)%nat) as [Hin|Hout].
    + left. rewrite lookup_app_l in Hp by done.
      unfold seen in Hp. apply lookup_take_Some in Hp as [Hp _]. done.
    + right. rewrite lookup_app_r in Hp by lia.
      apply lookup_replicate in Hp as [-> _]. done.
Qed.

Lemma generation_inputs_invariant_witness :
  let self := Worked.generator in
  let g := Worked.zero_rng in
  (1 <= 4 /\ model_ok 4 self 5 /\ 1 <= k self <= Z.of_nat 5
   /\ (forall n, 0 <= g n < 1)%R
   /\ (Z.to_nat (max_tokens self + 1) <= 6)%nat)
  /\ exists st,
       while_loop 4 6 self (initial_state self g) = Some (Ok st)
       /\ length (model_inputs st) = 6%nat
       /\ forall n x sample_index,
            model_inputs st !! n = Some (x, sample_index) ->
            len x = 4
            /\ (4 < len (take (3 + n) (st_start_tokens st)) ->
                x = take 4 (st_start_tokens st) /\ sample_index = 4 - 1).
Proof.
  intros self g.
  assert (model_ok 4 self 5) as Hmodel.
  { intros x _. simpl. repeat (split || constructor). }
  assert (forall n, 0 <= g n < 1)%R as Hg.
  { intros n. unfold g, Worked.zero_rng. lra. }
  assert (1 <= k self <= Z.of_nat 5) as Hk by (simpl; lia).
  split.
  { split; [lia|]. split; [exact Hmodel|]. split; [exact Hk|]. split; [exact Hg|].
    simpl. lia. }
  destruct (generation_inputs_invariant 4 self 5 g 6 ltac:(lia) Hmodel Hk Hg
              ltac:(simpl; lia)) as (_ & st & Hrun & Hlen & Hall).
  exists st. split; [exact Hrun|]. split; [exact Hlen|].
  intros n x sample_index Hn.
  destruct (Hall n x sample_index Hn) as (_ & Hxlen & Htrunc & _).
  split; [exact Hxlen|exact Htrunc].
Defined.

End on_epoch_end_facts.

(** ** The worked configuration, evaluated *)

Section Worked_facts.
Import TextGenerator Worked.

Lemma worked_top_k : top_k logits_row 2 = Ok ([3; 2]%R, [3; 2]).
Proof.
  unfold top_k, logits_row, sort_desc. simpl.
  repeat (match goal with
          | |- context [Rlt_dec ?a ?b] => destruct (Rlt_dec a b); [try lra|try lra]
          end; simpl).
  reflexivity.
Qed.

Lemma worked_sample (g : rng) :
  g 0%nat = 0%R ->
  sample_from generator logits_row g = Ok (3, (random_sample g).2).
Proof.
  intros Hg. unfold sample_from. change (k generator) with 2.
  rewrite worked_top_k. simpl. unfold random_choice. simpl. rewrite Hg.
  destruct (Rle_dec _ 0) as [Hle|_]; [|reflexivity].
  exfalso. pose proof (exp_pos 3). pose proof (exp_pos 2).
  assert (0 < exp 3 / (exp 3 + (exp 2 + 0)))%R; [|lra].
  apply Rdiv_lt_0_compat; lra.
Qed.

Lemma worked_loop_body (st : loop_state) :
  st_rng st 0%nat = 0%R ->
  loop_body 4 generator st
  = Ok {| st_start_tokens := st_start_tokens st ++ [3];
          st_tokens_generated := st_tokens_generated st ++ [3];
          st_num_tokens_generated := len (st_tokens_generated st ++ [3]);
          st_rng := (random_sample (st_rng st)).2;
          model_inputs := model_inputs st ++ [prepare_input 4 (st_start_tokens st)] |}.
Proof.
  intros Hg. unfold loop_body.
  pose proof (prepare_input_sample_index 4 (st_start_tokens st) ltac:(lia)) as Hsi.
  destruct (prepare_input 4 (st_start_tokens st)) as [x si]. simpl in Hsi.
  change (model generator [x]) with ([replicate 4 logits_row], @nil (list (list R))).
  cbv beta iota zeta.
  change (py_index [replicate 4 logits_row] 0) with (Ok (replicate 4 logits_row)).
  unfold rbind at 1.
  destruct (py_index_ok (replicate 4 logits_row) si) as (row & -> & Hrow);
    [unfold len; simpl; lia|].
  apply elem_of_replicate in Hrow as [-> _]. unfold rbind at 1.
  rewrite (worked_sample _ Hg). reflexivity.
Qed.

(** The run of the callback on the worked configuration: six iterations,
    six sampled tokens, nine words printed.  The first input is padded, the
    second is the four accumulated tokens, and from then on every input is
    the first four tokens again. *)
Example worked_on_epoch_end :
  exists st,
    on_epoch_end 4 10 generator 0 zero_rng
    = Some (Ok (Printed "this movie is movie movie movie movie movie movie", st))
    /\ st_tokens_generated st = [3; 3; 3; 3; 3; 3]
    /\ st_start_tokens st = [2; 3; 4; 3; 3; 3; 3; 3; 3]
    /\ model_inputs st
       = [([2; 3; 4; 0], 2); ([2; 3; 4; 3], 3); ([2; 3; 4; 3], 3);
          ([2; 3; 4; 3], 3); ([2; 3; 4; 3], 3); ([2; 3; 4; 3], 3)].
Proof.
  eexists. unfold on_epoch_end.
  change (py_mod (0 + 1) (print_every generator)) with (@Ok Z 0).
  cbv beta iota. change (negb (0 =? 0)) with false. cbv beta iota.
  unfold initial_state.
  do 6 (rewrite while_loop_step by (simpl; unfold len; simpl; lia);
        rewrite worked_loop_body by reflexivity).
  rewrite while_loop_exit by (simpl; unfold len; simpl; lia).
  simpl. split; [reflexivity|]. split; [reflexivity|]. split; reflexivity.
Qed.

End Worked_facts.

(** * Further properties of the notebook's code *)

Example custom_standardization_example :
  Text.custom_standardization "Great movie!<br />Loved it, really."
  = "great movie ! loved it , really ."%string.
Proof. reflexivity. Qed.

Example custom_standardization_no_space_after :
  Text.custom_standardization "a,b" = "a ,b"%string.
Proof. reflexivity. Qed.

Example custom_standardization_backslash :
  Text.custom_standardization "a\b]c" = "a\b ]c"%string.
Proof. reflexivity. Qed.

Example split_example :
  Text.split "  this movie   is " = ["this"; "movie"; "is"]%string.
Proof. reflexivity. Qed.

(** ** Text standardization and splitting *)

Section Text_facts.
Import Text.

Lemma chars_append (s t : string) : chars (s ++ t) = chars s ++ chars t.
Proof. induction s as [|c s IH]; simpl; [done|]. by rewrite IH. Qed.

Lemma string_append_cons (c : ascii) (s t : string) :
  (String c s ++ t)%string = String c (s ++ t)%string.
Proof. reflexivity. Qed.

Lemma string_append_assoc (s t u : string) :
  ((s ++ t) ++ u)%string = (s ++ (t ++ u))%string.
Proof.
  induction s as [|c s IH]; [done|]. rewrite !string_append_cons. by rewrite IH.
Qed.

Lemma string_append_nil_r (s : string) : (s ++ EmptyString)%string = s.
Proof.
  induction s as [|c s IH]; [done|]. rewrite string_append_cons. by rewrite IH.
Qed.

(** The character class built from [string.punctuation] holds every
    punctuation character but the backslash, which the class syntax uses up
    to escape the closing bracket. *)
Lemma is_punctuation_eqb (c : ascii) :
  is_punctuation c
  = existsb (Ascii.eqb c) (chars punctuation) && negb (code c =? 92)%nat.
Proof. destruct c as [[] [] [] [] [] [] [] []]; vm_compute; reflexivity. Qed.

Lemma is_punctuation_spec (c : ascii) :
  is_punctuation c = true <-> In c (chars punctuation) /\ code c <> 92%nat.
Proof.
  rewrite is_punctuation_eqb, andb_true_iff, negb_true_iff, Nat.eqb_neq.
  rewrite existsb_exists. split.
  - intros [(d & Hd & Heq) Hne]. apply Ascii.eqb_eq in Heq. subst d. done.
  - intros [Hin Hne]. split; [|done]. exists c. split; [done|apply Ascii.eqb_refl].
Qed.

Lemma lower_char_not_upper (c : ascii) : is_upper (lower_char c) = false.
Proof. destruct c as [[] [] [] [] [] [] [] []]; reflexivity. Qed.

Lemma lower_chars (s : string) : Forall (fun c => is_upper c = false) (chars (lower s)).
Proof.
  induction s as [|c s IH]; simpl; constructor; [apply lower_char_not_upper|done].
Qed.

Lemma replace_from_chars (P : ascii -> Prop) (pat rep : string) (skip : nat) (s : string) :
  Forall P (chars rep) -> Forall P (chars s) ->
  Forall P (chars (replace_from pat rep skip s)).
Proof.
  intros Hrep. revert skip.
  induction s as [|c s IH]; intros skip Hs; cbn [replace_from]; [constructor|].
  change (chars (String c s)) with (c :: chars s) in Hs.
  apply Forall_cons in Hs as [Hc Hs].
  destruct skip as [|skip]; [|by apply IH].
  destruct (String.prefix pat (String c s)).
  - rewrite chars_append. apply Forall_app. split; [done|by apply IH].
  - change (chars (String c ?x)) with (c :: chars x). constructor; [done|by apply IH].
Qed.

Lemma pad_punctuation_chars (P : ascii -> Prop) (s : string) :
  P space -> Forall P (chars s) -> Forall P (chars (pad_punctuation s)).
Proof.
  intros Hsp. induction s as [|c s IH]; intros Hs; simpl; [constructor|].
  apply Forall_cons in Hs as [Hc Hs].
  destruct (is_punctuation c); simpl; repeat constructor; auto.
Qed.

(** X1.  The standardized text holds no capital letter A-Z. *)
Theorem custom_standardization_lowercase (input_string : string) (c : ascii) :
  In c (chars (custom_standardization input_string)) ->
  is_upper c = false.
Proof.
  intros Hin. unfold custom_standardization in Hin.
  assert (Forall (fun c => is_upper c = false)
            (chars (pad_punctuation
                      (replace_all "<br />" " " (lower input_string))))) as Hall.
  { apply pad_punctuation_chars; [reflexivity|].
    apply replace_from_chars; [repeat constructor|apply lower_chars]. }
  rewrite Forall_forall in Hall. apply Hall. by apply list_elem_of_In.
Qed.

Lemma custom_standardization_lowercase_witness :
  In "m"%char (chars (custom_standardization "A Movie"))
  /\ is_upper "m"%char = false.
Proof.
  assert (In "m"%char (chars (custom_standardization "A Movie"))) as Hin.
  { vm_compute. tauto. }
  split; [exact Hin|].
  exact (custom_standardization_lowercase "A Movie" "m"%char Hin).
Defined.

Lemma is_punctuation_space : is_punctuation space = false.
Proof. vm_compute. reflexivity. Qed.

Lemma pad_punctuation_cons (d : ascii) (s : string) :
  pad_punctuation (String d s)
  = if is_punctuation d then String space (String d (pad_punctuation s))
    else String d (pad_punctuation s).
Proof. reflexivity. Qed.

Lemma pad_punctuation_preceded (s : string) (i : nat) (c : ascii) :
  String.get i (pad_punctuation s) = Some c ->
  is_punctuation c = true ->
  exists j, i = S j /\ String.get j (pad_punctuation s) = Some space.
Proof.
  revert i. induction s as [|d s IH]; intros i Hget Hc; [done|].
  rewrite pad_punctuation_cons in *.
  destruct (is_punctuation d) eqn:Hd.
  - destruct i as [|[|i]]; cbn [String.get] in Hget |- *.
    + inversion Hget; subst c. rewrite is_punctuation_space in Hc. discriminate Hc.
    + exists 0%nat. done.
    + destruct (IH i Hget Hc) as (j & -> & Hj). exists (S (S j)). done.
  - destruct i as [|i]; cbn [String.get] in Hget |- *.
    + inversion Hget; subst c. congruence.
    + destruct (IH i Hget Hc) as (j & -> & Hj). exists (S j). done.
Qed.

(** X2.  In the standardized text every punctuation character the
    pattern matches (all of [string.punctuation] except the backslash) has
    a space right before it, so it never continues the token before it.
    Nothing is inserted after it. *)
Theorem custom_standardization_punctuation_spaced (input_string : string)
        (i : nat) (c : ascii) :
  String.get i (custom_standardization input_string) = Some c ->
  In c (chars punctuation) -> code c <> 92%nat ->
  exists j, i = S j
            /\ String.get j (custom_standardization input_string) = Some space.
Proof.
  intros Hget Hin Hne. unfold custom_standardization in *.
  eapply pad_punctuation_preceded; [exact Hget|].
  by apply is_punctuation_spec.
Qed.

Lemma custom_standardization_punctuation_spaced_witness :
  (String.get 5 (custom_standardization "Good!") = Some "!"%char
   /\ In "!"%char (chars punctuation) /\ code "!"%char <> 92%nat)
  /\ exists j, 5%nat = S j
               /\ String.get j (custom_standardization "Good!") = Some space.
Proof.
  assert (In "!"%char (chars punctuation)) as Hin by (vm_compute; tauto).
  assert (code "!"%char <> 92%nat) as Hne by (vm_compute; lia).
  split; [split; [reflexivity|split; [exact Hin|exact Hne]]|].
  exact (custom_standardization_punctuation_spaced "Good!" 5 "!"%char eq_refl Hin Hne).
Defined.

(** *** [str.split] *)

Lemma split_from_clean (cur s : string) :
  Forall (fun c => is_space c = false) (chars cur) ->
  Forall clean_word (split_from cur s).
Proof.
  revert cur. induction s as [|c s IH]; intros cur Hcur; cbn [split_from].
  - destruct cur; [constructor|]. constructor; [|constructor]. split; done.
  - destruct (is_space c) eqn:Hc.
    + destruct cur; [by apply IH|].
      constructor; [split; done|]. apply IH. constructor.
    + apply IH. rewrite chars_append. apply Forall_app. split; [done|].
      repeat constructor. done.
Qed.

(** X3.  [split] returns only non-empty words without whitespace, and
    nothing at all for a text made of whitespace only. *)
Theorem split_words_clean (s : string) :
  Forall clean_word (split s)
  /\ (Forall (fun c => is_space c = true) (chars s) -> split s = []).
Proof.
  split; [apply split_from_clean; constructor|].
  unfold split. induction s as [|c s IH]; intros Hs; [done|].
  change (chars (String c s)) with (c :: chars s) in Hs.
  apply Forall_cons in Hs as [Hc Hs]. cbn [split_from]. rewrite Hc. by apply IH.
Qed.

Lemma split_words_clean_witness :
  Forall (fun c => is_space c = true) (chars "   ")
  /\ split "   " = [].
Proof.
  assert (Forall (fun c => is_space c = true) (chars "   ")) as Hs.
  { repeat constructor. }
  split; [exact Hs|].
  destruct (split_words_clean "   ") as [_ Hempty]. exact (Hempty Hs).
Defined.

Lemma split_from_word (cur w rest : string) :
  Forall (fun c => is_space c = false) (chars w) ->
  split_from cur (w ++ rest) = split_from (cur ++ w) rest.
Proof.
  revert cur. induction w as [|c w IH]; intros cur Hw.
  - by rewrite string_append_nil_r.
  - change (chars (String c w)) with (c :: chars w) in Hw.
    apply Forall_cons in Hw as [Hc Hw].
    rewrite string_append_cons. cbn [split_from]. rewrite Hc, (IH _ Hw).
    by rewrite string_append_assoc.
Qed.

Lemma split_from_space (w rest : string) :
  w <> EmptyString ->
  split_from w (String space rest) = w :: split_from EmptyString rest.
Proof. intros Hw. cbn [split_from]. destruct w; done. Qed.

(** X4.  Splitting undoes joining: for non-empty words without
    whitespace, [" ".join(words).split()] is [words]. *)
Theorem split_join_roundtrip (words : list string) :
  Forall clean_word words ->
  split (String.concat " " words) = words.
Proof.
  unfold split. induction 1 as [|w ws [Hne Hw] Hws IH]; [done|].
  destruct ws as [|w2 ws].
  - cbn [String.concat]. rewrite <- (string_append_nil_r w) at 1.
    rewrite (split_from_word _ _ _ Hw). cbn [split_from].
    change (EmptyString ++ w)%string with w. destruct w; done.
  - change (String.concat " " (w :: w2 :: ws))
      with (w ++ String space (String.concat " " (w2 :: ws)))%string.
    rewrite (split_from_word _ _ _ Hw).
    change (EmptyString ++ w)%string with w.
    rewrite (split_from_space _ _ Hne). by rewrite IH.
Qed.

Lemma split_join_roundtrip_witness :
  Forall clean_word ["this"; "movie"; "is"]%string
  /\ split (String.concat " " ["this"; "movie"; "is"]) = ["this"; "movie"; "is"]%string.
Proof.
  assert (Forall clean_word ["this"; "movie"; "is"]%string) as Hws.
  { repeat constructor; discriminate. }
  split; [exact Hws|].
  exact (split_join_roundtrip _ Hws).
Defined.

End Text_facts.

(** ** The prompt *)

(** X5.  A prompt made of vocabulary words separated by single spaces
    is tokenized to one index per word, and detokenizing those indices
    gives the words back in order: the generated text starts with the
    prompt. *)
Theorem tokenize_prompt_roundtrip (self : TextGenerator.t) (vocab words : list string) :
  TextGenerator.index_to_word self = vocab ->
  Forall Text.clean_word words ->
  Forall (fun w => w ∈ vocab) words ->
  length (tokenize_prompt (build_word_to_index vocab) (String.concat " " words))
  = length words
  /\ rmap (TextGenerator.detokenize self)
          (tokenize_prompt (build_word_to_index vocab) (String.concat " " words))
     = Ok words.
Proof.
  intros Hvocab Hclean Hin. unfold tokenize_prompt.
  rewrite (split_join_roundtrip words Hclean). split; [by rewrite length_map|].
  clear Hclean. induction Hin as [|w ws Hw _ IH]; [done|].
  cbn [map rmap]. rewrite IH.
  unfold TextGenerator.detokenize, tokenize. rewrite Hvocab.
  pose proof (build_word_to_index_lookup vocab w) as Hlook.
  destruct (build_word_to_index vocab !! w) as [i|]; [|done].
  destruct Hlook as (n & -> & Hn). simpl.
  by rewrite (py_index_in_range vocab n w Hn).
Qed.

Lemma tokenize_prompt_roundtrip_witness :
  let words := ["this"; "movie"; "is"]%string in
  (TextGenerator.index_to_word Worked.generator = Worked.vocab
   /\ Forall Text.clean_word words
   /\ Forall (fun w => w ∈ Worked.vocab) words)
  /\ rmap (TextGenerator.detokenize Worked.generator)
          (tokenize_prompt (build_word_to_index Worked.vocab) "this movie is")
     = Ok words.
Proof.
  intros words.
  assert (Forall Text.clean_word words) as Hclean.
  { repeat constructor; discriminate. }
  assert (Forall (fun w => w ∈ Worked.vocab) words) as Hin.
  { repeat constructor; apply list_elem_of_In; vm_compute; tauto. }
  split; [split; [reflexivity|split; [exact Hclean|exact Hin]]|].
  apply (tokenize_prompt_roundtrip Worked.generator Worked.vocab words eq_refl Hclean Hin).
Defined.

Example tokenize_prompt_worked :
  tokenize_prompt (build_word_to_index Worked.vocab) "this film is" = [2; 1; 4].
Proof. vm_compute. reflexivity. Qed.

(** ** The vocabulary dictionary *)

(** X6.  The dictionary keeps the last index of a repeated word: a word
    at index [i] that does not occur again later is tokenized to [i].  On
    a vocabulary without repetitions tokenizing inverts indexing. *)
Theorem tokenize_last_occurrence (vocab : list string) (i : nat) (word : string) :
  vocab !! i = Some word ->
  (forall j, (i < j)%nat -> vocab !! j <> Some word) ->
  tokenize (build_word_to_index vocab) word = Z.of_nat i.
Proof.
  revert i. induction vocab as [|x vocab IH] using rev_ind; intros i Hi Hlast; [done|].
  unfold tokenize. rewrite build_word_to_index_snoc.
  destruct (decide (i < length vocab)%nat) as [Hlt|Hge].
  - rewrite lookup_app_l in Hi by done.
    assert (x <> word) as Hne.
    { intros ->. apply (Hlast (length vocab) Hlt).
      rewrite lookup_app_r by lia. by rewrite Nat.sub_diag. }
    rewrite lookup_insert_ne by done.
    apply (IH i Hi). intros j Hj Hj'. apply (Hlast j Hj).
    by apply lookup_app_l_Some.
  - pose proof (lookup_lt_Some _ _ _ Hi) as Hlen. rewrite length_app in Hlen.
    simpl in Hlen. assert (i = length vocab) as -> by lia.
    rewrite lookup_app_r in Hi by lia. rewrite Nat.sub_diag in Hi.
    simpl in Hi. inversion Hi; subst x.
    by rewrite lookup_insert_eq.
Qed.

Lemma tokenize_last_occurrence_witness :
  let vocab := ["a"; "b"; "a"; "c"]%string in
  (vocab !! 2%nat = Some "a"%string
   /\ (forall j, (2 < j)%nat -> vocab !! j <> Some "a"%string))
  /\ tokenize (build_word_to_index vocab) "a" = Z.of_nat 2.
Proof.
  intros vocab.
  assert (forall j, (2 < j)%nat -> vocab !! j <> Some "a"%string) as Hlast.
  { intros [|[|[|[|j]]]] Hj; try lia; discriminate. }
  split; [split; [reflexivity|exact Hlast]|].
  exact (tokenize_last_occurrence vocab 2 "a" eq_refl Hlast).
Defined.

(** ** Edge cases of the generation callback *)

Section callback_edge_cases.
Import TextGenerator.

(** X7.  The callback does nothing on an epoch whose number plus one is
    not a multiple of [print_every]: whatever the model and the fuel, it
    returns without a model call and without a random draw.  With
    [print_every = 0] it raises [ZeroDivisionError]. *)
Theorem on_epoch_end_skips (maxlen : Z) (fuel : nat) (self : t) (epoch : Z) (g : rng) :
  (print_every self = 0 ->
   on_epoch_end maxlen fuel self epoch g = Some (Raise ZeroDivisionError))
  /\ (print_every self <> 0 -> ~ (print_every self | epoch + 1) ->
      on_epoch_end maxlen fuel self epoch g = Some (Ok (Skipped, initial_state self g))
      /\ model_inputs (initial_state self g) = []
      /\ st_rng (initial_state self g) = g).
Proof.
  unfold on_epoch_end, py_mod. split.
  - intros ->. reflexivity.
  - intros Hne Hnd.
    destruct (Z.eqb_spec (print_every self) 0) as [?|_]; [done|].
    destruct (Z.eqb_spec ((epoch + 1) mod print_every self) 0) as [Hmod|_]; [|done].
    exfalso. apply Hnd. by apply Z.mod_divide.
Qed.

Lemma on_epoch_end_skips_witness :
  let self := mk 5 [2; 3; 4] Worked.vocab 3 2 Worked.constant_model in
  (print_every self <> 0 /\ ~ (print_every self | 0 + 1))
  /\ on_epoch_end 4 0 self 0 Worked.zero_rng
     = Some (Ok (Skipped, initial_state self Worked.zero_rng)).
Proof.
  intros self.
  assert (print_every self <> 0) as Hne by (simpl; lia).
  assert (~ (print_every self | 0 + 1)) as Hnd.
  { simpl. intros [q Hq]. lia. }
  split; [by split|].
  destruct (on_epoch_end_skips 4 0 self 0 Worked.zero_rng) as [_ Hskip].
  destruct (Hskip Hne Hnd) as [Hrun _]. exact Hrun.
Defined.

(** X8.  With a negative [max_tokens] the loop body never runs: on a
    printing epoch the callback prints the prompt alone, for any model and
    any fuel. *)
Theorem on_epoch_end_negative_max_tokens (maxlen : Z) (fuel : nat) (self : t)
        (epoch : Z) (g : rng) (words : list string) :
  max_tokens self < 0 ->
  print_every self <> 0 ->
  (print_every self | epoch + 1) ->
  rmap (detokenize self) (start_tokens self) = Ok words ->
  on_epoch_end maxlen fuel self epoch g
  = Some (Ok (Printed (String.concat " " words), initial_state self g)).
Proof.
  intros Hneg Hne Hdiv Hwords. unfold on_epoch_end, py_mod.
  destruct (Z.eqb_spec (print_every self) 0) as [?|_]; [done|].
  apply Z.mod_divide in Hdiv; [|done]. rewrite Hdiv. simpl.
  rewrite (while_loop_exit maxlen self fuel (initial_state self g)) by (simpl; lia).
  simpl. rewrite app_nil_r, Hwords. reflexivity.
Qed.

Lemma on_epoch_end_negative_max_tokens_witness :
  let self := mk (-1) [2; 3; 4] Worked.vocab 1 2 Worked.constant_model in
  (max_tokens self < 0 /\ print_every self <> 0 /\ (print_every self | 0 + 1)
   /\ rmap (detokenize self) (start_tokens self) = Ok ["this"; "movie"; "is"]%string)
  /\ on_epoch_end 4 0 self 0 Worked.zero_rng
     = Some (Ok (Printed "this movie is", initial_state self Worked.zero_rng)).
Proof.
  intros self.
  assert (max_tokens self < 0) as Hneg by (simpl; lia).
  assert (print_every self <> 0) as Hne by (simpl; lia).
  assert (print_every self | 0 + 1) as Hdiv by (exists 1; reflexivity).
  split; [split; [exact Hneg|split; [exact Hne|split; [exact Hdiv|reflexivity]]]|].
  exact (on_epoch_end_negative_max_tokens 4 0 self 0 Worked.zero_rng
           ["this"; "movie"; "is"]%string Hneg Hne Hdiv eq_refl).
Defined.

(** What a successful iteration leaves behind. *)
Lemma loop_body_inversion (maxlen : Z) (self : t) (st st' : loop_state) :
  loop_body maxlen self st = Ok st' ->
  exists tok,
    st' = {| st_start_tokens := st_start_tokens st ++ [tok];
             st_tokens_generated := st_tokens_generated st ++ [tok];
             st_num_tokens_generated := len (st_tokens_generated st ++ [tok]);
             st_rng := (random_sample (st_rng st)).2;
             model_inputs := model_inputs st ++ [prepare_input maxlen (st_start_tokens st)] |}.
Proof.
  unfold loop_body.
  destruct (prepare_input maxlen (st_start_tokens st)) as [x si].
  destruct (model self [x]) as [y hidden].
  destruct (py_index y 0) as [y0|]; [|done]. simpl.
  destruct (py_index y0 si) as [logits|]; [|done]. simpl.
  unfold sample_from.
  destruct (top_k logits (k self)) as [[vals idxs]|]; [|done]. simpl.
  unfold random_choice.
  destruct (length idxs =? 0)%nat; [done|].
  destruct (negb (length (softmax1 vals) =? length idxs)%nat); [done|]. simpl.
  destruct (py_index idxs _) as [tok|]; [|done]. simpl.
  intros Heq. inversion Heq. by exists tok.
Qed.

(** X9.  A completed run of the loop consumes exactly one uniform draw per
    generated token and appends the same tokens to [start_tokens] and to
    [tokens_generated], whatever the model returns. *)
Theorem while_loop_one_draw_per_token (maxlen : Z) (fuel : nat) (self : t)
        (st st' : loop_state) :
  while_loop maxlen fuel self st = Some (Ok st') ->
  exists new,
    st_tokens_generated st' = st_tokens_generated st ++ new
    /\ st_start_tokens st' = st_start_tokens st ++ new
    /\ length (model_inputs st') = (length (model_inputs st) + length new)%nat
    /\ forall i, st_rng st' i = st_rng st (i + length new)%nat.
Proof.
  revert st. induction fuel as [|fuel IH]; intros st Hrun; simpl in Hrun.
  - destruct (st_num_tokens_generated st <=? max_tokens self); [done|].
    inversion Hrun; subst st'. exists []. rewrite !app_nil_r. simpl.
    repeat split; try done; try lia. intros i. f_equal. lia.
  - destruct (st_num_tokens_generated st <=? max_tokens self).
    + destruct (loop_body maxlen self st) as [st1|] eqn:Hbody; [|done].
      apply loop_body_inversion in Hbody as (tok & ->).
      destruct (IH _ Hrun) as (new & Hgen & Hstart & Hlog & Hrng). simpl in *.
      exists (tok :: new). rewrite Hgen, Hstart, Hlog, length_app. simpl.
      rewrite <- !app_assoc. simpl. repeat split; try done; try lia.
      intros i. rewrite Hrng. f_equal. lia.
    + inversion Hrun; subst st'. exists []. rewrite !app_nil_r. simpl.
      repeat split; try done; try lia. intros i. f_equal. lia.
Qed.

Lemma while_loop_one_draw_per_token_witness :
  exists st',
    while_loop 4 10 Worked.generator (initial_state Worked.generator Worked.zero_rng)
    = Some (Ok st')
    /\ exists new,
         st_tokens_generated st' = [] ++ new
         /\ st_start_tokens st' = [2; 3; 4] ++ new
         /\ length (model_inputs st') = (0 + length new)%nat
         /\ forall i, st_rng st' i = Worked.zero_rng (i + length new)%nat.
Proof.
  destruct (while_loop_inv 4 Worked.generator 5 ltac:(lia)) with
    (fuel := 10%nat) (st := initial_state Worked.generator Worked.zero_rng)
    as (st' & Hrun & _).
  - intros x _. simpl. repeat (split || constructor).
  - simpl. lia.
  - apply initial_state_inv. intros n. unfold Worked.zero_rng. lra.
  - simpl. lia.
  - exists st'. split; [exact Hrun|].
    exact (while_loop_one_draw_per_token 4 10 Worked.generator _ st' Hrun).
Defined.

(** With a model of the right shape, an iteration is: sample from one
    row of [vocab_size] logits, append the token. *)
Lemma loop_body_sample (maxlen : Z) (self : t) (vocab_size : nat) (st : loop_state) :
  1 <= maxlen -> model_ok maxlen self vocab_size ->
  exists logits,
    length logits = vocab_size
    /\ loop_body maxlen self st
       = rbind (sample_from self logits (st_rng st))
           (fun r =>
              Ok {| st_start_tokens := st_start_tokens st ++ [r.1];
                    st_tokens_generated := st_tokens_generated st ++ [r.1];
                    st_num_tokens_generated := len (st_tokens_generated st ++ [r.1]);
                    st_rng := r.2;
                    model_inputs :=
                      model_inputs st ++ [prepare_input maxlen (st_start_tokens st)] |}).
Proof.
  intros Hmaxlen Hmodel. unfold loop_body.
  destruct (prepare_input_spec maxlen (st_start_tokens st)) as (Hxlen & _); [lia|].
  pose proof (prepare_input_sample_index maxlen (st_start_tokens st) Hmaxlen) as Hsi.
  destruct (prepare_input maxlen (st_start_tokens st)) as [x si]. simpl in Hxlen, Hsi.
  pose proof (Hmodel x Hxlen) as Hy.
  destruct (model self [x]) as [y hidden]. simpl in Hy. destruct Hy as [Hylen Hyall].
  destruct y as [|y0 [|? ?]]; simpl in Hylen; try lia.
  apply Forall_inv in Hyall. destruct Hyall as [Hy0len Hy0all].
  change (py_index [y0] 0) with (Ok y0). simpl.
  destruct (py_index_ok y0 si) as (logits & -> & Hlogits); [unfold len; lia|]. simpl.
  rewrite Forall_forall in Hy0all. exists logits. split; [by apply Hy0all|].
  destruct (sample_from self logits (st_rng st)) as [[tok g']|]; reflexivity.
Qed.

(** X10.  A [top_k] outside [1, vocab_size] makes the first iteration
    fail: on a printing epoch with [max_tokens >= 0] the callback raises
    an [InvalidArgumentError] (from [tf.math.top_k]) for [k < 0] or
    [k > vocab_size], and a [ValueError] (from [np.random.choice], whose
    population is empty) for [k = 0]. *)
Theorem on_epoch_end_bad_top_k (maxlen : Z) (fuel : nat) (self : t)
        (vocab_size : nat) (epoch : Z) (g : rng) :
  1 <= maxlen -> model_ok maxlen self vocab_size ->
  print_every self <> 0 -> (print_every self | epoch + 1) ->
  0 <= max_tokens self -> (0 < fuel)%nat ->
  (k self < 0 \/ Z.of_nat vocab_size < k self ->
   exists msg,
     on_epoch_end maxlen fuel self epoch g = Some (Raise (InvalidArgumentError msg)))
  /\ (k self = 0 ->
      exists msg,
        on_epoch_end maxlen fuel self epoch g = Some (Raise (ValueError msg))).
Proof.
  intros Hmaxlen Hmodel Hne Hdiv Hmax Hfuel.
  destruct fuel as [|fuel]; [lia|].
  destruct (loop_body_sample maxlen self vocab_size (initial_state self g) Hmaxlen Hmodel)
    as (logits & Hlen & Hbody).
  assert (forall e, sample_from self logits g = Raise e ->
            on_epoch_end maxlen (S fuel) self epoch g = Some (Raise e)) as Hraise.
  { intros e He. unfold on_epoch_end, py_mod.
    destruct (Z.eqb_spec (print_every self) 0) as [?|_]; [done|].
    apply Z.mod_divide in Hdiv; [|done]. rewrite Hdiv. simpl negb. cbv iota.
    rewrite while_loop_step by (simpl; lia).
    rewrite Hbody. simpl st_rng. rewrite He. reflexivity. }
  split.
  - intros Hk. eexists. apply Hraise. unfold sample_from, top_k, len. rewrite Hlen.
    destruct (Z.ltb_spec (k self) 0) as [?|?]; [reflexivity|].
    destruct (Z.ltb_spec (Z.of_nat vocab_size) (k self)) as [?|?]; [reflexivity|lia].
  - intros Hk. eexists. apply Hraise. unfold sample_from, top_k, len. rewrite Hlen, Hk.
    destruct (Z.ltb_spec (Z.of_nat vocab_size) 0) as [?|?]; [lia|]. reflexivity.
Qed.

Lemma on_epoch_end_bad_top_k_witness :
  let self := mk 5 [2; 3; 4] Worked.vocab 1 10 Worked.constant_model in
  (1 <= 4 /\ model_ok 4 self 5 /\ print_every self <> 0
   /\ (print_every self | 0 + 1) /\ 0 <= max_tokens self /\ (0 < 1)%nat
   /\ (k self < 0 \/ Z.of_nat 5 < k self))
  /\ exists msg,
       on_epoch_end 4 1 self 0 Worked.zero_rng = Some (Raise (InvalidArgumentError msg)).
Proof.
  intros self.
  assert (model_ok 4 self 5) as Hmodel.
  { intros x _. simpl. repeat (split || constructor). }
  assert (print_every self | 0 + 1) as Hdiv by (exists 1; reflexivity).
  assert (k self < 0 \/ Z.of_nat 5 < k self) as Hk by (right; simpl; lia).
  split.
  { split; [lia|]. split; [exact Hmodel|]. split; [simpl; lia|].
    split; [exact Hdiv|]. split; [simpl; lia|]. split; [lia|exact Hk]. }
  destruct (on_epoch_end_bad_top_k 4 1 self 5 0 Worked.zero_rng
              ltac:(lia) Hmodel ltac:(simpl; lia) Hdiv ltac:(simpl; lia) ltac:(lia))
    as [Hbad _].
  exact (Hbad Hk).
Defined.

(** X11.  With an empty prompt the first model input is all padding and
    [sample_index] is [-1]: the first token is sampled from the logits of
    the last position of the context, not of the first. *)
Theorem empty_prompt_samples_last_position (maxlen : Z) (self : t) (st : loop_state)
        (y0 : tensor2) (hidden : tensor3) (logits : tensor1) :
  1 <= maxlen ->
  st_start_tokens st = [] ->
  model self [replicate (Z.to_nat maxlen) 0] = ([y0], hidden) ->
  len y0 = maxlen ->
  y0 !! Z.to_nat (maxlen - 1) = Some logits ->
  prepare_input maxlen (st_start_tokens st) = (replicate (Z.to_nat maxlen) 0, -1)
  /\ loop_body maxlen self st
     = rbind (sample_from self logits (st_rng st))
         (fun r =>
            Ok {| st_start_tokens := [r.1];
                  st_tokens_generated := st_tokens_generated st ++ [r.1];
                  st_num_tokens_generated := len (st_tokens_generated st ++ [r.1]);
                  st_rng := r.2;
                  model_inputs :=
                    model_inputs st ++ [(replicate (Z.to_nat maxlen) 0, -1)] |}).
Proof.
  intros Hmaxlen Hempty Hmodel Hlen Hlast.
  assert (prepare_input maxlen [] = (replicate (Z.to_nat maxlen) 0, -1)) as Hprep.
  { destruct (prepare_input_spec maxlen []) as (_ & _ & _ & Hshort);
      [lia|]. rewrite Hshort by (unfold len; simpl; lia).
    unfold len. simpl. do 2 f_equal. lia. }
  split; [by rewrite Hempty|].
  unfold loop_body. rewrite Hempty, Hprep, Hmodel.
  change (py_index [y0] 0) with (Ok y0). simpl rbind.
  assert (py_index y0 (-1) = Ok logits) as ->.
  { unfold py_index. fold (len y0). rewrite Hlen.
    destruct (Z.ltb_spec (-1) 0) as [_|?]; [|lia].
    destruct (Z.leb_spec 0 (-1 + maxlen)) as [_|?]; [|lia].
    destruct (Z.ltb_spec (-1 + maxlen) maxlen) as [_|?]; [|lia]. simpl.
    replace (-1 + maxlen) with (maxlen - 1) by lia. by rewrite Hlast. }
  simpl rbind.
  destruct (sample_from self logits (st_rng st)) as [[tok g']|]; reflexivity.
Qed.

Lemma empty_prompt_samples_last_position_witness :
  let model (x : list (list Z)) : tensor3 * tensor3 :=
    ([[[1; 0]; [0; 1]; [5; 6]]%R], []) in
  let self := mk 5 [] ["a"; "b"]%string 1 1 model in
  let st := initial_state self Worked.zero_rng in
  (1 <= 3 /\ st_start_tokens st = []
   /\ model [replicate (Z.to_nat 3) 0] = ([[[1; 0]; [0; 1]; [5; 6]]%R], [])
   /\ len [[1; 0]; [0; 1]; [5; 6]]%R = 3
   /\ [[1; 0]; [0; 1]; [5; 6]]%R !! Z.to_nat (3 - 1) = Some [5; 6]%R)
  /\ prepare_input 3 (st_start_tokens st) = (replicate (Z.to_nat 3) 0, -1).
Proof.
  intros model self st.
  split; [split; [lia|repeat split; reflexivity]|].
  apply (empty_prompt_samples_last_position 3 self st
           [[1; 0]; [0; 1]; [5; 6]]%R [] [5; 6]%R); try reflexivity. lia.
Defined.

(** X12.  The context window never slides.  In a run of the loop, every
    model input from the moment the accumulated tokens fill the context is
    the same pair: the first [maxlen] tokens, sampled at [maxlen - 1]. *)
Theorem full_context_inputs_constant (maxlen : Z) (self : t) (vocab_size : nat)
        (g : rng) (fuel : nat) :
  1 <= maxlen ->
  model_ok maxlen self vocab_size ->
  1 <= k self <= Z.of_nat vocab_size ->
  (forall n, 0 <= g n < 1)%R ->
  (Z.to_nat (max_tokens self + 1) <= fuel)%nat ->
  exists st,
    while_loop maxlen fuel self (initial_state self g) = Some (Ok st)
    /\ forall n e,
         model_inputs st !! n = Some e ->
         maxlen <= len (start_tokens self) + Z.of_nat n ->
         e = (take (Z.to_nat maxlen) (st_start_tokens st), maxlen - 1).
Proof.
  intros Hmaxlen Hmodel Hk Hg Hfuel.
  destruct (while_loop_inv maxlen self vocab_size Hmaxlen Hmodel Hk fuel
              (initial_state self g) (initial_state_inv maxlen self vocab_size g Hg))
    as (st & Hrun & Hinv & _); [simpl; lia|].
  destruct Hinv as (Hstart & _ & Hlog & _ & _ & Hinputs).
  exists st. split; [done|]. intros n e Hn Hfull.
  rewrite (Hinputs n e Hn).
  set (seen := take (length (start_tokens self) + n) (st_start_tokens st)).
  assert (length seen = (length (start_tokens self) + n)%nat) as Hseen.
  { unfold seen. rewrite length_take, Hstart, length_app, <- Hlog.
    apply lookup_lt_Some in Hn. lia. }
  destruct (prepare_input_spec maxlen seen) as (_ & Hx & Hlong & Hshort); [lia|].
  unfold len in *.
  assert (take (Z.to_nat maxlen) seen = take (Z.to_nat maxlen) (st_start_tokens st)) as Htake.
  { unfold seen. rewrite take_take. f_equal. lia. }
  destruct (decide (maxlen < Z.of_nat (length seen))) as [Hgt|Hle].
  - rewrite (Hlong Hgt). by rewrite Htake.
  - rewrite Hshort by lia.
    assert (Z.of_nat (length seen) = maxlen) as Heq by lia.
    rewrite Heq, Z.sub_diag. simpl. rewrite app_nil_r.
    rewrite <- Htake, take_ge by lia. done.
Qed.

Lemma full_context_inputs_constant_witness :
  let self := Worked.generator in
  let g := Worked.zero_rng in
  (1 <= 4 /\ model_ok 4 self 5 /\ 1 <= k self <= Z.of_nat 5
   /\ (forall n, 0 <= g n < 1)%R
   /\ (Z.to_nat (max_tokens self + 1) <= 6)%nat)
  /\ exists st,
       while_loop 4 6 self (initial_state self g) = Some (Ok st)
       /\ forall n e,
            model_inputs st !! n = Some e ->
            4 <= len (start_tokens self) + Z.of_nat n ->
            e = (take (Z.to_nat 4) (st_start_tokens st), 4 - 1).
Proof.
  intros self g.
  assert (model_ok 4 self 5) as Hmodel.
  { intros x _. simpl. repeat (split || constructor). }
  assert (forall n, 0 <= g n < 1)%R as Hg.
  { intros n. unfold g, Worked.zero_rng. lra. }
  assert (1 <= k self <= Z.of_nat 5) as Hk by (simpl; lia).
  split.
  { split; [lia|]. split; [exact Hmodel|]. split; [exact Hk|]. split; [exact Hg|].
    simpl. lia. }
  apply (full_context_inputs_constant 4 self 5 g 6); simpl; try done; lia.
Defined.

End callback_edge_cases.

(** ** Separating and recombining the heads *)

Section heads.
Import MultiHeadSelfAttention.

Lemma call_recombine (self : t) (w : sublayers) (inputs : tensor3) :
  call self w inputs
  = combine_heads_call w
      (recombine_heads self
         (attention (separate_heads self (query_dense_call w inputs) (len inputs))
                    (separate_heads self (key_dense_call w inputs) (len inputs))
                    (separate_heads self (value_dense_call w inputs) (len inputs))).1
         (len inputs)).
Proof. reflexivity. Qed.

Lemma concat_map_concat {A : Type} (l : list (list (list A))) :
  concat (map (@concat A) l) = concat (concat l).
Proof.
  induction l as [|x l IH]; simpl; [done|]. by rewrite concat_app, IH.
Qed.

Lemma drop_concat_rows {A : Type} (m : list (list A)) (d i : nat) :
  Forall (fun r => length r = d) m ->
  drop (i * d) (concat m) = concat (drop i m).
Proof.
  intros Hm. revert i. induction Hm as [|r m Hr _ IH]; intros i; simpl.
  - by rewrite !drop_nil.
  - destruct i as [|i]; simpl; [done|].
    rewrite drop_app_add' by done. apply IH.
Qed.

Lemma take_concat_rows {A : Type} (m : list (list A)) (d k : nat) :
  Forall (fun r => length r = d) m ->
  take (k * d) (concat m) = concat (take k m).
Proof.
  intros Hm. revert k. induction Hm as [|r m Hr _ IH]; intros k; simpl.
  - by rewrite !take_nil.
  - destruct k as [|k]; simpl; [done|].
    rewrite take_app_add' by done. by rewrite IH.
Qed.

(** A slice inside row [i] of a matrix, read from its flattening. *)
Lemma slice_of_concat {A : Type} (m : list (list A)) (d i off p : nat) (row : list A) :
  Forall (fun r => length r = d) m ->
  m !! i = Some row -> (off + p <= d)%nat ->
  take p (drop (i * d + off) (concat m)) = take p (drop off row).
Proof.
  intros Hm Hi Hle.
  rewrite <- drop_drop, (drop_concat_rows m d i Hm), (drop_S _ _ _ Hi). simpl.
  assert (length row = d) as Hrow.
  { rewrite Forall_lookup in Hm. by apply (Hm i). }
  rewrite drop_app_le by lia.
  rewrite take_app_le; [done|]. rewrite length_drop. lia.
Qed.

Lemma lookup_concat_rows {A : Type} (x : list (list A)) (n b i : nat) :
  Forall (fun r => length r = n) x -> (i < n)%nat ->
  concat x !! (b * n + i)%nat = match x !! b with Some r => r !! i | None => None end.
Proof.
  intros Hx Hi. revert b. induction Hx as [|r x Hr _ IH]; intros b; simpl.
  - by rewrite !lookup_nil.
  - destruct b as [|b]; simpl.
    + rewrite lookup_app_l by lia. done.
    + rewrite lookup_app_r by lia.
      replace (n + b * n + i - length r)%nat with (b * n + i)%nat by lia. apply IH.
Qed.

Lemma flatten3_rows (x : tensor3) (b n e : nat) :
  has_shape3 x b n e -> Forall (fun r => length r = e) (concat x).
Proof. intros Hx. by destruct (concat_shape3 x b n e Hx). Qed.

(** Row [ib][i] of a tensor, read from the row-major list of its entries. *)
Lemma slice_of_flatten3 (x : tensor3) (b n e ib i off p : nat) (row : tensor1) :
  has_shape3 x b n e ->
  row3 x ib i = Some row -> (off + p <= e)%nat ->
  take p (drop ((ib * n + i) * e + off) (flatten3 x)) = take p (drop off row).
Proof.
  intros Hx Hrow Hle. unfold flatten3.
  apply (slice_of_concat (concat x) e (ib * n + i) off p row);
    [by eapply flatten3_rows| |done].
  unfold row3 in Hrow. destruct (x !! ib) as [xb|] eqn:Exb; [|done].
  destruct Hx as [_ Hall].
  assert (i < n)%nat as Hi.
  { rewrite Forall_lookup in Hall. destruct (Hall _ _ Exb) as [<- _].
    by apply lookup_lt_Some in Hrow. }
  rewrite (lookup_concat_rows x n ib i); [by rewrite Exb|
    eapply Forall_impl; [exact Hall|]; by intros ? [? _] | done].
Qed.

(** X13.  Head [h] sees, at every position, the [h]-th block of
    [projection_dim] consecutive coordinates of the embedding vector:
    [separate_heads(x)[b][h][n] = x[b][n][h*P : (h+1)*P]]. *)
Theorem separate_heads_slices (self : t) (x : tensor3) (B N E H P b h n : nat)
        (row : tensor1) :
  num_heads self = Z.of_nat H ->
  projection_dim self = Z.of_nat P ->
  E = (H * P)%nat -> (0 < P)%nat ->
  has_shape3 x B N E ->
  row3 x b n = Some row -> (h < H)%nat ->
  row4 (separate_heads self x (Z.of_nat B)) b h n = Some (take P (drop (h * P) row)).
Proof.
  intros HH HP HE HPpos Hx Hrow Hh.
  assert (b < B)%nat as Hb.
  { unfold row3 in Hrow. destruct (x !! b) eqn:Exb; [|done].
    destruct Hx as [<- _]. by apply lookup_lt_Some in Exb. }
  assert (n < N)%nat as Hn.
  { unfold row3 in Hrow. destruct (x !! b) as [xb|] eqn:Exb; [|done].
    destruct Hx as [_ Hall]. rewrite Forall_lookup in Hall.
    destruct (Hall _ _ Exb) as [<- _]. by apply lookup_lt_Some in Hrow. }
  unfold separate_heads. rewrite HH, HP, !Nat2Z.id.
  rewrite (flatten3_length x B N E Hx).
  destruct B as [|B']; [lia|].
  replace (S B' * N * E / (S B' * H * P))%nat with N.
  2:{ subst E. replace (S B' * N * (H * P))%nat with (N * (S B' * H * P))%nat by lia.
      rewrite Nat.div_mul; [done|].
      assert (0 < S B' * H * P)%nat by (repeat apply Nat.mul_pos_pos; lia). lia. }
  unfold row4, transpose_0213, reshape4.
  rewrite !list_lookup_fmap, lookup_seq_lt by done. simpl.
  rewrite !list_lookup_fmap, lookup_seq_lt by done. simpl.
  rewrite !list_lookup_fmap, lookup_seq_lt by done. simpl.
  f_equal.
  erewrite nth_lookup_Some; [|by rewrite list_lookup_fmap, lookup_seq_lt by done].
  simpl.
  replace (((b * N + n) * H + h) * P)%nat with ((b * N + n) * E + h * P)%nat
    by (subst E; lia).
  apply (slice_of_flatten3 x (S B') N E b n (h * P) P row Hx Hrow).
  subst E. nia.
Qed.

Lemma separate_heads_slices_witness :
  let self := mk 4 2 2 (layers.mk_Dense 4 layers.linear) (layers.mk_Dense 4 layers.linear) (layers.mk_Dense 4 layers.linear) (layers.mk_Dense 4 layers.linear) in
  let x : tensor3 := [[[1; 2; 3; 4]; [5; 6; 7; 8]]]%R in
  (num_heads self = Z.of_nat 2 /\ projection_dim self = Z.of_nat 2
   /\ 4%nat = (2 * 2)%nat /\ (0 < 2)%nat /\ has_shape3 x 1 2 4
   /\ row3 x 0 1 = Some [5; 6; 7; 8]%R /\ (1 < 2)%nat)
  /\ row4 (separate_heads self x (Z.of_nat 1)) 0 1 1
     = Some (take 2 (drop (1 * 2) [5; 6; 7; 8]%R)).
Proof.
  intros self x.
  assert (has_shape3 x 1 2 4) as Hx by (repeat (split || constructor)).
  split.
  { split; [reflexivity|]. split; [reflexivity|]. split; [reflexivity|].
    split; [lia|]. split; [exact Hx|]. split; [reflexivity|lia]. }
  apply (separate_heads_slices self x 1 2 4 2 2 0 1 1 [5; 6; 7; 8]%R);
    try reflexivity; try lia. exact Hx.
Defined.

Lemma map_nth_seq_id {A : Type} (l : list A) (d : A) :
  map (fun i => nth i l d) (seq 0 (length l)) = l.
Proof.
  apply list_eq. intros i. rewrite list_lookup_fmap.
  destruct (decide (i < length l)%nat) as [Hlt|Hge].
  - rewrite lookup_seq_lt by done. simpl.
    destruct (lookup_lt_is_Some_2 l i Hlt) as [x Hx].
    by rewrite Hx, (nth_lookup_Some l i d x Hx).
  - rewrite lookup_seq_ge by lia. simpl. symmetry. apply lookup_ge_None. lia.
Qed.

Lemma map_seq_ext {A : Type} (f g : nat -> A) (n : nat) :
  (forall i, (i < n)%nat -> f i = g i) -> map f (seq 0 n) = map g (seq 0 n).
Proof. intros Hfg. apply map_ext_in. intros i Hi. apply in_seq in Hi. apply Hfg. lia. Qed.

Lemma map_id_Forall {A : Type} (f : A -> A) (l : list A) :
  Forall (fun x => f x = x) l -> map f l = l.
Proof. induction 1 as [|x l Hx _ IH]; simpl; [done|]. by rewrite Hx, IH. Qed.

(** Transposing twice gives the tensor back. *)
Lemma transpose_0213_involutive (t : tensor4) (b m h p : nat) :
  has_shape4 t b m h p -> transpose_0213 m (transpose_0213 h t) = t.
Proof.
  intros [_ Hall]. unfold transpose_0213. rewrite map_map. apply map_id_Forall.
  eapply Forall_impl; [exact Hall|]. intros tb [Hm Hmall]. simpl.
  transitivity (map (fun i => nth i tb []) (seq 0 m));
    [|rewrite <- Hm; apply map_nth_seq_id].
  apply map_seq_ext. intros i Hi. rewrite map_map.
  destruct (lookup_lt_is_Some_2 tb i ltac:(lia)) as [item Hitem].
  rewrite (nth_lookup_Some tb i [] item Hitem).
  rewrite Forall_lookup in Hmall. destruct (Hmall _ _ Hitem) as [Hh _].
  transitivity (map (fun j => nth j item []) (seq 0 h));
    [|rewrite <- Hh; apply map_nth_seq_id].
  apply map_seq_ext. intros j Hj.
  apply nth_lookup_Some. by rewrite list_lookup_fmap, Hitem.
Qed.

(** Consecutive chunks of width [p] concatenate to one slice. *)
Lemma chunks_concat {A : Type} (l : list A) (p base k : nat) :
  concat (map (fun i => take p (drop ((base + i) * p) l)) (seq 0 k))
  = take (k * p) (drop (base * p) l).
Proof.
  induction k as [|k IH]; [done|].
  rewrite seq_S, map_app, concat_app, IH. simpl. rewrite app_nil_r.
  replace ((base + k) * p)%nat with (base * p + k * p)%nat by lia.
  rewrite <- drop_drop, take_take_drop. f_equal. lia.
Qed.

Lemma flatten4_nested (t : tensor4) :
  flatten4 t = concat (map (fun tb => concat (map (@concat R) tb)) t).
Proof.
  unfold flatten4.
  rewrite <- (concat_map_concat (concat t)), concat_map, <- concat_map_concat, map_map.
  reflexivity.
Qed.

(** Flattening a reshaped list gives its first [b * m * h * p] entries. *)
Lemma flatten4_reshape4 (flat : list R) (b m h p : nat) :
  flatten4 (reshape4 flat b m h p) = take (b * (m * (h * p))) flat.
Proof.
  rewrite flatten4_nested. unfold reshape4. rewrite map_map.
  transitivity
    (concat (map (fun ib => take (m * (h * p)) (drop ((0 + ib) * (m * (h * p))) flat))
                 (seq 0 b))).
  2:{ rewrite chunks_concat. simpl. by rewrite drop_0. }
  f_equal. apply map_ext. intros ib. rewrite map_map.
  transitivity
    (concat (map (fun im => take (h * p) (drop ((ib * m + im) * (h * p)) flat))
                 (seq 0 m))).
  2:{ rewrite chunks_concat. f_equal. f_equal. lia. }
  f_equal. apply map_ext. intros im.
  rewrite (chunks_concat flat p ((ib * m + im) * h) h). f_equal. f_equal. lia.
Qed.

(** Reshaping the flattened entries to the original shape is the
    identity. *)
Lemma reshape3_flatten3 (x : tensor3) (b n e : nat) :
  has_shape3 x b n e -> reshape3 (flatten3 x) b n e = x.
Proof.
  intros Hx. pose proof Hx as [Hb Hall]. unfold reshape3.
  transitivity (map (fun ib => nth ib x []) (seq 0 b));
    [|rewrite <- Hb; apply map_nth_seq_id].
  apply map_seq_ext. intros ib Hib.
  destruct (lookup_lt_is_Some_2 x ib ltac:(lia)) as [xb Hxb].
  rewrite (nth_lookup_Some x ib [] xb Hxb).
  rewrite Forall_lookup in Hall. destruct (Hall _ _ Hxb) as [Hn Hrows].
  transitivity (map (fun i => nth i xb []) (seq 0 n));
    [|rewrite <- Hn; apply map_nth_seq_id].
  apply map_seq_ext. intros i Hi.
  destruct (lookup_lt_is_Some_2 xb i ltac:(lia)) as [row Hrow].
  rewrite (nth_lookup_Some xb i [] row Hrow).
  assert (row3 x ib i = Some row) as Hr3 by (unfold row3; by rewrite Hxb).
  replace ((ib * n + i) * e)%nat with ((ib * n + i) * e + 0)%nat by lia.
  rewrite (slice_of_flatten3 x b n e ib i 0 e row Hx Hr3) by lia.
  rewrite drop_0, take_ge; [done|].
  rewrite Forall_lookup in Hrows. rewrite (Hrows _ _ Hrow). lia.
Qed.

(** X14.  The recombination at the end of [call] undoes [separate_heads]:
    transposing back and reshaping to (batch_size, -1, embed_dim) gives
    the tensor the heads were cut from. *)
Theorem recombine_separate_heads (self : t) (x : tensor3) (B N E H P : nat) :
  embed_dim self = Z.of_nat E ->
  num_heads self = Z.of_nat H ->
  projection_dim self = Z.of_nat P ->
  E = (H * P)%nat -> (0 < H)%nat -> (0 < P)%nat ->
  has_shape3 x B N E ->
  recombine_heads self (separate_heads self x (Z.of_nat B)) (Z.of_nat B) = x.
Proof.
  intros HE HH HP Hsplit HHpos HPpos Hx.
  destruct B as [|B'].
  { destruct Hx as [Hlen _]. destruct x; [|done]. reflexivity. }
  pose proof (separate_heads_shape self E H P HE HH HP Hsplit HHpos HPpos x (S B') N Hx) as Hsep.
  unfold recombine_heads.
  destruct (has_shape4_dims _ _ _ _ _ Hsep ltac:(lia) HHpos) as [-> _].
  rewrite HE, !Nat2Z.id.
  unfold separate_heads in *. rewrite HH, HP, !Nat2Z.id in *.
  rewrite (flatten3_length x (S B') N E Hx) in *.
  replace (S B' * N * E / (S B' * H * P))%nat with N in *.
  2:{ subst E. replace (S B' * N * (H * P))%nat with (N * (S B' * H * P))%nat by lia.
      rewrite Nat.div_mul; [done|].
      assert (0 < S B' * H * P)%nat by (repeat apply Nat.mul_pos_pos; lia). lia. }
  assert (has_shape4 (reshape4 (flatten3 x) (S B') N H P) (S B') N H P) as Hr4.
  { apply reshape4_shape. rewrite (flatten3_length x (S B') N E Hx). subst E. lia. }
  rewrite (transpose_0213_involutive _ _ _ _ _ Hr4).
  rewrite flatten4_reshape4.
  rewrite take_ge by (rewrite (flatten3_length x (S B') N E Hx); subst E; lia).
  rewrite (flatten3_length x (S B') N E Hx).
  replace (S B' * N * E / (S B' * E))%nat with N.
  2:{ replace (S B' * N * E)%nat with (N * (S B' * E))%nat by lia.
      rewrite Nat.div_mul; [done|]. subst E.
      assert (0 < S B' * (H * P))%nat by (repeat apply Nat.mul_pos_pos; lia). lia. }
  by apply reshape3_flatten3.
Qed.

Lemma recombine_separate_heads_witness :
  let self := mk 4 2 2 (layers.mk_Dense 4 layers.linear) (layers.mk_Dense 4 layers.linear) (layers.mk_Dense 4 layers.linear) (layers.mk_Dense 4 layers.linear) in
  let x : tensor3 := [[[1; 2; 3; 4]; [5; 6; 7; 8]]]%R in
  (embed_dim self = Z.of_nat 4 /\ num_heads self = Z.of_nat 2
   /\ projection_dim self = Z.of_nat 2
   /\ 4%nat = (2 * 2)%nat /\ (0 < 2)%nat /\ (0 < 2)%nat /\ has_shape3 x 1 2 4)
  /\ recombine_heads self (separate_heads self x (Z.of_nat 1)) (Z.of_nat 1) = x.
Proof.
  intros self x.
  assert (has_shape3 x 1 2 4) as Hx by (repeat (split || constructor)).
  split.
  { split; [reflexivity|]. split; [reflexivity|]. split; [reflexivity|].
    split; [reflexivity|]. split; [lia|]. split; [lia|exact Hx]. }
  apply (recombine_separate_heads self x 1 2 4 2 2); try reflexivity; try lia.
  exact Hx.
Defined.

End heads.

(** ** Shapes through the layers and the model *)

Section model_shapes.

(** X15.  An attention layer that [__init__] accepts for positive
    dimensions splits [embed_dim] exactly into [num_heads] heads of
    [projection_dim] coordinates, and its [call], over Dense sublayers of
    width [embed_dim], returns a tensor of the shape of its input. *)
Theorem attention_call_preserves_shape (E H : nat) (a : MultiHeadSelfAttention.t)
        (w : MultiHeadSelfAttention.sublayers) (x : tensor3) (b n : nat) :
  (0 < E)%nat -> (0 < H)%nat ->
  MultiHeadSelfAttention.init (Z.of_nat E) (Z.of_nat H) = Ok a ->
  keeps_shape (MultiHeadSelfAttention.query_dense_call w) E ->
  keeps_shape (MultiHeadSelfAttention.key_dense_call w) E ->
  keeps_shape (MultiHeadSelfAttention.value_dense_call w) E ->
  keeps_shape (MultiHeadSelfAttention.combine_heads_call w) E ->
  has_shape3 x b n E ->
  MultiHeadSelfAttention.num_heads a * MultiHeadSelfAttention.projection_dim a
  = MultiHeadSelfAttention.embed_dim a
  /\ 0 < MultiHeadSelfAttention.projection_dim a
  /\ has_shape3 (MultiHeadSelfAttention.call a w x) b n E.
Proof.
  intros HE HH Hinit Hq Hk Hv Hc Hx.
  apply init_ok_inv in Hinit as (_ & Hmod & _ & ->). simpl.
  assert (Z.of_nat E = Z.of_nat H * (Z.of_nat E / Z.of_nat H)) as Hsplit.
  { pose proof (Z.div_mod (Z.of_nat E) (Z.of_nat H) ltac:(lia)). lia. }
  assert (0 < Z.of_nat E / Z.of_nat H) as Hpos by nia.
  split; [lia|]. split; [done|].
  apply (call_keeps_shape _ w E H (Z.to_nat (Z.of_nat E / Z.of_nat H)));
    simpl; try done; try lia.
Qed.

Lemma attention_call_preserves_shape_witness :
  let identity : tensor3 -> tensor3 := fun x => x in
  let w := MultiHeadSelfAttention.mk_sublayers identity identity identity identity in
  let a := MultiHeadSelfAttention.mk 4 2 2
             (layers.mk_Dense 4 layers.linear) (layers.mk_Dense 4 layers.linear)
             (layers.mk_Dense 4 layers.linear) (layers.mk_Dense 4 layers.linear) in
  let x : tensor3 := [[[1; 2; 3; 4]; [5; 6; 7; 8]]]%R in
  ((0 < 4)%nat /\ (0 < 2)%nat
   /\ MultiHeadSelfAttention.init (Z.of_nat 4) (Z.of_nat 2) = Ok a
   /\ keeps_shape identity 4 /\ has_shape3 x 1 2 4)
  /\ has_shape3 (MultiHeadSelfAttention.call a w x) 1 2 4.
Proof.
  intros identity w a x.
  assert (keeps_shape identity 4) as Hid by (intros y b n Hy; exact Hy).
  assert (has_shape3 x 1 2 4) as Hx by (repeat (split || constructor)).
  split.
  { split; [lia|]. split; [lia|]. split; [reflexivity|]. split; [exact Hid|exact Hx]. }
  apply (attention_call_preserves_shape 4 2 a w x 1 2 ltac:(lia) ltac:(lia) eq_refl
           Hid Hid Hid Hid Hx).
Defined.

Lemma embedding_call_row (self : TokenAndPositionEmbedding.t) (x : list (list Z))
      (B N b : nat) (row : list Z) :
  has_shape2 x B N -> x !! b = Some row ->
  TokenAndPositionEmbedding.call self x !! b
  = Some (madd (map (TokenAndPositionEmbedding.token_emb self) row)
               (map (TokenAndPositionEmbedding.pos_emb self) (range (Z.of_nat N)))).
Proof.
  intros Hx Hb. unfold TokenAndPositionEmbedding.call.
  rewrite (hd_length_shape2 x B N b row Hx Hb).
  by rewrite !list_lookup_fmap, Hb.
Qed.

Lemma embedding_call_rows (self : TokenAndPositionEmbedding.t) (x : list (list Z))
      (B N E : nat) :
  (forall tok, length (TokenAndPositionEmbedding.token_emb self tok) = E) ->
  (forall p, length (TokenAndPositionEmbedding.pos_emb self p) = E) ->
  has_shape2 x B N ->
  Forall (fun m => has_shape2 m N E) (TokenAndPositionEmbedding.call self x).
Proof.
  intros Htok Hpos Hx. pose proof Hx as [HB Hrows].
  apply Forall_lookup. intros b m Hm.
  destruct (lookup_lt_is_Some_2 x b) as [row Hrow].
  { apply lookup_lt_Some in Hm. unfold TokenAndPositionEmbedding.call in Hm.
    by rewrite !length_map in Hm. }
  rewrite (embedding_call_row self x B N b row Hx Hrow) in Hm.
  inversion Hm; subst m.
  rewrite Forall_lookup in Hrows. pose proof (Hrows _ _ Hrow) as Hlen.
  apply madd_shape.
  - split; [by rewrite length_map|]. apply Forall_fmap, Forall_forall. intros ? _. apply Htok.
  - split; [by rewrite length_map, length_range, Nat2Z.id|].
    apply Forall_fmap, Forall_forall. intros ? _. apply Hpos.
Qed.

(** X16.  With embedding tables whose rows have [embed_dim] entries, the
    embedding layer maps a (batch, seq_len) tensor of tokens to a
    (batch, seq_len, embed_dim) tensor. *)
Theorem embedding_call_shape (self : TokenAndPositionEmbedding.t) (x : list (list Z))
        (B N E : nat) :
  (forall tok, length (TokenAndPositionEmbedding.token_emb self tok) = E) ->
  (forall p, length (TokenAndPositionEmbedding.pos_emb self p) = E) ->
  has_shape2 x B N ->
  has_shape3 (TokenAndPositionEmbedding.call self x) B N E.
Proof.
  intros Htok Hpos Hx. split.
  - destruct Hx as [HB _]. unfold TokenAndPositionEmbedding.call.
    by rewrite !length_map.
  - by apply (embedding_call_rows self x B N E).
Qed.

Lemma embedding_call_shape_witness :
  let self := TokenAndPositionEmbedding.mk
                (fun tok => [IZR tok; 0%R]) (fun p => [0%R; IZR p]) in
  let x := [[5; 7; 9]; [1; 7; 2]] in
  ((forall tok, length (TokenAndPositionEmbedding.token_emb self tok) = 2%nat)
   /\ (forall p, length (TokenAndPositionEmbedding.pos_emb self p) = 2%nat)
   /\ has_shape2 x 2 3)
  /\ has_shape3 (TokenAndPositionEmbedding.call self x) 2 3 2.
Proof.
  intros self x.
  assert (has_shape2 x 2 3) as Hx by (repeat (split || constructor)).
  split; [split; [reflexivity|split; [reflexivity|exact Hx]]|].
  apply (embedding_call_shape self x 2 3 2); [reflexivity|reflexivity|exact Hx].
Defined.

(** X17.  The embedding layer reads the position table only at the
    positions [0 .. seq_len - 1] and the token table only at the tokens
    of its input: two layers that agree there give the same output. *)
Theorem embedding_call_footprint (self self' : TokenAndPositionEmbedding.t)
        (x : list (list Z)) (B N : nat) :
  has_shape2 x B N ->
  (forall p, 0 <= p < Z.of_nat N ->
     TokenAndPositionEmbedding.pos_emb self p = TokenAndPositionEmbedding.pos_emb self' p) ->
  (forall row tok, row ∈ x -> tok ∈ row ->
     TokenAndPositionEmbedding.token_emb self tok
     = TokenAndPositionEmbedding.token_emb self' tok) ->
  TokenAndPositionEmbedding.call self x = TokenAndPositionEmbedding.call self' x.
Proof.
  intros Hx Hpos Htok. apply list_eq. intros b.
  destruct (x !! b) as [row|] eqn:Hrow.
  - rewrite (embedding_call_row self x B N b row Hx Hrow).
    rewrite (embedding_call_row self' x B N b row Hx Hrow).
    f_equal. f_equal.
    + apply map_ext_in. intros tok Hin. apply (Htok row).
      * by eapply list_elem_of_lookup_2.
      * by apply list_elem_of_In.
    + apply map_ext_in. intros p Hin. apply Hpos.
      unfold range in Hin. apply in_map_iff in Hin as (i & <- & Hi).
      apply in_seq in Hi. lia.
  - unfold TokenAndPositionEmbedding.call. by rewrite !list_lookup_fmap, Hrow.
Qed.

Lemma embedding_call_footprint_witness :
  let self := TokenAndPositionEmbedding.mk
                (fun tok => [IZR tok]) (fun p => [IZR p]) in
  let self' := TokenAndPositionEmbedding.mk
                 (fun tok => [IZR tok]) (fun p => [IZR (Z.min p 1)]) in
  let x := [[5; 7]] in
  (has_shape2 x 1 2
   /\ (forall p, 0 <= p < Z.of_nat 2 ->
         TokenAndPositionEmbedding.pos_emb self p
         = TokenAndPositionEmbedding.pos_emb self' p)
   /\ (forall row tok, row ∈ x -> tok ∈ row ->
         TokenAndPositionEmbedding.token_emb self tok
         = TokenAndPositionEmbedding.token_emb self' tok))
  /\ TokenAndPositionEmbedding.call self x = TokenAndPositionEmbedding.call self' x.
Proof.
  intros self self' x.
  assert (has_shape2 x 1 2) as Hx by (repeat (split || constructor)).
  assert (forall p, 0 <= p < Z.of_nat 2 ->
            TokenAndPositionEmbedding.pos_emb self p
            = TokenAndPositionEmbedding.pos_emb self' p) as Hpos.
  { intros p Hp. simpl. rewrite Z.min_l by lia. reflexivity. }
  assert (forall row tok, row ∈ x -> tok ∈ row ->
            TokenAndPositionEmbedding.token_emb self tok
            = TokenAndPositionEmbedding.token_emb self' tok) as Htok.
  { intros row tok _ _. reflexivity. }
  split; [split; [exact Hx|split; [exact Hpos|exact Htok]]|].
  exact (embedding_call_footprint self self' x 1 2 Hx Hpos Htok).
Defined.

End model_shapes.

(** ** Construction of the layers *)

Section construction.

(** X18.  [MultiHeadSelfAttention.__init__] returns a layer exactly when
    the head count is not 0, divides the embedding dimension, and the
    embedding dimension is not negative; the layer it returns records both
    numbers and a [projection_dim] whose [num_heads] copies make up
    [embed_dim].  A negative head count that divides the embedding
    dimension is accepted, and gives a negative [projection_dim]. *)
Theorem init_succeeds_iff (embed_dim num_heads : Z) :
  ((exists a, MultiHeadSelfAttention.init embed_dim num_heads = Ok a)
   <-> num_heads <> 0 /\ (num_heads | embed_dim) /\ 0 <= embed_dim)
  /\ (forall a, MultiHeadSelfAttention.init embed_dim num_heads = Ok a ->
        MultiHeadSelfAttention.embed_dim a = embed_dim
        /\ MultiHeadSelfAttention.num_heads a = num_heads
        /\ MultiHeadSelfAttention.num_heads a * MultiHeadSelfAttention.projection_dim a
           = embed_dim
        /\ (0 < embed_dim -> num_heads < 0 ->
            MultiHeadSelfAttention.projection_dim a < 0)).
Proof.
  split; [split|].
  - intros [a Ha]. apply init_ok_inv in Ha as (Hn & Hmod & He & _).
    split; [done|]. split; [|done]. by apply Z.mod_divide.
  - intros (Hn & Hd & He). apply Z.mod_divide in Hd; [|done].
    unfold MultiHeadSelfAttention.init, py_mod, py_floordiv.
    destruct (Z.eqb_spec num_heads 0) as [?|_]; [done|]. simpl.
    rewrite Hd. simpl. rewrite !Dense_init_nonneg by done. simpl. eauto.
  - intros a Ha. apply init_ok_inv in Ha as (Hn & Hmod & He & ->). simpl.
    pose proof (Z.div_mod embed_dim num_heads Hn) as Hdm.
    split; [done|]. split; [done|]. split; [lia|].
    intros Hpos Hneg. nia.
Qed.

Example init_negative_heads :
  MultiHeadSelfAttention.init 4 (-2)
  = Ok (MultiHeadSelfAttention.mk 4 (-2) (-2)
          (layers.mk_Dense 4 layers.linear) (layers.mk_Dense 4 layers.linear)
          (layers.mk_Dense 4 layers.linear) (layers.mk_Dense 4 layers.linear)).
Proof. reflexivity. Qed.

(** X19.  [TransformerBlock.__init__] returns a block exactly when the
    attention layer can be constructed and [ff_dim] is not negative; an
    error of the attention layer's constructor is passed on unchanged, and
    a negative [ff_dim] is reported by the first Dense layer only after
    the attention layer has been constructed. *)
Theorem block_init_outcomes (embed_dim num_heads ff_dim : Z) :
  ((exists self, TransformerBlock.init embed_dim num_heads ff_dim = Ok self)
   <-> (exists a, MultiHeadSelfAttention.init embed_dim num_heads = Ok a) /\ 0 <= ff_dim)
  /\ (forall e, MultiHeadSelfAttention.init embed_dim num_heads = Raise e ->
        TransformerBlock.init embed_dim num_heads ff_dim = Raise e)
  /\ (forall a, MultiHeadSelfAttention.init embed_dim num_heads = Ok a -> ff_dim < 0 ->
        exists msg,
          TransformerBlock.init embed_dim num_heads ff_dim = Raise (ValueError msg)).
Proof.
  split; [split|split].
  - intros [self Hself]. apply init_ok_block in Hself as (a & Ha & Hf & _). eauto.
  - intros [[a Ha] Hf]. unfold TransformerBlock.init. rewrite Ha. simpl.
    apply init_ok_inv in Ha as (_ & _ & He & _).
    rewrite !Dense_init_nonneg by done. simpl. eauto.
  - intros e He. unfold TransformerBlock.init. by rewrite He.
  - intros a Ha Hf. unfold TransformerBlock.init. rewrite Ha. simpl.
    rewrite Dense_init_negative by done. eauto.
Qed.

End construction.

(** ** The model *)

Section Model_facts.
Import Model.

(** X20.  A model whose block [TransformerBlock.__init__] built for
    positive dimensions, whose output layer is a Dense layer of width
    [vocab_size], and whose weights have the shapes the layers give them,
    maps a (batch, seq_len) tensor of tokens to logits of shape
    (batch, seq_len, vocab_size) and hidden states of shape
    (batch, seq_len, embed_dim).  It is then a model as the generation
    callback needs it: one row of [maxlen] tokens gives logits of shape
    (1, maxlen, vocab_size). *)
Theorem predict_shapes (m : Model.t) (E H F V : nat) :
  (0 < E)%nat -> (0 < H)%nat ->
  TransformerBlock.init (Z.of_nat E) (Z.of_nat H) (Z.of_nat F) = Ok (transformer_block m) ->
  outputs_dense m = layers.mk_Dense (Z.of_nat V) layers.linear ->
  Model.weights_ok m E F V ->
  (forall inputs B N, has_shape2 inputs B N ->
     has_shape3 (predict m inputs).1 B N V /\ has_shape3 (predict m inputs).2 B N E)
  /\ (forall maxlen max_tokens start_tokens index_to_word print_every k,
        TextGenerator.model_ok maxlen
          (TextGenerator.mk max_tokens start_tokens index_to_word print_every k (predict m))
          V).
Proof.
  intros HE HH Hinit Hout [Htok Hpos Hblk [Hko Hbo]].
  assert (forall inputs B N, has_shape2 inputs B N ->
            has_shape3 (predict m inputs).1 B N V /\ has_shape3 (predict m inputs).2 B N E)
    as Hshape.
  { intros inputs B N Hin. unfold predict. simpl.
    assert (has_shape3 (TokenAndPositionEmbedding.call (embedding_layer m) inputs) B N E)
      as Hemb.
    { split; [|by apply (embedding_call_rows _ inputs B N E)].
      destruct Hin as [HB _]. unfold TokenAndPositionEmbedding.call.
      by rewrite !length_map. }
    pose proof (block_call_shape (transformer_block m) (transformer_block_w m)
                  None E H F B N _ HE HH Hinit Hblk I Hemb) as Hx.
    split; [|exact Hx].
    apply (Dense_call_shape _ _ E V); [by rewrite Hout|done|exact Hx]. }
  split; [exact Hshape|].
  intros maxlen max_tokens start_tokens index_to_word print_every k x Hlen.
  change (TextGenerator.model _ [x]) with (predict m [x]).
  apply (Hshape [x] 1%nat (Z.to_nat maxlen)). split; [done|].
  constructor; [|constructor]. unfold len in Hlen. lia.
Qed.

Lemma predict_shapes_witness :
  let square := layers.mk_Dense_weights [[1; 0]; [0; 1]]%R [0; 0]%R in
  let block_w :=
    TransformerBlock.mk_weights
      (MultiHeadSelfAttention.mk_weights square square square square)
      (layers.mk_Dense_weights [[1; -1; 2]; [0; 1; 1]]%R [0; 0; -4]%R)
      (layers.mk_Dense_weights [[1; 0]; [0; 1]; [1; 1]]%R [3; 0]%R)
      (layers.mk_LayerNormalization_weights [1; 1]%R [0; 0]%R)
      (layers.mk_LayerNormalization_weights [2; 2]%R [1; 1]%R) in
  let attention_layer :=
    MultiHeadSelfAttention.mk 2 2 1
      (layers.mk_Dense 2 layers.linear) (layers.mk_Dense 2 layers.linear)
      (layers.mk_Dense 2 layers.linear) (layers.mk_Dense 2 layers.linear) in
  let block :=
    TransformerBlock.mk attention_layer
      (layers.mk_Dense 3 layers.relu) (layers.mk_Dense 2 layers.linear)
      (layers.mk_LayerNormalization (1 / 1000000))
      (layers.mk_LayerNormalization (1 / 1000000))
      (layers.mk_Dropout (1 / 10)) (layers.mk_Dropout (1 / 10)) in
  let embedding :=
    TokenAndPositionEmbedding.mk (fun tok => [IZR tok; 1]%R) (fun p => [0; IZR p]%R) in
  let m :=
    Model.mk embedding block block_w
      (layers.mk_Dense 5 layers.linear)
      (layers.mk_Dense_weights [[1; 0; 0; 1; 0]; [0; 1; 0; 0; 1]]%R [0; 0; 0; 0; 0]%R) in
  ((0 < 2)%nat /\ (0 < 2)%nat
   /\ TransformerBlock.init (Z.of_nat 2) (Z.of_nat 2) (Z.of_nat 3)
      = Ok (transformer_block m)
   /\ outputs_dense m = layers.mk_Dense (Z.of_nat 5) layers.linear
   /\ Model.weights_ok m 2 3 5
   /\ has_shape2 [[2; 3; 4; 0]] 1 4)
  /\ has_shape3 (predict m [[2; 3; 4; 0]]).1 1 4 5
  /\ TextGenerator.model_ok 4
       (TextGenerator.mk 5 [2; 3; 4] Worked.vocab 1 2 (predict m)) 5.
Proof.
  intros square block_w attention_layer block embedding m.
  assert (layers.Dense_weights_ok square 2 2) as Hsq.
  { split; [repeat (split || constructor)|reflexivity]. }
  assert (Model.weights_ok m 2 3 5) as Hw.
  { constructor; simpl.
    - done.
    - done.
    - constructor.
      + by constructor.
      + split; [repeat (split || constructor)|reflexivity].
      + split; [repeat (split || constructor)|reflexivity].
      + by split.
      + by split.
    - split; [repeat (split || constructor)|reflexivity]. }
  assert (has_shape2 [[2; 3; 4; 0]] 1 4) as Hin by (repeat (split || constructor)).
  split.
  { split; [lia|]. split; [lia|]. split; [reflexivity|]. split; [reflexivity|].
    split; [exact Hw|exact Hin]. }
  destruct (predict_shapes m 2 2 3 5 ltac:(lia) ltac:(lia) eq_refl eq_refl Hw)
    as [Hshape Hmodel].
  split; [apply (Hshape _ _ _ Hin)|apply Hmodel].
Defined.

End Model_facts.
